(** * VibeCLI action protocol engine: a shallow embedding of [mini/term3.py]

    The development follows the source file top-down: the Python string
    primitives the agent relies on ([PyStr]), the utility class
    ([VibeUtils]), the regular expressions of [process_tool_calls]
    ([Regex]), a tree model of the file system with [pathlib]'s POSIX
    path algebra ([Fs]), and finally the handlers of [VibeAgent] written
    in a state-and-exception monad over the agent object and its
    environment ([Agent]).

    Characters are the code points 0..255 ([ascii]); Python's predicates
    on characters ([str.isspace], [str.lower], the classes of [re]) are
    transcribed for that range. *)

From Stdlib Require Import String Ascii List Bool Arith ZArith Lia DecimalString.
Import ListNotations.
Open Scope string_scope.
Open Scope list_scope.
Open Scope nat_scope.

Set Warnings "-register-all".

(* ================================================================== *)
(** * Python string primitives *)
(* ================================================================== *)

Module PyStr.

(** [str.isspace] on one character: TAB..CR, FS..US, SPACE, NEL, NBSP. *)
Definition isspace (c : ascii) : bool :=
  let n := nat_of_ascii c in
  ((9 <=? n) && (n <=? 13)) || ((28 <=? n) && (n <=? 32))
  || (n =? 133) || (n =? 160).

(** [str.lower] on one character: A..Z and the Latin-1 capitals. *)
Definition lower_char (c : ascii) : ascii :=
  let n := nat_of_ascii c in
  if ((65 <=? n) && (n <=? 90))
     || ((192 <=? n) && (n <=? 222) && negb (n =? 215))
  then ascii_of_nat (n + 32) else c.

Fixpoint lower (s : string) : string :=
  match s with
  | EmptyString => EmptyString
  | String c r => String (lower_char c) (lower r)
  end.

(** [s.startswith(p)] *)
Fixpoint startswith (s p : string) {struct p} : bool :=
  match p, s with
  | EmptyString, _ => true
  | String a p', String b s' => Ascii.eqb a b && startswith s' p'
  | String _ _, EmptyString => false
  end.

(** [sub in s] *)
Fixpoint contains (s sub : string) : bool :=
  startswith s sub
  || match s with
     | EmptyString => false
     | String _ r => contains r sub
     end.

(** [s.endswith(p)] *)
Fixpoint endswith (s p : string) : bool :=
  String.eqb s p
  || match s with
     | EmptyString => false
     | String _ r => endswith r p
     end.

Fixpoint lstrip (s : string) : string :=
  match s with
  | EmptyString => EmptyString
  | String c r => if isspace c then lstrip r else s
  end.

Fixpoint rstrip (s : string) : string :=
  match s with
  | EmptyString => EmptyString
  | String c r =>
      match rstrip r with
      | EmptyString => if isspace c then EmptyString else String c EmptyString
      | r' => String c r'
      end
  end.

(** [s.strip()] *)
Definition strip (s : string) : string := rstrip (lstrip s).

(** [s.split()]: the maximal runs of non-whitespace characters.
    [tok] is the run being read. *)
Fixpoint split_from (s tok : string) : list string :=
  match s with
  | EmptyString => match tok with EmptyString => [] | _ => [tok] end
  | String c r =>
      if isspace c
      then match tok with
           | EmptyString => split_from r EmptyString
           | _ => tok :: split_from r EmptyString
           end
      else split_from r (tok ++ String c EmptyString)
  end.

Definition split (s : string) : list string := split_from s EmptyString.

(** [s.split(sep, 1)] for a one-character separator: one or two pieces. *)
Fixpoint split1 (s : string) (sep : ascii) : list string :=
  match s with
  | EmptyString => [EmptyString]
  | String c r =>
      if Ascii.eqb c sep then [EmptyString; r]
      else match split1 r sep with
           | h :: t => String c h :: t
           | [] => [String c EmptyString]
           end
  end.

(** [s.replace(a, b)]: every occurrence of [a], left to right, without
    overlap.  [skip] counts the characters of an occurrence still to be
    dropped. *)
Fixpoint replace_from (s a b : string) (skip : nat) : string :=
  match s with
  | EmptyString => EmptyString
  | String c r =>
      match skip with
      | S k => replace_from r a b k
      | O =>
          if startswith s a
          then b ++ replace_from r a b (String.length a - 1)
          else String c (replace_from r a b 0)
      end
  end.

Fixpoint intersperse (s b : string) : string :=
  match s with
  | EmptyString => b
  | String c r => b ++ String c (intersperse r b)
  end.

Definition replace (s a b : string) : string :=
  match a with
  | EmptyString => intersperse s b
  | _ => replace_from s a b 0
  end.

(** ["sep".join(l)] *)
Fixpoint join (sep : string) (l : list string) : string :=
  match l with
  | [] => EmptyString
  | [x] => x
  | x :: r => x ++ sep ++ join sep r
  end.

(** [sorted(l, key=...)]: stable, by insertion from the right. *)
Fixpoint insert_by {A : Type} (le : A -> A -> bool) (x : A) (l : list A) : list A :=
  match l with
  | [] => [x]
  | y :: r => if le x y then x :: l else y :: insert_by le x r
  end.

Definition sorted_by {A : Type} (le : A -> A -> bool) (l : list A) : list A :=
  fold_right (insert_by le) [] l.

(** [s[n:]] *)
Fixpoint drop (n : nat) (s : string) : string :=
  match n, s with
  | S n', String _ r => drop n' r
  | _, _ => s
  end.

(** [d.get(k)] for a dictionary written as a list of items *)
Fixpoint assoc (k : string) (l : list (string * string)) : option string :=
  match l with
  | [] => None
  | (k', v) :: r => if String.eqb k k' then Some v else assoc k r
  end.

(** [x in l] for a list of strings *)
Definition mem (x : string) (l : list string) : bool :=
  existsb (String.eqb x) l.

(** [any(x in s for x in l)] *)
Definition any_in (s : string) (l : list string) : bool :=
  existsb (contains s) l.

End PyStr.

(* ================================================================== *)
(** * Configuration and [VibeUtils] *)
(* ================================================================== *)

Definition DANGEROUS_COMMANDS : list string :=
  ["rm"; "del"; "format"; "mkfs"; "dd"; "shutdown"; "reboot"; "diskpart"].

Definition MAX_HISTORY_TURNS : nat := 15.

Definition WINDOWS_CMD_MAP : list (string * string) :=
  [("ls", "dir /b"); ("ls -l", "dir"); ("ls -la", "dir /a");
   ("ls -R", "tree /f /a"); ("pwd", "cd"); ("cat", "type"); ("cp", "copy");
   ("mv", "move"); ("rm", "del"); ("rm -rf", "rmdir /s /q");
   ("mkdir -p", "mkdir"); ("touch", "type nul >"); ("clear", "cls");
   ("grep", "findstr"); ("which", "where")].


Module VibeUtils.
Import PyStr.

Section Host.
(** [IS_WINDOWS = sys.platform.startswith('win')], fixed per host. *)
Variable IS_WINDOWS : bool.

Definition is_dangerous (command : string) : bool :=
  match split (lower command) with
  | [] => false
  | p0 :: _ =>
      if mem p0 DANGEROUS_COMMANDS then true
      else if contains command "rm"
              && (contains command "-r" || contains command "/ ")
      then true
      else if IS_WINDOWS
              && (contains command "del" || contains command "rmdir"
                  || contains command "rd")
      then
        if contains command "/s"
           && (contains (lower command) "c:\"
               || contains (lower command) "d:\")
        then true else false
      else false
  end.

Definition normalize_path (path : string) : string :=
  if IS_WINDOWS then replace path "/" "\" else replace path "\" "/".

(** The loop of [convert_unix_to_windows] over the sorted keys. *)
Fixpoint convert_with (command cmd_lower : string) (keys : list string) : string :=
  match keys with
  | [] => command
  | unix_cmd :: later =>
      let match_len := String.length unix_cmd in
      if startswith cmd_lower unix_cmd
         && ((String.length cmd_lower =? match_len)
             || match String.get match_len cmd_lower with
                | Some c => Ascii.eqb c " "%char
                | None => false
                end)
      then
        let win_cmd := match assoc unix_cmd WINDOWS_CMD_MAP with
                       | Some w => w
                       | None => EmptyString
                       end in
        let rest := strip (drop match_len command) in
        match rest with
        | EmptyString => win_cmd
        | _ => (win_cmd ++ " " ++ rest)%string
        end
      else convert_with command cmd_lower later
  end.

Definition convert_unix_to_windows (command : string) : string :=
  if negb IS_WINDOWS then command
  else
    let cmd_lower := strip (lower command) in
    let sorted_keys :=
      sorted_by (fun a b => String.length b <=? String.length a)
                (map fst WINDOWS_CMD_MAP) in
    convert_with command cmd_lower sorted_keys.

End Host.
End VibeUtils.

(* ================================================================== *)
(** * The regular expressions of [process_tool_calls] *)
(* ================================================================== *)

(** A backtracking matcher in the style of Python's [re]: alternatives
    are explored in priority order and the first overall success wins.
    Only the constructs that occur in the agent's patterns are present:
    literals, a quantified character class (greedy or lazy, optionally
    a capture group), an optional non-capturing group, and
    concatenation.  All patterns are compiled with [re.DOTALL]. *)

Module Regex.
Import PyStr.

Inductive cls : Type :=
| Any        (* .  under DOTALL *)
| Space      (* \s *)
| NonSpace   (* \S *)
| Word.      (* \w *)

(** [\w] on one character: [str.isalnum] or underscore. *)
Definition isword (c : ascii) : bool :=
  let n := nat_of_ascii c in
  ((48 <=? n) && (n <=? 57)) || ((65 <=? n) && (n <=? 90))
  || ((97 <=? n) && (n <=? 122)) || (n =? 95)
  || (n =? 170) || (n =? 178) || (n =? 179) || (n =? 181)
  || (n =? 185) || (n =? 186) || ((188 <=? n) && (n <=? 190))
  || ((192 <=? n) && (n <=? 214)) || ((216 <=? n) && (n <=? 246))
  || (248 <=? n).

Definition in_cls (k : cls) (c : ascii) : bool :=
  match k with
  | Any => true
  | Space => isspace c
  | NonSpace => negb (isspace c)
  | Word => isword c
  end.

Inductive re : Type :=
| Lit (s : string)
| Rep (capture : bool) (k : cls) (min : nat) (greedy : bool)
| Opt (r : re)
| Cat (r1 r2 : re).

Infix ";;" := Cat (at level 61, right associativity).

(** Number of capture groups of a pattern. *)
Fixpoint groups (r : re) : nat :=
  match r with
  | Lit _ => 0
  | Rep capture _ _ _ => if capture then 1 else 0
  | Opt r' => groups r'
  | Cat r1 r2 => groups r1 + groups r2
  end.

Section Matcher.
Context {R : Type}.

(** Lazy repetition: try the continuation first, then one more
    character.  [acc] is the text consumed so far. *)
Fixpoint rep_lazy (k : cls) (min : nat) (acc s : string)
         (kont : string -> string -> option R) : option R :=
  let more :=
    match s with
    | String c r =>
        if in_cls k c
        then rep_lazy k (pred min) (acc ++ String c EmptyString) r kont
        else None
    | EmptyString => None
    end in
  match min with
  | O => match kont acc s with
         | Some x => Some x
         | None => more
         end
  | S _ => more
  end.

(** Greedy repetition: one more character first, then the
    continuation. *)
Fixpoint rep_greedy (k : cls) (min : nat) (acc s : string)
         (kont : string -> string -> option R) : option R :=
  let here := match min with O => kont acc s | S _ => None end in
  match s with
  | String c r =>
      if in_cls k c
      then match rep_greedy k (pred min) (acc ++ String c EmptyString) r kont with
           | Some x => Some x
           | None => here
           end
      else here
  | EmptyString => here
  end.

Fixpoint run (r : re) (s : string) (caps : list string)
         (kont : list string -> string -> option R) : option R :=
  match r with
  | Lit l =>
      if startswith s l then kont caps (drop (String.length l) s) else None
  | Rep capture k min greedy =>
      (if greedy then rep_greedy else rep_lazy) k min EmptyString s
        (fun m rest => kont (if capture then caps ++ [m] else caps) rest)
  | Opt r' =>
      match run r' s caps kont with
      | Some x => Some x
      | None => kont (caps ++ repeat EmptyString (groups r')) s
      end
  | Cat r1 r2 =>
      run r1 s caps (fun caps' s' => run r2 s' caps' kont)
  end.

End Matcher.

(** [pattern.match] anchored at the head of [s]: the groups and the
    text left after the match. *)
Definition match_here (r : re) (s : string) : option (list string * string) :=
  run r s [] (fun caps rest => Some (caps, rest)).

(** [pattern.findall(s)]: scan left to right, resume after each match.
    [skip] counts the characters of the last match still to be passed.
    Every pattern below starts with a literal, so no match is empty. *)
Fixpoint findall_from (r : re) (s : string) (skip : nat) : list (list string) :=
  match s with
  | EmptyString => []
  | String _ t =>
      match skip with
      | S k => findall_from r t k
      | O =>
          match match_here r s with
          | Some (caps, rest) =>
              caps :: findall_from r t (String.length s - String.length rest - 1)
          | None => findall_from r t 0
          end
      end
  end.

Definition findall (r : re) (s : string) : list (list string) :=
  findall_from r s 0.

Definition LF : string := String (ascii_of_nat 10) EmptyString.

Definition ws0 : re := Rep false Space 0 true.   (* \s*   *)
Definition ws1 : re := Rep false Space 1 true.   (* \s+   *)
Definition arg : re := Rep true Any 1 false.     (* (.+?) *)
Definition body : re := Rep true Any 0 false.    (* (.*?) *)
Definition OPEN : re := Lit ">>>".
Definition CLOSE : re := Lit "<<<".

(** The [patterns] dictionary. *)
Definition P_WRITE : re :=
  OPEN ;; ws0 ;; Lit "WRITE" ;; ws1 ;; arg ;; ws0 ;; Lit LF ;; body ;; CLOSE.
Definition P_READ : re :=
  OPEN ;; ws0 ;; Lit "READ" ;; ws1 ;; arg ;; ws0 ;; CLOSE.
Definition P_RUN : re :=
  OPEN ;; ws0 ;; Lit "RUN" ;; ws1 ;; arg ;; ws0 ;; CLOSE.
Definition P_REFRESH : re :=
  OPEN ;; ws0 ;; Lit "REFRESH" ;; ws0 ;; CLOSE.
Definition P_TREE : re :=
  OPEN ;; ws0 ;; Lit "TREE" ;; ws0 ;; CLOSE.
Definition P_LISTFILES : re :=
  OPEN ;; ws0 ;; Lit "LISTFILES" ;; ws0 ;; CLOSE.
Definition P_INSTALL : re :=
  OPEN ;; ws0 ;; Lit "INSTALL" ;; ws1 ;; Rep true Word 1 true ;; ws1 ;; arg
       ;; ws0 ;; CLOSE.
Definition P_SHADCN : re :=
  OPEN ;; ws0 ;; Lit "SHADCN" ;; ws1 ;; arg ;; ws0 ;; CLOSE.
Definition P_DELETE : re :=
  OPEN ;; ws0 ;; Lit "DELETE" ;; ws1 ;; arg ;; ws0 ;; CLOSE.
Definition P_CREATE : re :=
  OPEN ;; ws0 ;; Lit "CREATE" ;; ws1 ;; Rep true NonSpace 1 true ;; ws1
       ;; Rep true NonSpace 1 true ;; Opt (ws1 ;; arg) ;; ws0 ;; CLOSE.
Definition P_CD : re :=
  OPEN ;; ws0 ;; Lit "CD" ;; ws1 ;; arg ;; ws0 ;; CLOSE.

End Regex.

(* ================================================================== *)
(** * File system and [pathlib] *)
(* ================================================================== *)

(** The file system is a tree of regular files and directories; the
    order of a directory's entries is the order in which the operating
    system lists them ([os.scandir]).  There are no symbolic links and
    no permissions.  A file holds text, the characters written into
    it: on a POSIX host [write_text] stores them as they are, and
    reading translates line ends as text mode does.  A [path] is the
    list of components of an absolute [PurePosixPath]; as in [pathlib],
    it may contain [".."] but neither empty components nor ["."]. *)

Module Fs.
Import PyStr.

Inductive node : Type :=
| File (content : string)
| Dir (entries : list (string * node)).

Definition path := list string.

Inductive errno : Type :=
| ENOENT | ENOTDIR | EEXIST | EISDIR | EBUSY | ENOTEMPTY | ESAMEFILE.

Inductive res (A : Type) : Type :=
| Ok (a : A)
| Err (e : errno).
Arguments Ok {A} a.
Arguments Err {A} e.

(** ** Entries of one directory *)

Fixpoint find_entry (x : string) (es : list (string * node)) : option node :=
  match es with
  | [] => None
  | (y, n) :: r => if String.eqb x y then Some n else find_entry x r
  end.

(** Replace the entry named [x], or add it at the end. *)
Fixpoint set_entry (x : string) (v : node) (es : list (string * node))
  : list (string * node) :=
  match es with
  | [] => [(x, v)]
  | (y, n) :: r =>
      if String.eqb x y then (y, v) :: r else (y, n) :: set_entry x v r
  end.

Definition del_entry (x : string) (es : list (string * node))
  : list (string * node) :=
  filter (fun e => negb (String.eqb x (fst e))) es.

(** ** Nodes at normalised paths *)

Fixpoint lookup (n : node) (p : path) : option node :=
  match p with
  | [] => Some n
  | x :: p' =>
      match n with
      | Dir es =>
          match find_entry x es with
          | Some c => lookup c p'
          | None => None
          end
      | File _ => None
      end
  end.

(** Store [v] at [p]; every proper prefix of [p] must be a directory. *)
Fixpoint put (n : node) (p : path) (v : node) : option node :=
  match p with
  | [] => Some v
  | x :: p' =>
      match n with
      | Dir es =>
          match p' with
          | [] => Some (Dir (set_entry x v es))
          | _ :: _ =>
              match find_entry x es with
              | Some c =>
                  match put c p' v with
                  | Some c' => Some (Dir (set_entry x c' es))
                  | None => None
                  end
              | None => None
              end
          end
      | File _ => None
      end
  end.

(** Remove the node at [p]; the root itself cannot be removed. *)
Fixpoint del (n : node) (p : path) : option node :=
  match p with
  | [] => None
  | x :: p' =>
      match n with
      | Dir es =>
          match p' with
          | [] => Some (Dir (del_entry x es))
          | _ :: _ =>
              match find_entry x es with
              | Some c =>
                  match del c p' with
                  | Some c' => Some (Dir (set_entry x c' es))
                  | None => None
                  end
              | None => None
              end
          end
      | File _ => None
      end
  end.

(** ** Pure paths *)

(** [s.split(sep)], empty pieces included; [tok] is the piece being read. *)
Fixpoint split_on (sep : ascii) (s tok : string) : list string :=
  match s with
  | EmptyString => [tok]
  | String c r =>
      if Ascii.eqb c sep then tok :: split_on sep r EmptyString
      else split_on sep r (tok ++ String c EmptyString)
  end.

(** Components of a path string: empty components and ["."] vanish. *)
Definition parts (s : string) : list string :=
  filter (fun c => negb (String.eqb c "") && negb (String.eqb c "."))
         (split_on "/"%char s EmptyString).

(** [p / s]: an absolute right operand replaces the left one. *)
Definition joinpath (p : path) (s : string) : path :=
  if startswith s "/" then parts s else p ++ parts s.

(** [str(p)] *)
Definition str (p : path) : string := "/" ++ join "/" p.

(** [p.name] *)
Definition name (p : path) : string := last p EmptyString.

(** [p.parent] *)
Definition parent (p : path) : path := removelast p.

(** Position of the last [.] of a name, if any. *)
Fixpoint rfind_dot (s : string) (i : nat) (found : option nat) : option nat :=
  match s with
  | EmptyString => found
  | String c r =>
      rfind_dot r (S i) (if Ascii.eqb c "."%char then Some i else found)
  end.

(** [p.suffix], from the name of [p]. *)
Definition suffix_of (nm : string) : string :=
  match rfind_dot nm 0 None with
  | Some i =>
      if (0 <? i) && (i <? String.length nm - 1)
      then drop i nm else EmptyString
  | None => EmptyString
  end.

(** [p.resolve()]: without symbolic links, [".."] is removed lexically. *)
Definition resolve (p : path) : path :=
  fold_left (fun acc c => if String.eqb c ".." then removelast acc
                          else acc ++ [c]) p [].

(** ** Path resolution by the operating system *)

(** Follow [comps] from the directory [cur]; each step needs [cur] to be
    an existing directory. *)
Fixpoint walk (root : node) (cur : path) (comps : list string) : res path :=
  match comps with
  | [] => Ok cur
  | c :: rest =>
      match lookup root cur with
      | Some (Dir _) =>
          walk root (if String.eqb c ".." then removelast cur
                     else cur ++ [c]) rest
      | Some (File _) => Err ENOTDIR
      | None => Err ENOENT
      end
  end.

(** [os.stat(p)]: the normalised location and the node found there. *)
Definition stat (root : node) (p : path) : res (path * node) :=
  match walk root [] p with
  | Ok q =>
      match lookup root q with
      | Some n => Ok (q, n)
      | None => Err ENOENT
      end
  | Err e => Err e
  end.

Definition exists_ (root : node) (p : path) : bool :=
  match stat root p with Ok _ => true | Err _ => false end.

Definition is_dir (root : node) (p : path) : bool :=
  match stat root p with Ok (_, Dir _) => true | _ => false end.

Definition is_file (root : node) (p : path) : bool :=
  match stat root p with Ok (_, File _) => true | _ => false end.

(** The text held by the file at [p], character for character. *)
Definition file_text (root : node) (p : path) : res string :=
  match stat root p with
  | Ok (_, File c) => Ok c
  | Ok (_, Dir _) => Err EISDIR
  | Err e => Err e
  end.

(** What text mode does to line ends on reading ([newline=None]): a
    carriage return, with the line feed that follows it if there is
    one, is read as one line feed. *)
Fixpoint universal_newlines (s : string) : string :=
  match s with
  | EmptyString => EmptyString
  | String c r =>
      if Ascii.eqb c (ascii_of_nat 13) then
        if startswith r (String (ascii_of_nat 10) EmptyString)
        then universal_newlines r
        else String (ascii_of_nat 10) (universal_newlines r)
      else String c (universal_newlines r)
  end.

(** [p.read_text()] *)
Definition read_text (root : node) (p : path) : res string :=
  match file_text root p with
  | Ok c => Ok (universal_newlines c)
  | Err e => Err e
  end.

(** Where [open(p, 'w')] would create or truncate a file. *)
Definition locate_for_write (root : node) (p : path) : res path :=
  match walk root [] p with
  | Ok q =>
      match lookup root q with
      | Some (Dir _) => Err EISDIR
      | Some (File _) => Ok q
      | None =>
          match lookup root (removelast q) with
          | Some (Dir _) => Ok q
          | Some (File _) => Err ENOTDIR
          | None => Err ENOENT
          end
      end
  | Err e => Err e
  end.

(** [p.write_text(content)] *)
Definition write_text (root : node) (p : path) (content : string) : res node :=
  match locate_for_write root p with
  | Ok q =>
      match put root q (File content) with
      | Some root' => Ok root'
      | None => Err ENOENT
      end
  | Err e => Err e
  end.

(** [os.mkdir(p)] *)
Definition os_mkdir (root : node) (p : path) : res node :=
  match walk root [] p with
  | Ok q =>
      match lookup root q with
      | Some _ => Err EEXIST
      | None =>
          match lookup root (removelast q) with
          | Some (Dir _) =>
              match put root q (Dir []) with
              | Some root' => Ok root'
              | None => Err ENOENT
              end
          | Some (File _) => Err ENOTDIR
          | None => Err ENOENT
          end
      end
  | Err e => Err e
  end.

(** [p.mkdir(parents=True, exist_ok=True)], as [pathlib] writes it: try
    [os.mkdir]; when a parent is missing, make the parent and try once
    more; any other error is forgiven when [p] is a directory.  The
    recursion is on the parent, so [fuel] is the number of components. *)
Fixpoint mkdir_rec (fuel : nat) (root : node) (p : path) : res node :=
  match os_mkdir root p with
  | Ok root' => Ok root'
  | Err ENOENT =>
      match fuel, p with
      | S fuel', _ :: _ =>
          match mkdir_rec fuel' root (parent p) with
          | Ok root' =>
              match os_mkdir root' p with
              | Ok root'' => Ok root''
              | Err e => if is_dir root' p then Ok root' else Err e
              end
          | Err e => Err e
          end
      | _, _ => Err ENOENT
      end
  | Err e => if is_dir root p then Ok root else Err e
  end.

Definition mkdir_parents (root : node) (p : path) : res node :=
  mkdir_rec (List.length p) root p.

(** [shutil.copy2(src, dst)] *)
Definition copy2 (root : node) (src dst : path) : res node :=
  match stat root src with
  | Ok (qs, File c) =>
      let dst' := if is_dir root dst then dst ++ [name src] else dst in
      match stat root dst' with
      | Ok (qd, _) =>
          if list_eq_dec string_dec qs qd then Err ESAMEFILE
          else write_text root dst' c
      | Err _ => write_text root dst' c
      end
  | Ok (_, Dir _) => Err EISDIR
  | Err e => Err e
  end.

(** [p.unlink()] *)
Definition unlink (root : node) (p : path) : res node :=
  match stat root p with
  | Ok (q, File _) =>
      match del root q with
      | Some root' => Ok root'
      | None => Err EBUSY
      end
  | Ok (_, Dir _) => Err EISDIR
  | Err e => Err e
  end.

(** [os.rmdir(p)]: the path is resolved as it is given.  The root
    cannot be removed; a path whose last component is [..] is refused
    once the directories before it have been found; the directory
    must be empty. *)
Definition os_rmdir (root : node) (p : path) : res node :=
  match p with
  | [] => Err EBUSY
  | _ :: _ =>
      match walk root [] p with
      | Ok q =>
          if String.eqb (last p EmptyString) ".." then Err ENOTEMPTY
          else
            match lookup root q with
            | Some (Dir []) =>
                match del root q with
                | Some root' => Ok root'
                | None => Err EBUSY
                end
            | Some (Dir (_ :: _)) => Err ENOTEMPTY
            | Some (File _) => Err ENOTDIR
            | None => Err ENOENT
            end
      | Err e => Err e
      end
  end.

(** The first part of [shutil.rmtree(p)]: [os.lstat(p)] and
    [os.open(p)] find the directory, and [_rmtree_safe_fd] removes,
    through the open descriptor, everything the directory holds.  The
    directory itself is still there, empty. *)
Definition _rmtree_safe_fd (root : node) (p : path) : res node :=
  match stat root p with
  | Ok (q, Dir _) =>
      match put root q (Dir []) with
      | Some root' => Ok root'
      | None => Err ENOENT
      end
  | Ok (_, File _) => Err ENOTDIR
  | Err e => Err e
  end.

End Fs.

(* ================================================================== *)
(** * [file_reader.py] *)
(* ================================================================== *)

Module FileReader.
Import PyStr Fs.
Local Open Scope string_scope.

Definition LF : string := Regex.LF.

(** Text outside the modelled character range is kept as its UTF-8
    bytes; it only ever occurs inside constant strings. *)
Definition utf8 (bytes : list nat) : string :=
  fold_right (fun b s => String (ascii_of_nat b) s) EmptyString bytes.

Definition TEE : string := utf8 [226; 148; 156; 226; 148; 128; 226; 148; 128; 32].
Definition ELBOW : string := utf8 [226; 148; 148; 226; 148; 128; 226; 148; 128; 32].
Definition PIPE : string := utf8 [226; 148; 130; 32; 32; 32].
Definition BLANK : string := "    ".

Definition SKIPPED_NAMES : list string :=
  ["package-lock.json"; "yarn.lock"; "pnpm-lock.yaml"; "bun.lockb";
   "node_modules"; "__pycache__"; ".git"; ".vs"; ".idea"; ".vscode";
   "dist"; "build"; "coverage"; ".DS_Store"; "Thumbs.db"].

Definition SKIPPED_EXTENSIONS : list string :=
  [".png"; ".jpg"; ".jpeg"; ".gif"; ".ico"; ".svg"; ".webp";
   ".woff"; ".woff2"; ".ttf"; ".eot"; ".otf";
   ".exe"; ".dll"; ".so"; ".dylib"; ".pyc"; ".class"; ".jar";
   ".pdf"; ".zip"; ".tar"; ".gz"].

Definition is_file_node (n : node) : bool :=
  match n with File _ => true | Dir _ => false end.

Definition is_dir_node (n : node) : bool :=
  match n with File _ => false | Dir _ => true end.

(** [is_ignored(path)], for the entry [nm] holding [n]. *)
Definition is_ignored (nm : string) (n : node) : bool :=
  if mem nm SKIPPED_NAMES then true
  else if is_file_node n && mem (lower (suffix_of nm)) SKIPPED_EXTENSIONS then true
  else if is_dir_node n && startswith nm "." then true
  else false.

(** One listed entry: its name, its node, and the rendering of its
    subtree as a function of the indentation. *)
Definition item : Type := string * node * (string -> string).

Definition item_name (i : item) : string := fst (fst i).
Definition item_node (i : item) : node := snd (fst i).

Definition is_last {A : Type} (r : list A) : bool :=
  match r with [] => true | _ :: _ => false end.

(** The loop of [generate_structure] over the sorted items. *)
Fixpoint structure_lines (indent : string) (items : list item) : string :=
  match items with
  | [] => EmptyString
  | (nm, n, sub) :: r =>
      let last := is_last r in
      (indent ++ (if last then ELBOW else TEE) ++ nm ++ LF)
      ++ (if is_dir_node n
          then sub (indent ++ (if last then BLANK else PIPE))
          else EmptyString)
      ++ structure_lines indent r
  end.

Fixpoint generate_structure (n : node) (indent : string) : string :=
  match n with
  | File _ => EmptyString
  | Dir es =>
      let listed :=
        map (fun e => match e with
                      | (nm, c) => (nm, c, fun ind => generate_structure c ind)
                      end) es in
      let items :=
        sorted_by (fun a b => String.leb (item_name a) (item_name b))
          (filter (fun i => negb (is_ignored (item_name i) (item_node i))) listed) in
      structure_lines indent items
  end.

(** [root_dir.rglob('*')]: directories in pre-order, each one yielding
    all its entries; paths are relative to the starting directory. *)
Fixpoint rglob (n : node) (rel : path) : list (path * node) :=
  match n with
  | File _ => []
  | Dir es =>
      (map (fun e => (rel ++ [fst e], snd e)) es
       ++ flat_map (fun e => match e with
                             | (nm, c) => rglob c (rel ++ [nm])
                             end) es)%list
  end.

(** The body of the loop of [scrape_contents] for one path. *)
Definition file_section (rel : path) (n : node) : string :=
  match n with
  | Dir _ => EmptyString
  | File content =>
      if is_ignored (name rel) n then EmptyString
      else
        let ext := match suffix_of (name rel) with
                   | EmptyString => "text"
                   | String _ e => e
                   end in
        "### File: `" ++ join "/" rel ++ "`" ++ LF
        ++ "```" ++ ext ++ LF ++ universal_newlines content ++ LF ++ "```"
        ++ LF ++ LF
  end.

(** [scrape_contents(root_dir)]; [None] is the [ValueError] raised when
    [root_dir] is not an existing directory. *)
Definition scrape_contents (root : node) (root_dir : path) : option string :=
  match stat root root_dir with
  | Ok (_, Dir es) =>
      Some ("# Project Content: " ++ name root_dir ++ LF ++ LF
            ++ "## Folder Structure" ++ LF
            ++ "```" ++ LF
            ++ name root_dir ++ "/" ++ LF
            ++ generate_structure (Dir es) EmptyString
            ++ "```" ++ LF ++ LF ++ "---" ++ LF ++ LF
            ++ "## File Contents" ++ LF ++ LF
            ++ String.concat EmptyString
                 (map (fun e => file_section (fst e) (snd e))
                      (rglob (Dir es) [])))
  | _ => None
  end.

End FileReader.

(* ================================================================== *)
(** * The agent object, its environment, and the effect monad *)
(* ================================================================== *)

Module Agent.
Import PyStr Fs.
Local Open Scope string_scope.

Definition LF : string := Regex.LF.

(** ** Data *)

Record datetime : Type := mk_datetime {
  year : nat; month : nat; day : nat;
  hour : nat; minute : nat; second : nat
}.

Record message : Type := mk_message {
  role : string;
  content : string
}.

(** One call of [subprocess.run]. *)
Record spawn : Type := mk_spawn {
  sp_command : string;
  sp_cwd : option path;
  sp_capture_output : bool;
  sp_timeout : option nat;
  sp_input : option string
}.

(** What the operating system makes of a spawned process. *)
Inductive proc : Type :=
| Completed (returncode : Z) (stdout stderr : string)
| TimedOut
| Interrupted
| Failed (msg : string).

(** The prompts of [input(...)], by the handler line that shows them. *)
Inductive prompt : Type :=
| AskApplyChanges                 (* ">> Apply changes? (y/n): " *)
| AskDelete (item_type : string)  (* ">> Delete this {item_type}? (y/n): " *)
| AskLaunchInNewWindow            (* ">> Launch in new window? (Y/n): " *)
| AskRunHereAnyway                (* ">> Run here anyway? ... (y/N): " *)
| AskDangerous                    (* "DANGEROUS COMMAND! Type 'confirm' to proceed: " *)
| AskExecute.                     (* ">> Execute? (y/n): " *)

(** The attributes of [VibeAgent] the handlers use. *)
Record vibe_agent : Type := mk_agent {
  root_dir : path;
  current_cwd : path;
  backup_dir : path;
  pkg_manager : string;
  messages : list message
}.

(** The environment: file system, working directory of the process,
    the lines the operator will type, the prompts shown and the
    processes spawned so far (oldest first), and the wall clock. *)
Record world : Type := mk_world {
  fs : node;
  os_cwd : path;
  stdin : list string;
  asked : list prompt;
  spawned : list spawn;
  now : datetime
}.

Record state : Type := mk_state {
  self : vibe_agent;
  env : world
}.

Definition with_cwd (a : vibe_agent) (p : path) : vibe_agent :=
  mk_agent (root_dir a) p (backup_dir a) (pkg_manager a) (messages a).

Definition with_messages (a : vibe_agent) (m : list message) : vibe_agent :=
  mk_agent (root_dir a) (current_cwd a) (backup_dir a) (pkg_manager a) m.

Definition with_fs (w : world) (f : node) : world :=
  mk_world f (os_cwd w) (stdin w) (asked w) (spawned w) (now w).

Definition with_os_cwd (w : world) (p : path) : world :=
  mk_world (fs w) p (stdin w) (asked w) (spawned w) (now w).

(** ** Exceptions *)

Inductive exn : Type :=
| EOFError
| KeyboardInterrupt
| OSError (e : errno) (p : path)
| ValueError (msg : string)
| TimeoutExpired (cmd : string)
| IndexError
| SubprocessError (msg : string).

(** [isinstance(e, Exception)] *)
Definition is_Exception (e : exn) : bool :=
  match e with KeyboardInterrupt => false | _ => true end.

Definition strerror (e : errno) : string :=
  match e with
  | ENOENT => "[Errno 2] No such file or directory"
  | ENOTDIR => "[Errno 20] Not a directory"
  | EEXIST => "[Errno 17] File exists"
  | EISDIR => "[Errno 21] Is a directory"
  | EBUSY => "[Errno 16] Device or resource busy"
  | ENOTEMPTY => "[Errno 39] Directory not empty"
  | ESAMEFILE => "are the same file"
  end.

(** [str(e)] *)
Definition exn_str (e : exn) : string :=
  match e with
  | EOFError => "EOF when reading a line"
  | KeyboardInterrupt => ""
  | OSError er p => strerror er ++ ": '" ++ str p ++ "'"
  | ValueError msg => msg
  | TimeoutExpired cmd => "Command '" ++ cmd ++ "' timed out"
  | IndexError => "list index out of range"
  | SubprocessError msg => msg
  end.

(** ** The monad: state that survives exceptions *)

Inductive outcome (A : Type) : Type :=
| Return (a : A)
| Raise (e : exn).
Arguments Return {A} a.
Arguments Raise {A} e.

Definition M (A : Type) : Type := state -> outcome A * state.

Definition ret {A : Type} (a : A) : M A := fun st => (Return a, st).

Definition raise {A : Type} (e : exn) : M A := fun st => (Raise e, st).

Definition bind {A B : Type} (m : M A) (k : A -> M B) : M B :=
  fun st =>
    match m st with
    | (Return a, st') => k a st'
    | (Raise e, st') => (Raise e, st')
    end.

Notation "x <- m ;; k" := (bind m (fun x => k))
  (at level 62, m at next level, right associativity).
Notation "m ;;; k" := (bind m (fun _ => k))
  (at level 62, right associativity).

(** [try: body  except ...: handler]; a handler answering [None] lets
    the exception through. *)
Definition try_except {A : Type} (body : M A) (handler : exn -> option (M A)) : M A :=
  fun st =>
    match body st with
    | (Return a, st') => (Return a, st')
    | (Raise e, st') =>
        match handler e with
        | Some h => h st'
        | None => (Raise e, st')
        end
    end.

(** [except Exception as e: return f(e)] *)
Definition except_Exception {A : Type} (f : exn -> A) : exn -> option (M A) :=
  fun e => if is_Exception e then Some (ret (f e)) else None.

Definition get : M state := fun st => (Return st, st).

Definition put_self (a : vibe_agent) : M unit :=
  fun st => (Return tt, mk_state a (env st)).

Definition put_env (w : world) : M unit :=
  fun st => (Return tt, mk_state (self st) w).

(** ** Primitive effects *)

(** The state once the prompt [p] has been shown and a line taken from
    the operator. *)
Definition consume (p : prompt) (st : state) : state :=
  let w := env st in
  mk_state (self st)
    (mk_world (fs w) (os_cwd w) (List.tl (stdin w))
              (asked w ++ [p])%list (spawned w) (now w)).

(** [input(p)]: the prompt is shown, then the next line is read. *)
Definition input (p : prompt) : M string :=
  fun st =>
    match stdin (env st) with
    | line :: _ => (Return line, consume p st)
    | [] => (Raise EOFError, consume p st)
    end.

(** Run a file-system operation on the path [p]. *)
Definition fs_update (op : node -> res node) (p : path) : M unit :=
  fun st =>
    match op (fs (env st)) with
    | Ok f => (Return tt, mk_state (self st) (with_fs (env st) f))
    | Err e => (Raise (OSError e p), st)
    end.

Definition fs_read {A : Type} (op : node -> res A) (p : path) : M A :=
  fun st =>
    match op (fs (env st)) with
    | Ok a => (Return a, st)
    | Err e => (Raise (OSError e p), st)
    end.

(** [shutil.rmtree(p)]: the content of the directory is removed, then
    [os.rmdir(p)] is called on the path as it was given.  When that
    call fails the exception leaves [rmtree] and the directory stays
    behind, emptied. *)
Definition rmtree (p : path) : M unit :=
  fs_update (fun f => _rmtree_safe_fd f p) p ;;;
  fs_update (fun f => os_rmdir f p) p.

(** [os.chdir(p)] *)
Definition os_chdir (p : path) : M unit :=
  fun st =>
    match stat (fs (env st)) p with
    | Ok (q, Dir _) => (Return tt, mk_state (self st) (with_os_cwd (env st) q))
    | Ok (_, File _) => (Raise (OSError ENOTDIR p), st)
    | Err e => (Raise (OSError e p), st)
    end.

Definition digits (n : nat) : string :=
  DecimalString.NilZero.string_of_uint (Nat.to_uint n).

Definition pad2 (n : nat) : string :=
  if (n <? 10)%nat then "0" ++ digits n else digits n.

Definition pad4 (n : nat) : string :=
  if (n <? 10)%nat then "000" ++ digits n
  else if (n <? 100)%nat then "00" ++ digits n
  else if (n <? 1000)%nat then "0" ++ digits n
  else digits n.

(** [strftime("%Y%m%d_%H%M%S")] *)
Definition stamp (d : datetime) : string :=
  pad4 (year d) ++ pad2 (month d) ++ pad2 (day d) ++ "_"
  ++ pad2 (hour d) ++ pad2 (minute d) ++ pad2 (second d).

(** [strftime('%H:%M:%S')] *)
Definition hms (d : datetime) : string :=
  pad2 (hour d) ++ ":" ++ pad2 (minute d) ++ ":" ++ pad2 (second d).

Definition datetime_now : M datetime :=
  fun st => (Return (now (env st)), st).

(* ------------------------------------------------------------------ *)
(** ** Static tables *)

Definition TEMPLATES : list (string * string) :=
  [("vite-react", "npm create vite@latest {name} -- --template react");
   ("vite-react-ts", "npm create vite@latest {name} -- --template react-ts");
   ("vite-vue", "npm create vite@latest {name} -- --template vue");
   ("vite-vue-ts", "npm create vite@latest {name} -- --template vue-ts");
   ("vite-svelte", "npm create vite@latest {name} -- --template svelte");
   ("vite-svelte-ts", "npm create vite@latest {name} -- --template svelte-ts");
   ("next", "npx create-next-app@latest {name} --typescript --tailwind --app --yes");
   ("next-js", "npx create-next-app@latest {name} --javascript --tailwind --app --yes");
   ("next-pages", "npx create-next-app@latest {name} --typescript --tailwind --src-dir --yes");
   ("astro", "npm create astro@latest {name} -- --template minimal --yes --install");
   ("astro-blog", "npm create astro@latest {name} -- --template blog --yes --install");
   ("remix", "npx create-remix@latest {name} --template remix --yes");
   ("react", "npm create vite@latest {name} -- --template react-ts");
   ("vue", "npm create vite@latest {name} -- --template vue-ts");
   ("svelte", "npm create vite@latest {name} -- --template svelte-ts");
   ("nuxt", "npx nuxi@latest init {name}");
   ("expo", "npx create-expo-app@latest {name} --template blank-typescript");
   ("t3", "npm create t3-app@latest {name} -- --noGit");
   ("solid", "npx degit solidjs/templates/ts {name}");
   ("qwik", "npm create qwik@latest {name}")].

(** [template.format(name=project_name)]: every template holds the one
    field [{name}] and no other brace. *)
Definition format_name (template project_name : string) : string :=
  replace template "{name}" project_name.

Module ProjectTemplates.

(** The [for ... else] of the fuzzy match. *)
Fixpoint fuzzy (framework_lower : string) (l : list (string * string)) : option string :=
  match l with
  | [] => None
  | (key, cmd) :: r =>
      if contains key framework_lower || contains framework_lower key
      then Some cmd
      else fuzzy framework_lower r
  end.

Definition get_command (framework project_name options : string) : string :=
  let framework_lower := lower framework in
  let command :=
    match assoc framework_lower TEMPLATES with
    | Some t => format_name t project_name
    | None =>
        match fuzzy framework_lower TEMPLATES with
        | Some cmd => format_name cmd project_name
        | None => "npm create " ++ framework ++ "@latest " ++ project_name ++ " -- --yes"
        end
    end in
  match options with
  | EmptyString => command
  | _ => command ++ " " ++ options
  end.

End ProjectTemplates.

Module PackageManager.

Definition _detect (f : node) (root : path) : string :=
  if exists_ f (joinpath root "bun.lockb") then "bun"
  else if exists_ f (joinpath root "pnpm-lock.yaml") then "pnpm"
  else if exists_ f (joinpath root "yarn.lock") then "yarn"
  else "npm".

Definition get_install_cmd (manager package : string) : string :=
  let cmds := [("npm", "npm install " ++ package);
               ("pnpm", "pnpm add " ++ package);
               ("yarn", "yarn add " ++ package);
               ("bun", "bun add " ++ package)] in
  match assoc manager cmds with
  | Some c => c
  | None => "npm install " ++ package
  end.

End PackageManager.

Module InteractiveCommandFixer.

(** [fix(command)] ([fix] is reserved here): the fixed command and the
    joined warnings.  The warning texts are abbreviated to their ASCII
    part. *)
Definition fix_command (command : string) : string * string :=
  let cmd_lower := lower command in
  let has_yes c := contains c "--yes" || contains c "-y" in
  if contains cmd_lower "create vite" || contains cmd_lower "create-vite" then
    let command :=
      if negb (contains command "--yes") && negb (contains command "-y")
      then replace (replace command "npm create" "npm create --yes")
                   "npx create-vite" "npx --yes create-vite"
      else command in
    if negb (contains command "--template")
    then (command ++ " --template react-ts",
          "Vite detected without --template. Adding default react-ts.")
    else (command, "")
  else if contains cmd_lower "create-next-app" then
    if negb (contains command "--yes") && negb (contains command "-y")
    then (command ++ " --yes", "Next.js detected. Adding --yes flag.")
    else (command, "")
  else if contains cmd_lower "create astro" then
    if negb (contains command "--template")
    then (command ++ " --template minimal --yes",
          "Astro detected. Adding --template minimal.")
    else if negb (contains command "--yes")
    then (command ++ " --yes", "")
    else (command, "")
  else if contains cmd_lower "create-remix" then
    if negb (contains command "--template")
    then (command ++ " --template remix",
          "Remix detected. Consider adding --template flag.")
    else (command, "")
  else if contains cmd_lower "shadcn" then
    if negb (contains command "-y") && negb (contains command "--yes")
    then (command ++ " -y", "")
    else (command, "")
  else if endswith (strip command) "init" then
    if negb (contains command "-y") && negb (contains command "--yes")
    then (command ++ " -y", "Init command detected. Adding -y flag.")
    else (command, "")
  else if any_in cmd_lower ["npm create"; "npx create"; "yarn create"; "pnpm create"] then
    if negb (contains command "--") && negb (contains command "--yes")
    then (command,
          "Interactive create command detected." ++ LF
          ++ "TIP: Use --yes, -y, or --template flags to avoid prompts.")
    else (command, "")
  else (command, "").

End InteractiveCommandFixer.

(* ------------------------------------------------------------------ *)
(** ** [VibeAgent]: context and tree *)

Import FileReader.

Definition IGNORE_LIST : list string :=
  ["node_modules"; ".git"; ".vs"; ".vscode"; ".idea"; "__pycache__";
   "dist"; "build"; "coverage"; ".next"; ".nuxt"; ".output";
   ".vibe"; "package-lock.json"; "pnpm-lock.yaml"; "yarn.lock"; "bun.lockb";
   "Thumbs.db"; ".DS_Store"].

(** The sort key [(not x.is_dir(), x.name.lower())], compared as a tuple. *)
Definition tree_key_le (a b : item) : bool :=
  let fa := negb (is_dir_node (item_node a)) in
  let fb := negb (is_dir_node (item_node b)) in
  if Bool.eqb fa fb
  then String.leb (lower (item_name a)) (lower (item_name b))
  else negb fa.

(** The loop of [_generate_tree] over the filtered items: the entries
    of [output]. *)
Fixpoint tree_lines (prefix : string) (items : list item) : list string :=
  match items with
  | [] => []
  | (nm, n, sub) :: r =>
      let last := is_last r in
      let line := prefix ++ (if last then ELBOW else TEE) ++ nm in
      let below := sub (prefix ++ (if last then BLANK else PIPE)) in
      (line :: (if is_dir_node n then [below] else [])
         ++ tree_lines prefix r)%list
  end.

Fixpoint _generate_tree (n : node) (prefix : string) : string :=
  match n with
  | File _ => EmptyString
  | Dir es =>
      let listed :=
        map (fun e => match e with
                      | (nm, c) => (nm, c, fun pre => _generate_tree c pre)
                      end) es in
      let items := sorted_by tree_key_le listed in
      let filtered_items :=
        filter (fun i =>
                  negb (mem (item_name i) IGNORE_LIST)
                  && negb (startswith (item_name i) "."
                           && negb (mem (item_name i) [".env"; ".gitignore"])))
               items in
      join LF (tree_lines prefix filtered_items)
  end.

(** [self._get_tree_output()], a function of the file system and of
    [self.root_dir]. *)
Definition _get_tree_output (f : node) (root : path) : string :=
  match stat f root with
  | Ok (_, Dir es) =>
      match _generate_tree (Dir es) EmptyString with
      | EmptyString => "(Empty Directory)"
      | tree_str => tree_str
      end
  | Ok (_, File _) =>
      "[Error generating tree: " ++ exn_str (OSError ENOTDIR root) ++ "]"
  | Err e =>
      "[Error generating tree: " ++ exn_str (OSError e root) ++ "]"
  end.

Definition CONTEXT_MARKER : string := "HERE IS THE CURRENT REPO CONTEXT".

(** The text both [_load_initial_context] and [refresh_context] build
    from a scan of the directory [dir]. *)
Definition combined_context (tree_output repo_context : string) : string :=
  "DIRECTORY STRUCTURE:" ++ LF ++ tree_output ++ LF ++ LF
  ++ "FILE CONTENTS:" ++ LF ++ repo_context.

(** Index of the first message that carries the context marker. *)
Fixpoint find_context (msgs : list message) (i : nat) : option nat :=
  match msgs with
  | [] => None
  | m :: r =>
      if String.eqb (role m) "system" && contains (content m) CONTEXT_MARKER
      then Some i
      else find_context r (S i)
  end.

(** [l[i] = x] for an index inside the list. *)
Fixpoint list_set {A : Type} (l : list A) (i : nat) (x : A) : list A :=
  match l, i with
  | [], _ => []
  | _ :: r, O => x :: r
  | y :: r, S j => y :: list_set r j x
  end.

(** [l.insert(i, x)] *)
Fixpoint list_insert {A : Type} (l : list A) (i : nat) (x : A) : list A :=
  match l, i with
  | [], _ => [x]
  | _, O => x :: l
  | y :: r, S j => y :: list_insert r j x
  end.

Definition scrape (dir : path) : M string :=
  fun st =>
    match scrape_contents (fs (env st)) dir with
    | Some text => (Return text, st)
    | None => (Raise (ValueError ("Invalid directory: " ++ str dir)), st)
    end.

Definition refresh_context : M string :=
  try_except
    (st <- get ;;
     new_context <- scrape (root_dir (self st)) ;;
     let tree_output := _get_tree_output (fs (env st)) (root_dir (self st)) in
     let combined := combined_context tree_output new_context in
     let context_index := find_context (messages (self st)) 0 in
     d <- datetime_now ;;
     let new_msg :=
       mk_message "system"
         (CONTEXT_MARKER ++ " (Updated " ++ hms d ++ "):" ++ LF ++ LF ++ combined) in
     put_self (with_messages (self st)
                 match context_index with
                 | Some i => list_set (messages (self st)) i new_msg
                 | None => list_insert (messages (self st)) 1 new_msg
                 end) ;;;
     ret ("SYSTEM: Context refreshed." ++ LF ++ LF
          ++ "Current Structure:" ++ LF ++ tree_output))
    (except_Exception (fun e => "SYSTEM: Error refreshing context: " ++ exn_str e)).

Definition handle_tree : M string :=
  st <- get ;;
  let tree_output := _get_tree_output (fs (env st)) (root_dir (self st)) in
  ret ("SYSTEM: Directory tree:" ++ LF ++ tree_output).

Definition _prune_history : M unit :=
  st <- get ;;
  let msgs := messages (self st) in
  if (MAX_HISTORY_TURNS * 2 <? List.length msgs)%nat
  then
    let system_msgs := firstn 2 msgs in
    let conversation := skipn 2 msgs in
    put_self (with_messages (self st)
                (system_msgs
                 ++ skipn (List.length conversation - MAX_HISTORY_TURNS * 2)
                          conversation)%list)
  else ret tt.

(* ------------------------------------------------------------------ *)
(** ** [VibeAgent]: the command handlers *)

Section Handlers.

(** The host platform, and what the operating system does with a
    spawned process: its result and the file system it leaves. *)
Variable IS_WINDOWS : bool.
Variable os_shell : spawn -> node -> proc * node.

Definition normalize_path := VibeUtils.normalize_path IS_WINDOWS.
Definition is_dangerous := VibeUtils.is_dangerous IS_WINDOWS.
Definition convert_unix_to_windows := VibeUtils.convert_unix_to_windows IS_WINDOWS.

(** [subprocess.run(...)]: the call is logged, the process runs. *)
Definition subprocess_run (sp : spawn) : M (Z * string * string) :=
  fun st =>
    let w := env st in
    let (p, f) := os_shell sp (fs w) in
    let st' := mk_state (self st)
                 (mk_world f (os_cwd w) (stdin w) (asked w)
                           (spawned w ++ [sp])%list (now w)) in
    match p with
    | Completed rc out err => (Return (rc, out, err), st')
    | TimedOut => (Raise (TimeoutExpired (sp_command sp)), st')
    | Interrupted => (Raise KeyboardInterrupt, st')
    | Failed msg => (Raise (SubprocessError msg), st')
    end.

Definition yes_or_y (response : string) : bool := mem response ["y"; "yes"].

Definition handle_listfiles : M string :=
  try_except
    (st <- get ;;
     let cmd := if IS_WINDOWS then "dir /b" else "ls -1" in
     result <- subprocess_run
                 (mk_spawn cmd (Some (current_cwd (self st))) true (Some 10%nat) None) ;;
     match result with
     | (rc, out, err) =>
         if (rc =? 0)%Z
         then ret ("SYSTEM: Files in current directory:" ++ LF ++ out)
         else ret ("SYSTEM: Error listing files: " ++ err)
     end)
    (except_Exception (fun e => "SYSTEM: Error: " ++ exn_str e)).

Definition handle_read (rel_path : string) : M string :=
  let rel_path := normalize_path rel_path in
  st <- get ;;
  let path := resolve (joinpath (root_dir (self st)) rel_path) in
  (* Security check *)
  if negb (startswith (str path) (str (root_dir (self st))))
  then ret "SYSTEM: Error - Access denied. Can only read files inside project root."
  else if negb (exists_ (fs (env st)) path)
  then ret ("SYSTEM: Error - Path " ++ rel_path ++ " does not exist.")
  else
    try_except
      (if is_dir (fs (env st)) path
       then content <- scrape path ;;
            ret ("SYSTEM: Scraped contents of directory '" ++ rel_path ++ "':"
                 ++ LF ++ LF ++ content)
       else content <- fs_read (fun f => read_text f path) path ;;
            ret ("SYSTEM: Content of " ++ rel_path ++ ":" ++ LF ++ content))
      (except_Exception (fun e => "SYSTEM: Read error: " ++ exn_str e)).

Definition handle_cd (target : string) : M string :=
  let target := if IS_WINDOWS then replace target "/" "\" else target in
  st <- get ;;
  let new_path := resolve (joinpath (current_cwd (self st)) target) in
  if negb (exists_ (fs (env st)) new_path)
  then ret ("SYSTEM: Error - Directory '" ++ target ++ "' does not exist.")
  else if negb (is_dir (fs (env st)) new_path)
  then ret ("SYSTEM: Error - '" ++ target ++ "' is not a directory.")
  else
    try_except
      (put_self (with_cwd (self st) new_path) ;;;
       os_chdir new_path ;;;
       refresh_context)
      (except_Exception (fun e => "SYSTEM: Error changing directory: " ++ exn_str e)).

(** The name both WRITE and DELETE give to a backup. *)
Definition backup_name (rel_path ts : string) : string :=
  let safe_name := replace (replace rel_path "/" "_") "\" "_" in
  safe_name ++ "_" ++ ts ++ ".bak".

(** The [try] block of [handle_write]: backup, parent directories,
    content. *)
Definition write_confirmed (backups : path) (rel_path : string) (path : path)
           (existed : bool) (new_content : string) : M string :=
  try_except
    ((if existed
      then d <- datetime_now ;;
           let bak := joinpath backups (backup_name rel_path (stamp d)) in
           fs_update (fun f => copy2 f path bak) path
      else ret tt) ;;;
     fs_update (fun f => mkdir_parents f (parent path)) (parent path) ;;;
     fs_update (fun f => write_text f path new_content) path ;;;
     ret ("SYSTEM: File " ++ rel_path ++ " updated successfully."))
    (except_Exception (fun e => "SYSTEM: Write error: " ++ exn_str e)).

(** The printed diff preview reads the old content and changes nothing;
    it is not part of the model. *)
Definition handle_write (rel_path new_content : string) : M string :=
  let rel_path := normalize_path rel_path in
  st <- get ;;
  let path := joinpath (root_dir (self st)) rel_path in
  let existed := exists_ (fs (env st)) path in
  response <- input AskApplyChanges ;;
  let response := strip (lower response) in
  if negb (yes_or_y response)
  then ret ("SYSTEM: User denied write to " ++ rel_path)
  else write_confirmed (backup_dir (self st)) rel_path path existed new_content.

(** [item_type.capitalize()] for the two values it takes. *)
Definition capitalize_item (item_type : string) : string :=
  if String.eqb item_type "directory" then "Directory" else "File".

(** The [try] block of [handle_delete]: backup of a file, removal. *)
Definition delete_confirmed (backups : path) (rel_path : string) (path : path)
           (is_dir_ : bool) (item_type : string) : M string :=
  try_except
    ((if negb is_dir_
      then d <- datetime_now ;;
           let bak := joinpath backups (backup_name rel_path (stamp d)) in
           fs_update (fun f => copy2 f path bak) path
      else ret tt) ;;;
     (if is_dir_
      then rmtree path
      else fs_update (fun f => unlink f path) path) ;;;
     ret ("SYSTEM: " ++ capitalize_item item_type ++ " " ++ rel_path
          ++ " deleted successfully."))
    (except_Exception (fun e => "SYSTEM: Delete error: " ++ exn_str e)).

Definition handle_delete (rel_path : string) : M string :=
  let rel_path := normalize_path rel_path in
  st <- get ;;
  let path := joinpath (root_dir (self st)) rel_path in
  if negb (exists_ (fs (env st)) path)
  then ret ("SYSTEM: Error - Path " ++ rel_path ++ " does not exist.")
  else
    let is_dir_ := is_dir (fs (env st)) path in
    let item_type := if is_dir_ then "directory" else "file" in
    response <- input (AskDelete item_type) ;;
    let response := strip (lower response) in
    if negb (yes_or_y response)
    then ret ("SYSTEM: User denied delete of " ++ rel_path)
    else delete_confirmed (backup_dir (self st)) rel_path path is_dir_ item_type.

(* ------------------------------------------------------------------ *)
(** ** [handle_run] *)

Definition DQ : string := String (ascii_of_nat 34) EmptyString.

(** Step 3, the Windows rewrite of [rm -r...]. *)
Definition windows_rm_fix (command : string) : string :=
  if IS_WINDOWS && startswith (strip command) "rm -" then
    if contains command "-r" || contains command "-rf" then
      let parts := split command in
      let target_part := last parts EmptyString in
      if endswith target_part "*" || endswith target_part "/"
         || endswith target_part "\"
      then
        let clean_target := replace target_part "/" "\" in
        let clean_target :=
          if negb (endswith clean_target "*") then clean_target ++ "*"
          else clean_target in
        "del /s /q " ++ clean_target
      else "rmdir /s /q " ++ replace target_part "/" "\"
    else command
  else command.

Definition is_create_cmd (command : string) : bool :=
  any_in (lower command)
    ["npm create"; "npx create"; "yarn create"; "pnpm create";
     "npm init"; "yarn init"; "pnpm init"].

(** Steps 2 to 4: the value of [command] when the guards are reached. *)
Definition prepare (command : string) : string :=
  let command := convert_unix_to_windows command in
  let command := windows_rm_fix command in
  if is_create_cmd command
  then fst (InteractiveCommandFixer.fix_command command)
  else command.

Definition server_patterns : list string :=
  ["npm run dev"; "npm start"; "yarn dev"; "yarn start";
   "pnpm dev"; "pnpm start"; "bun dev"; "bun run dev";
   "python manage.py runserver"; "uvicorn"; "nodemon"].

Definition is_server_cmd (command : string) : bool :=
  any_in (lower command) server_patterns.

Definition Z_str (z : Z) : string :=
  DecimalString.NilZero.string_of_int (Z.to_int z).

(** The arguments of the [subprocess.run] of step 7:
    [shell=True, cwd=self.current_cwd, capture_output=True, text=True,
    timeout=300, input="y\n"]. *)
Definition execution_spawn (cwd : path) (command : string) : spawn :=
  mk_spawn command (Some cwd) true (Some 300%nat) (Some ("y" ++ LF)).

(** The arguments of the [subprocess.run] of the server guard:
    [full_cmd, shell=True] and nothing else. *)
Definition new_window_spawn (cwd : path) (command : string) : spawn :=
  let full_cmd :=
    "start " ++ DQ ++ command ++ DQ ++ " cmd /k " ++ DQ ++ "cd /d "
    ++ str cwd ++ " && " ++ command ++ DQ in
  mk_spawn full_cmd None false None None.

(** Step 7: execution. *)
Definition run_execute (command : string) : M string :=
  try_except
    (st <- get ;;
     res <- subprocess_run (execution_spawn (current_cwd (self st)) command) ;;
     match res with
     | (rc, out, err) =>
         ret ("SYSTEM: Code: " ++ Z_str rc ++ LF ++ "Out: " ++ out ++ LF
              ++ "Err: " ++ err)
     end)
    (fun e =>
       match e with
       | TimeoutExpired _ => Some (ret "SYSTEM: Command timeout (5 minutes)")
       | KeyboardInterrupt => Some (ret "SYSTEM: User stopped the command (Ctrl+C).")
       | _ => Some (ret ("SYSTEM: Error: " ++ exn_str e))
       end).

(** Step 6: the yes/no confirmation, asked for non-server commands. *)
Definition run_confirm (command : string) (is_server : bool) : M string :=
  if negb is_server
  then response <- input AskExecute ;;
       let response := strip (lower response) in
       if negb (yes_or_y response)
       then ret "SYSTEM: User denied command execution."
       else run_execute command
  else run_execute command.

(** Step 5: the safety check. *)
Definition run_safety (command : string) (is_server : bool) : M string :=
  if is_dangerous command
  then confirm <- input AskDangerous ;;
       let confirm := strip confirm in
       if negb (String.eqb confirm "confirm")
       then ret "SYSTEM: Blocked dangerous command."
       else run_confirm command is_server
  else run_confirm command is_server.

(** Server guard, option B: run in the current window. *)
Definition run_server_here (command : string) : M string :=
  confirm <- input AskRunHereAnyway ;;
  let confirm := strip (lower confirm) in
  if negb (yes_or_y confirm)
  then ret ("SYSTEM: Skipped '" ++ command
            ++ "' to prevent freezing. User will run it manually.")
  else run_safety command true.

(** Server guard, option A: a new window on Windows. *)
Definition run_server_guard (command : string) : M string :=
  if IS_WINDOWS
  then response <- input AskLaunchInNewWindow ;;
       let response := strip (lower response) in
       if mem response [""; "y"; "yes"]
       then st <- get ;;
            subprocess_run (new_window_spawn (current_cwd (self st)) command) ;;;
            ret ("SYSTEM: Successfully launched '" ++ command
                 ++ "' in a new background window. The server is now running.")
       else run_server_here command
  else run_server_here command.

(** Step 1: [cd] is handled in the agent. *)
Definition run_cd (command : string) : M string :=
  match split1 (strip command) " "%char with
  | [_; target] =>
      let target := if IS_WINDOWS then replace target "/" "\" else target in
      st <- get ;;
      let new_path := resolve (joinpath (current_cwd (self st)) target) in
      if exists_ (fs (env st)) new_path && is_dir (fs (env st)) new_path
      then put_self (with_cwd (self st) new_path) ;;;
           ret ("SYSTEM: Directory changed to " ++ str new_path)
      else ret ("SYSTEM: Error - Directory " ++ target ++ " not found.")
  | _ => raise IndexError
  end.

Definition handle_run (command : string) : M string :=
  if startswith (strip command) "cd "
  then run_cd command
  else
    let command := prepare command in
    let is_server := is_server_cmd command in
    if is_server
    then run_server_guard command
    else run_safety command false.

Definition handle_install (manager pkg : string) : M string :=
  st <- get ;;
  handle_run (PackageManager.get_install_cmd (pkg_manager (self st)) pkg).

Definition handle_create (framework project_name options : string) : M string :=
  let command := ProjectTemplates.get_command framework project_name options in
  match command with
  | EmptyString => ret ("SYSTEM: Error - Unknown framework '" ++ framework ++ "'")
  | _ =>
      result <- handle_run command ;;
      st <- get ;;
      let new_project_path := joinpath (current_cwd (self st)) project_name in
      if exists_ (fs (env st)) new_project_path
         && is_dir (fs (env st)) new_project_path
      then cd_result <- handle_cd project_name ;;
           ret (result ++ LF ++ LF
                ++ "SYSTEM: Automatically entered new project directory."
                ++ LF ++ cd_result)
      else ret result
  end.

Definition handle_shadcn (component : string) : M string :=
  handle_run ("npx shadcn@latest add " ++ component ++ " -y").

(* ------------------------------------------------------------------ *)
(** ** [process_tool_calls] *)

(** One handler call made by [process_tool_calls], arguments as they
    are handed over. *)
Inductive call : Type :=
| CallRead (path : string)
| CallTree
| CallListFiles
| CallWrite (path content : string)
| CallCd (path : string)
| CallDelete (path : string)
| CallRun (cmd : string)
| CallInstall (mgr pkg : string)
| CallCreate (framework project_name options : string)
| CallShadcn (comp : string)
| CallRefresh.

Definition group (i : nat) (m : list string) : string := nth i m EmptyString.

(** The handler calls in the order in which the eleven loops of
    [process_tool_calls] make them.  [findall] reads only
    [response_text], which no handler changes, so the searches are
    written ahead of the calls. *)
Definition planned_calls (response_text : string) : list call :=
  (map (fun m => CallRead (strip (group 0 m))) (Regex.findall Regex.P_READ response_text)
   ++ map (fun _ => CallTree) (Regex.findall Regex.P_TREE response_text)
   ++ map (fun _ => CallListFiles) (Regex.findall Regex.P_LISTFILES response_text)
   ++ map (fun m => CallWrite (strip (group 0 m)) (strip (group 1 m)))
          (Regex.findall Regex.P_WRITE response_text)
   ++ map (fun m => CallCd (strip (group 0 m))) (Regex.findall Regex.P_CD response_text)
   ++ map (fun m => CallDelete (strip (group 0 m))) (Regex.findall Regex.P_DELETE response_text)
   ++ map (fun m => CallRun (strip (group 0 m))) (Regex.findall Regex.P_RUN response_text)
   ++ map (fun m => CallInstall (strip (group 0 m)) (strip (group 1 m)))
          (Regex.findall Regex.P_INSTALL response_text)
   ++ map (fun m => CallCreate (strip (group 0 m)) (strip (group 1 m))
                               (strip (group 2 m)))
          (Regex.findall Regex.P_CREATE response_text)
   ++ map (fun m => CallShadcn (strip (group 0 m))) (Regex.findall Regex.P_SHADCN response_text)
   ++ map (fun _ => CallRefresh) (Regex.findall Regex.P_REFRESH response_text))%list.

Definition dispatch (c : call) : M string :=
  match c with
  | CallRead path => handle_read path
  | CallTree => handle_tree
  | CallListFiles => handle_listfiles
  | CallWrite path content => handle_write path content
  | CallCd path => handle_cd path
  | CallDelete path => handle_delete path
  | CallRun cmd => handle_run cmd
  | CallInstall mgr pkg => handle_install mgr pkg
  | CallCreate framework project_name options =>
      handle_create framework project_name options
  | CallShadcn comp => handle_shadcn comp
  | CallRefresh => refresh_context
  end.

(** [feedback.append(handler(...))] for each call in turn. *)
Fixpoint run_calls (calls : list call) : M (list string) :=
  match calls with
  | [] => ret []
  | c :: later =>
      r <- dispatch c ;;
      rs <- run_calls later ;;
      ret (r :: rs)
  end.

Definition process_tool_calls (response_text : string) : M (list string * bool) :=
  let calls := planned_calls response_text in
  feedback <- run_calls calls ;;
  ret (feedback, negb (is_last calls)).

End Handlers.

End Agent.

(* ================================================================== *)
(** * Predicates used in the statements *)
(* ================================================================== *)

Module Props.
Import PyStr.
Local Open Scope string_scope.

(** [a] occurs in [s]. *)
Definition Sub (a s : string) : Prop :=
  exists pre post, s = pre ++ a ++ post.

Fixpoint all_space (s : string) : bool :=
  match s with
  | EmptyString => true
  | String c r => isspace c && all_space r
  end.

Fixpoint no_space (s : string) : bool :=
  match s with
  | EmptyString => true
  | String c r => negb (isspace c) && no_space r
  end.

(** [rest] is empty or begins with a whitespace character. *)
Definition at_boundary (rest : string) : Prop :=
  rest = EmptyString \/ exists c r, rest = String c r /\ isspace c = true.

(** [t] is the first whitespace-separated token of [s]. *)
Definition LeadingToken (s t : string) : Prop :=
  exists ws rest,
    s = ws ++ t ++ rest /\ all_space ws = true /\ t <> EmptyString
    /\ no_space t = true /\ at_boundary rest.

(** What [is_dangerous] accepts, stated on the text of the command. *)
Definition Dangerous (IS_WINDOWS : bool) (command : string) : Prop :=
  (exists t, LeadingToken (lower command) t /\ In t DANGEROUS_COMMANDS)
  \/ (Sub "rm" command /\ (Sub "-r" command \/ Sub "/ " command))
  \/ (IS_WINDOWS = true
      /\ (Sub "del" command \/ Sub "rmdir" command \/ Sub "rd" command)
      /\ Sub "/s" command
      /\ (Sub "c:\" (lower command) \/ Sub "d:\" (lower command))).

(** Between the states [st] and [st'] the prompt [p] was shown and the
    operator answered it with [line]: the [k]-th prompt added to the log
    took the [k]-th pending line. *)
Definition answered (st st' : Agent.state) (p : Agent.prompt) (line : string) : Prop :=
  exists k,
    nth_error (Agent.asked (Agent.env st'))
              (List.length (Agent.asked (Agent.env st)) + k) = Some p
    /\ nth_error (Agent.stdin (Agent.env st)) k = Some line.

(** The prompt [p] was shown before the prompt [q]. *)
Definition asked_before (st st' : Agent.state) (p q : Agent.prompt) : Prop :=
  exists j k,
    j < k
    /\ nth_error (Agent.asked (Agent.env st'))
                 (List.length (Agent.asked (Agent.env st)) + j) = Some p
    /\ nth_error (Agent.asked (Agent.env st'))
                 (List.length (Agent.asked (Agent.env st)) + k) = Some q.

(** The only processes a step of [handle_run] may add to the log: none,
    the execution of step 7, or the new window of the server guard. *)
Definition adds_only (IS_WINDOWS : bool) (c : string) (st st' : Agent.state) : Prop :=
  Agent.spawned (Agent.env st') = Agent.spawned (Agent.env st)
  \/ Agent.spawned (Agent.env st')
     = (Agent.spawned (Agent.env st)
        ++ [Agent.execution_spawn (Agent.current_cwd (Agent.self st)) c])%list
  \/ (IS_WINDOWS = true /\ Agent.is_server_cmd c = true
      /\ Agent.spawned (Agent.env st')
         = (Agent.spawned (Agent.env st)
            ++ [Agent.new_window_spawn (Agent.current_cwd (Agent.self st)) c])%list).

(** The context entry that a refresh at time [d] builds from a scan of
    the directory [dir]. *)
Definition context_entry_of (f : Fs.node) (dir : Fs.path) (d : Agent.datetime)
  : option Agent.message :=
  match FileReader.scrape_contents f dir with
  | Some text =>
      Some (Agent.mk_message "system"
              (Agent.CONTEXT_MARKER ++ " (Updated " ++ Agent.hms d ++ "):"
               ++ Agent.LF ++ Agent.LF
               ++ Agent.combined_context (Agent._get_tree_output f dir) text))
  | None => None
  end.

(** The message list after the context entry [entry] has been stored. *)
Definition with_context (msgs : list Agent.message) (entry : Agent.message)
  : list Agent.message :=
  match Agent.find_context msgs 0 with
  | Some i => Agent.list_set msgs i entry
  | None => Agent.list_insert msgs 1 entry
  end.

(** At no position of [b] does the marker [m] begin, in [b] followed by
    [tail]. *)
Fixpoint marker_free (m b tail : string) : bool :=
  match b with
  | EmptyString => true
  | String _ b' => negb (startswith (b ++ tail) m) && marker_free m b' tail
  end.

(** [s] is empty or begins with a character that is not whitespace. *)
Definition starts_nonspace (s : string) : bool :=
  match s with
  | EmptyString => true
  | String c _ => negb (isspace c)
  end.

(** [s] is empty or ends with a character that is not whitespace. *)
Fixpoint ends_nonspace (s : string) : bool :=
  match s with
  | EmptyString => true
  | String c r =>
      match r with
      | EmptyString => negb (isspace c)
      | String _ _ => ends_nonspace r
      end
  end.

(** The verbs that only gather context. *)
Definition gathers_context (c : Agent.call) : bool :=
  match c with
  | Agent.CallRead _ | Agent.CallTree | Agent.CallListFiles => true
  | _ => false
  end.


(** ** Comparing two disks *)

(** Two nodes found at the same place are of the same kind, files with
    the same content. *)
Definition alike (a b : option Fs.node) : Prop :=
  match a, b with
  | None, None => True
  | Some (Fs.File c), Some (Fs.File c') => c = c'
  | Some (Fs.Dir _), Some (Fs.Dir _) => True
  | _, _ => False
  end.

Definition not_a_dir (a : option Fs.node) : Prop :=
  match a with
  | Some (Fs.Dir _) => False
  | _ => True
  end.

(** Every directory of [f] is still a directory in [f']. *)
Definition dirs_kept (f f' : Fs.node) : Prop :=
  forall x es, Fs.lookup f x = Some (Fs.Dir es) ->
               exists es', Fs.lookup f' x = Some (Fs.Dir es').

(** ** Directories made on the way to a new file *)

(** No component of [p] is [..]. *)
Definition plain (p : Fs.path) : bool :=
  forallb (fun c => negb (String.eqb c "..")) p.

(** Following [p] from [n] one meets directories only, as far as [p]
    or the names on disk go. *)
Fixpoint clear_way (n : Fs.node) (p : Fs.path) : bool :=
  match n with
  | Fs.File _ => false
  | Fs.Dir es =>
      match p with
      | [] => true
      | x :: p' =>
          match Fs.find_entry x es with
          | Some c => clear_way c p'
          | None => true
          end
      end
  end.

Fixpoint prefix_of (x q : Fs.path) : bool :=
  match x, q with
  | [], _ => true
  | a :: x', b :: q' => String.eqb a b && prefix_of x' q'
  | _ :: _, [] => false
  end.

(** ** What a path passes on its way *)

(** [x] lies inside the directory [q]: below it, [q] itself apart. *)
Definition inside (q x : Fs.path) : bool :=
  prefix_of q x && (List.length q <? List.length x)%nat.

(** The places at which a directory must be found while [comps] is
    followed from [cur]: the ones [Fs.walk] looks up, in its order. *)
Fixpoint visits (cur : Fs.path) (comps : list string) : list Fs.path :=
  match comps with
  | [] => []
  | c :: rest =>
      cur :: visits (if String.eqb c ".." then removelast cur
                     else (cur ++ [c])%list) rest
  end.

(** On its way from the root the path [p] passes a place inside [q]. *)
Definition passes_inside (q p : Fs.path) : bool :=
  existsb (inside q) (visits [] p).

(** A file, or an empty directory. *)
Definition leaf (v : Fs.node) : bool :=
  match v with
  | Fs.File _ => true
  | Fs.Dir [] => true
  | Fs.Dir (_ :: _) => false
  end.

(** [f'] is [f] with, at most, new directories on the way to [d]: at
    every place the two disks are alike, or there was nothing and
    there is now a directory leading to [d]. *)
Definition grown (f f' : Fs.node) (d : Fs.path) : Prop :=
  forall x,
    alike (Fs.lookup f x) (Fs.lookup f' x)
    \/ (Fs.lookup f x = None /\ prefix_of x d = true
        /\ exists es, Fs.lookup f' x = Some (Fs.Dir es)).

(** ** Characters of a name *)

(** [c] occurs in [s]. *)
Fixpoint has_char (c : ascii) (s : string) : bool :=
  match s with
  | EmptyString => false
  | String a r => Ascii.eqb a c || has_char c r
  end.


(** Every [a] replaced by [b]. *)
Fixpoint subst_char (a b : ascii) (s : string) : string :=
  match s with
  | EmptyString => EmptyString
  | String c r => String (if Ascii.eqb c a then b else c) (subst_char a b r)
  end.

End Props.

(** The danger classification as the specification words it: the leading
    token is on the denylist, or a recursive-delete idiom comes with a
    root-level or wildcard target. *)
Module SafetySpec.
Import PyStr.
Local Open Scope string_scope.

Definition delete_verbs : list string := ["rm"; "rmdir"; "rd"; "del"; "erase"].

Definition recursive_flag (t : string) : bool :=
  mem t ["-r"; "-R"; "-rf"; "-fr"; "-Rf"; "-fR"; "--recursive"; "/s"; "/S"].

Definition root_or_wildcard (t : string) : bool :=
  String.eqb t "/" || String.eqb t "\" || contains t "*"
  || endswith (lower t) ":\" || endswith (lower t) ":/".

Definition recursive_delete_idiom (tokens : list string) : bool :=
  existsb (fun t => mem (lower t) delete_verbs) tokens
  && existsb recursive_flag tokens.

Definition dangerous_by_spec (command : string) : bool :=
  match split command with
  | [] => false
  | t0 :: rest =>
      mem (lower t0) DANGEROUS_COMMANDS
      || (recursive_delete_idiom (t0 :: rest)
          && existsb root_or_wildcard (t0 :: rest))
  end.

End SafetySpec.

(** A small project used by the examples: [/proj] holds a file, a
    subdirectory and the backup directory that [__init__] makes; beside
    it lie a directory whose name starts like the root's and a system
    file. *)
Module Scenario.
Import Fs Agent.
Local Open Scope string_scope.

Definition disk : node :=
  Dir [("proj",
        Dir [("a.txt", File "foo");
             ("sub", Dir [("b.txt", File "bar")]);
             (".vibe", Dir [("backups", Dir [])])]);
       ("proj-old", Dir [("secret.txt", File "hunter2")]);
       ("etc", Dir [("passwd", File "root")])].

(** A project whose files [a/b.txt] and [a_b.txt] differ only by the
    separator. *)
Definition disk_ab : node :=
  Dir [("proj",
        Dir [("a", Dir [("b.txt", File "one")]);
             ("a_b.txt", File "two");
             (".vibe", Dir [("backups", Dir [])])])].


Definition agent0 : vibe_agent :=
  mk_agent ["proj"] ["proj"] ["proj"; ".vibe"; "backups"] "npm"
           [mk_message "system" "SYSTEM_INSTRUCTION"].

Definition clock : datetime := mk_datetime 2026 11 4 9 30 0.

(** The agent right after [__init__], with the lines the operator is
    going to type. *)
Definition start (typed : list string) : state :=
  mk_state agent0 (mk_world disk ["proj"] typed [] [] clock).

(** The same project on another disk. *)
Definition start_on (d : node) (typed : list string) : state :=
  mk_state agent0 (mk_world d ["proj"] typed [] [] clock).

(** A shell whose commands succeed silently and change nothing. *)
Definition quiet_shell : spawn -> node -> proc * node :=
  fun _ f => (Completed 0 "" "", f).

End Scenario.

(* ================================================================== *)
(** * The context loaded at start-up *)
(* ================================================================== *)

Module Startup.
Import PyStr Fs FileReader Agent.
Local Open Scope string_scope.

(** [self._load_initial_context()]: the scan of the project root is
    appended to the history as a system message; a failure is reported
    on the terminal and otherwise ignored. *)
Definition _load_initial_context : M unit :=
  try_except
    (st <- get ;;
     repo_context <- scrape (root_dir (self st)) ;;
     let tree_output := _get_tree_output (fs (env st)) (root_dir (self st)) in
     let combined := combined_context tree_output repo_context in
     put_self (with_messages (self st)
                 (messages (self st)
                  ++ [mk_message "system"
                        (CONTEXT_MARKER ++ ":" ++ LF ++ LF ++ combined)])%list))
    (except_Exception (fun _ => tt)).

End Startup.

(* ================================================================== *)
(** * Further predicates used in the statements *)
(* ================================================================== *)

Module Frame.
Import PyStr Fs Agent.
Local Open Scope string_scope.

(** The message [m] carries the context marker, as [refresh_context]
    tests it. *)
Definition is_context (m : message) : bool :=
  String.eqb (role m) "system" && contains (content m) CONTEXT_MARKER.

(** The state [st] with the agent standing in the directory [cwd]. *)
Definition at_cwd (st : state) (cwd : path) : state :=
  mk_state (with_cwd (self st) cwd) (env st).

(** The handler [m] does not look at [current_cwd]: from a state that
    differs in it only, it gives the same result and the same state,
    [current_cwd] apart. *)
Definition cwd_blind {A : Type} (m : M A) : Prop :=
  forall st cwd,
    m (at_cwd st cwd) = (fst (m st), at_cwd (snd (m st)) cwd).

(** Nothing but the log of prompts and the pending input differs
    between [st] and [st']. *)
Definition only_asked (st st' : state) : Prop :=
  self st' = self st
  /\ fs (env st') = fs (env st)
  /\ os_cwd (env st') = os_cwd (env st)
  /\ spawned (env st') = spawned (env st)
  /\ now (env st') = now (env st).

End Frame.

(* ================================================================== *)
(** * Facts about the string primitives *)
(* ================================================================== *)

Module StrFacts.
Import PyStr Props.
Local Open Scope string_scope.

Lemma append_nil_r (s : string) : s ++ "" = s.
Proof. induction s; simpl; congruence. Qed.

Lemma append_assoc (a b c : string) : (a ++ b) ++ c = a ++ b ++ c.
Proof. induction a; simpl; congruence. Qed.

Lemma length_append (a b : string) :
  String.length (a ++ b) = String.length a + String.length b.
Proof. induction a; simpl; congruence. Qed.

Lemma startswith_append (p r : string) : startswith (p ++ r) p = true.
Proof.
  induction p as [|a p IH]; simpl; [reflexivity|].
  now rewrite Ascii.eqb_refl.
Qed.

Lemma startswith_inv (s p : string) :
  startswith s p = true -> exists r, s = p ++ r.
Proof.
  revert s; induction p as [|a p IH]; intros s H.
  - now exists s.
  - destruct s as [|b s]; simpl in H; [discriminate|].
    apply andb_true_iff in H as [Hab Hs].
    apply Ascii.eqb_eq in Hab; subst b.
    destruct (IH _ Hs) as [r ->]. now exists r.
Qed.

Lemma startswith_iff (s p : string) :
  startswith s p = true <-> exists r, s = p ++ r.
Proof.
  split; [apply startswith_inv|].
  intros [r ->]; apply startswith_append.
Qed.

Lemma contains_iff (s a : string) : contains s a = true <-> Sub a s.
Proof.
  split.
  - induction s as [|c s IH]; simpl; intros H.
    + rewrite orb_false_r in H. apply startswith_inv in H as [r Hr].
      now exists "", r.
    + apply orb_true_iff in H as [H|H].
      * apply startswith_inv in H as [r Hr]. now exists "", r.
      * destruct (IH H) as (pre & post & Hs).
        exists (String c pre), post. simpl. now rewrite Hs.
  - intros (pre & post & Hs). subst s.
    induction pre as [|c pre IH].
    + change ("" ++ a ++ post) with (a ++ post).
      destruct (a ++ post) eqn:E; simpl; rewrite <- E;
        rewrite startswith_append; reflexivity.
    + simpl. simpl in IH. rewrite IH. apply orb_true_r.
Qed.

Lemma contains_false_iff (s a : string) : contains s a = false <-> ~ Sub a s.
Proof.
  rewrite <- contains_iff. destruct (contains s a); split; intros;
    congruence.
Qed.

Lemma mem_iff (x : string) (l : list string) : mem x l = true <-> In x l.
Proof.
  unfold mem. rewrite existsb_exists. split.
  - intros (y & Hy & E). apply String.eqb_eq in E. now subst.
  - intros H. exists x. split; [assumption|apply String.eqb_refl].
Qed.

(** [lower] keeps whitespace where it is. *)
Lemma isspace_lower_char (c : ascii) : isspace (lower_char c) = isspace c.
Proof.
  destruct c as [[] [] [] [] [] [] [] []]; reflexivity.
Qed.

Lemma all_space_lower (s : string) : all_space (lower s) = all_space s.
Proof.
  induction s as [|c s IH]; simpl; [reflexivity|].
  now rewrite isspace_lower_char, IH.
Qed.

Lemma all_space_append (a b : string) :
  all_space (a ++ b) = all_space a && all_space b.
Proof.
  induction a as [|c a IH]; simpl; [reflexivity|].
  now rewrite IH, andb_assoc.
Qed.

Lemma no_space_append (a b : string) :
  no_space (a ++ b) = no_space a && no_space b.
Proof.
  induction a as [|c a IH]; simpl; [reflexivity|].
  now rewrite IH, andb_assoc.
Qed.

(** ** [split] *)

Lemma split_from_spaces (ws s : string) :
  all_space ws = true -> split_from (ws ++ s) "" = split_from s "".
Proof.
  induction ws as [|c ws IH]; simpl; intros H; [reflexivity|].
  apply andb_true_iff in H as [Hc Hws]. rewrite Hc. auto.
Qed.

Lemma split_from_token (t s tok : string) :
  no_space t = true -> split_from (t ++ s) tok = split_from s (tok ++ t).
Proof.
  revert tok; induction t as [|c t IH]; simpl; intros tok H.
  - now rewrite append_nil_r.
  - apply andb_true_iff in H as [Hc Ht].
    apply negb_true_iff in Hc. rewrite Hc, IH by assumption.
    now rewrite append_assoc.
Qed.

Lemma split_from_boundary (rest tok : string) :
  tok <> "" -> at_boundary rest ->
  exists l, split_from rest tok = tok :: l.
Proof.
  intros Ht [->|(c & r & -> & Hc)]; simpl.
  - destruct tok; [congruence|]. now exists [].
  - rewrite Hc. destruct tok; [congruence|]. eauto.
Qed.

Lemma split_leading (s t : string) :
  LeadingToken s t -> exists l, split s = t :: l.
Proof.
  intros (ws & rest & -> & Hws & Ht & Hns & Hb).
  unfold split. rewrite split_from_spaces by assumption.
  rewrite split_from_token by assumption. simpl.
  now apply split_from_boundary.
Qed.

Lemma split_from_head (s tok t : string) (l : list string) :
  split_from s tok = t :: l -> no_space tok = true ->
  exists ws u rest,
    s = ws ++ u ++ rest /\ t = tok ++ u /\ no_space u = true
    /\ all_space ws = true /\ (tok <> "" -> ws = "")
    /\ at_boundary rest /\ t <> "".
Proof.
  revert tok; induction s as [|c s IH]; simpl; intros tok H Htok.
  - destruct tok as [|a tok]; [discriminate|]. inversion H; subst.
    exists "", "", "". simpl. rewrite append_nil_r.
    split; [reflexivity|]. split; [reflexivity|]. split; [reflexivity|].
    split; [reflexivity|]. split; [reflexivity|].
    split; [now left|discriminate].
  - destruct (isspace c) eqn:Hc.
    + destruct tok as [|a tok].
      * destruct (IH _ H eq_refl)
          as (ws & u & rest & Es & Et & Hu & Hws & _ & Hb & Hne).
        exists (String c ws), u, rest. simpl. rewrite Hc, <- Es.
        split; [reflexivity|]. split; [exact Et|]. split; [exact Hu|].
        split; [exact Hws|]. split; [congruence|]. split; assumption.
      * inversion H; subst.
        exists "", "", (String c s). simpl. rewrite append_nil_r.
        split; [reflexivity|]. split; [reflexivity|]. split; [reflexivity|].
        split; [reflexivity|]. split; [reflexivity|].
        split; [right; eauto|discriminate].
    + assert (Htok' : no_space (tok ++ String c "") = true).
      { rewrite no_space_append, Htok. simpl. now rewrite Hc. }
      destruct (IH _ H Htok')
        as (ws & u & rest & Es & Et & Hu & Hws & Hnil & Hb & Hne).
      assert (Ews : ws = "") by (apply Hnil; destruct tok; discriminate).
      subst ws. simpl in Es.
      exists "", (String c u), rest. simpl. rewrite Hc, Hu, <- Es.
      rewrite append_assoc in Et.
      split; [reflexivity|]. split; [exact Et|]. split; [reflexivity|].
      split; [reflexivity|]. split; [reflexivity|]. split; assumption.
Qed.

Lemma leading_split (s t : string) (l : list string) :
  split s = t :: l -> LeadingToken s t.
Proof.
  intros H. destruct (split_from_head _ _ _ _ H eq_refl)
    as (ws & u & rest & Es & Et & Hu & Hws & _ & Hb & Hne).
  simpl in Et. subst t. exists ws, rest.
  split; [exact Es|]. split; [exact Hws|]. split; [exact Hne|].
  split; assumption.
Qed.

Lemma split_nil_iff (s : string) : split s = [] <-> all_space s = true.
Proof.
  unfold split. split.
  - induction s as [|c s IH]; simpl; [reflexivity|].
    destruct (isspace c) eqn:Hc; simpl; [exact IH|].
    intros H. exfalso.
    assert (G : forall r tok, tok <> "" -> split_from r tok <> []).
    { clear. induction r as [|a r IHr]; simpl; intros tok Ht.
      - destruct tok; congruence.
      - destruct (isspace a).
        + destruct tok; congruence.
        + apply IHr. destruct tok; discriminate. }
    now apply (G s (String c "")).
  - intros H. rewrite <- (append_nil_r s).
    now rewrite split_from_spaces.
Qed.

Lemma Sub_not_all_space (a s : string) :
  Sub a s -> all_space a = false -> all_space s = false.
Proof.
  intros (pre & post & ->) Ha.
  rewrite !all_space_append, Ha. simpl. apply andb_false_r.
Qed.

End StrFacts.

(* ================================================================== *)
(** * The safety gate's classification *)
(* ================================================================== *)

Module SafetyGate.
Import PyStr Props StrFacts.
Local Open Scope string_scope.

Lemma contains_true (s a : string) : Sub a s -> contains s a = true.
Proof. apply contains_iff. Qed.

Lemma split_lower_nonempty (a command : string) :
  Sub a command -> all_space a = false -> split (lower command) <> [].
Proof.
  intros Hs Ha E. apply split_nil_iff in E.
  rewrite all_space_lower in E.
  now rewrite (Sub_not_all_space _ _ Hs Ha) in E.
Qed.

(** C6, as stated, fails: a command whose leading token is not on the
    denylist and that deletes nothing is classified dangerous, because
    the text contains [rm] (in [format]) and [-r] (in [--reporter]). *)
Lemma C6_counterexample :
  VibeUtils.is_dangerous false "npm run format -- --reporter=dot" = true
  /\ SafetySpec.dangerous_by_spec "npm run format -- --reporter=dot" = false.
Proof. split; vm_compute; reflexivity. Qed.

(** C6, as amended: [is_dangerous] returns [True] exactly when the first
    whitespace-separated token of the lower-cased command is in
    [DANGEROUS_COMMANDS], or the command text contains [rm] together
    with [-r] or with a slash followed by a space, or, on Windows, it
    contains [del], [rmdir] or [rd] together with [/s] and a [c:\] or
    [d:\] drive root; in every other case it returns [False]. *)
Theorem C6_is_dangerous_iff (IS_WINDOWS : bool) (command : string) :
  VibeUtils.is_dangerous IS_WINDOWS command = true
  <-> Dangerous IS_WINDOWS command.
Proof.
  unfold VibeUtils.is_dangerous, Dangerous.
  destruct (split (lower command)) as [|p0 l] eqn:E.
  - split; [discriminate|].
    intros [(t & Ht & _)|[(Hrm & _)|(_ & _ & Hs & _)]]; exfalso.
    + apply split_leading in Ht as [l' Hl]. congruence.
    + now apply (split_lower_nonempty "rm" command).
    + now apply (split_lower_nonempty "/s" command).
  - split.
    + intros H.
      destruct (mem p0 DANGEROUS_COMMANDS) eqn:M.
      { left. exists p0. split; [now apply (leading_split _ _ l)|].
        now apply mem_iff. }
      destruct (contains command "rm"
                && (contains command "-r" || contains command "/ ")) eqn:R.
      { right; left. apply andb_true_iff in R as [R1 R2].
        apply orb_true_iff in R2. apply contains_iff in R1.
        split; [exact R1|].
        destruct R2 as [D|D]; apply contains_iff in D; tauto. }
      right; right.
      destruct (IS_WINDOWS
                && (contains command "del" || contains command "rmdir"
                    || contains command "rd")) eqn:W; [|discriminate].
      destruct (contains command "/s"
                && (contains (lower command) "c:\"
                    || contains (lower command) "d:\")) eqn:S; [|discriminate].
      apply andb_true_iff in W as [W1 W2].
      apply andb_true_iff in S as [S1 S2].
      rewrite !orb_true_iff in W2. rewrite orb_true_iff in S2.
      apply contains_iff in S1.
      split; [exact W1|]. split; [|split; [exact S1|]].
      * destruct W2 as [[D|D]|D]; apply contains_iff in D; tauto.
      * destruct S2 as [D|D]; apply contains_iff in D; tauto.
    + intros [(t & Ht & Hin)|[(Hrm & Hr)|(Hw & Hd & Hs & Hc)]].
      * apply split_leading in Ht as [l' Hl].
        assert (t = p0) by congruence. subst t.
        apply mem_iff in Hin. now rewrite Hin.
      * destruct (mem p0 DANGEROUS_COMMANDS); [reflexivity|].
        rewrite (contains_true _ _ Hrm).
        destruct Hr as [Hr|Hr]; rewrite (contains_true _ _ Hr);
          simpl; rewrite ?orb_true_r; reflexivity.
      * destruct (mem p0 DANGEROUS_COMMANDS); [reflexivity|].
        destruct (contains command "rm"
                  && (contains command "-r" || contains command "/ "));
          [reflexivity|].
        subst IS_WINDOWS. rewrite (contains_true _ _ Hs).
        assert (D : contains command "del" || contains command "rmdir"
                    || contains command "rd" = true).
        { destruct Hd as [Hd|[Hd|Hd]]; rewrite (contains_true _ _ Hd);
            rewrite ?orb_true_r; reflexivity. }
        rewrite D.
        assert (C : contains (lower command) "c:\"
                    || contains (lower command) "d:\" = true).
        { destruct Hc as [Hc|Hc]; rewrite (contains_true _ _ Hc);
            rewrite ?orb_true_r; reflexivity. }
        rewrite C. reflexivity.
Qed.

End SafetyGate.

(* ================================================================== *)
(** * Order of execution inside one response *)
(* ================================================================== *)

Module Ordering.
Import PyStr Agent Props.
Local Open Scope string_scope.

Section WithHost.
Variable IS_WINDOWS : bool.
Variable os_shell : spawn -> Fs.node -> proc * Fs.node.

Lemma forallb_map_all {A B : Type} (p : B -> bool) (f : A -> B) (l : list A) :
  (forall a, p (f a) = true) -> forallb p (map f l) = true.
Proof.
  intros H. induction l as [|a l IH]; simpl; [reflexivity|].
  now rewrite H, IH.
Qed.

Lemma run_calls_app (l1 l2 : list call) (st : state) :
  run_calls IS_WINDOWS os_shell (l1 ++ l2)%list st
  = (r1 <- run_calls IS_WINDOWS os_shell l1 ;;
     r2 <- run_calls IS_WINDOWS os_shell l2 ;;
     ret (r1 ++ r2)%list) st.
Proof.
  revert st; induction l1 as [|c l1 IH]; intros st; simpl.
  - unfold bind, ret. simpl.
    destruct (run_calls IS_WINDOWS os_shell l2 st) as [[r|e] st']; reflexivity.
  - unfold bind, ret in *.
    destruct (dispatch IS_WINDOWS os_shell c st) as [[r|e] st1]; [|reflexivity].
    rewrite IH.
    destruct (run_calls IS_WINDOWS os_shell l1 st1) as [[r1|e1] st2];
      [|reflexivity].
    destruct (run_calls IS_WINDOWS os_shell l2 st2) as [[r2|e2] st3];
      reflexivity.
Qed.










End WithHost.

(** A response that writes before it reads is still read first. *)
Example read_runs_before_write :
  planned_calls (">>> WRITE b.txt" ++ LF ++ "new" ++ LF ++ "<<< and >>> READ a.txt <<<")
  = [CallRead "a.txt"; CallWrite "b.txt" "new"].
Proof. vm_compute. reflexivity. Qed.

End Ordering.

(* ================================================================== *)
(** * The RUN handler *)
(* ================================================================== *)

Module RunFacts.
Import PyStr Fs Agent Props Scenario.
Local Open Scope string_scope.

Section WithHost.
Variable IS_WINDOWS : bool.
Variable os_shell : spawn -> node -> proc * node.

(** ** The steps, one equation each *)

Lemma run_execute_effect (c : string) (st : state) :
  let st' := snd (run_execute os_shell c st) in
  self st' = self st
  /\ asked (env st') = asked (env st)
  /\ stdin (env st') = stdin (env st)
  /\ spawned (env st')
     = (spawned (env st) ++ [execution_spawn (current_cwd (self st)) c])%list.
Proof.
  unfold run_execute, try_except, bind, get, subprocess_run, ret. simpl.
  destruct (os_shell _ _) as [[rc out err| | |msg] f]; simpl; auto.
Qed.

Lemma run_confirm_ask (c : string) (st : state) :
  run_confirm os_shell c false st =
  match stdin (env st) with
  | [] => (Raise EOFError, consume AskExecute st)
  | line :: _ =>
      if yes_or_y (strip (lower line))
      then run_execute os_shell c (consume AskExecute st)
      else (Return "SYSTEM: User denied command execution.",
            consume AskExecute st)
  end.
Proof.
  unfold run_confirm, bind, input. simpl.
  destruct (stdin (env st)); [reflexivity|].
  destruct (yes_or_y _); reflexivity.
Qed.

Lemma run_safety_dangerous (c : string) (b : bool) (st : state) :
  is_dangerous IS_WINDOWS c = true ->
  run_safety IS_WINDOWS os_shell c b st =
  match stdin (env st) with
  | [] => (Raise EOFError, consume AskDangerous st)
  | line :: _ =>
      if String.eqb (strip line) "confirm"
      then run_confirm os_shell c b (consume AskDangerous st)
      else (Return "SYSTEM: Blocked dangerous command.",
            consume AskDangerous st)
  end.
Proof.
  intros D. unfold run_safety. rewrite D. unfold bind, input.
  destruct (stdin (env st)); [reflexivity|].
  destruct (String.eqb _ _); reflexivity.
Qed.

Lemma run_safety_harmless (c : string) (b : bool) (st : state) :
  is_dangerous IS_WINDOWS c = false ->
  run_safety IS_WINDOWS os_shell c b st = run_confirm os_shell c b st.
Proof. intros D. unfold run_safety. now rewrite D. Qed.

Lemma run_server_here_eq (c : string) (st : state) :
  run_server_here IS_WINDOWS os_shell c st =
  match stdin (env st) with
  | [] => (Raise EOFError, consume AskRunHereAnyway st)
  | line :: _ =>
      if yes_or_y (strip (lower line))
      then run_safety IS_WINDOWS os_shell c true (consume AskRunHereAnyway st)
      else (Return ("SYSTEM: Skipped '" ++ c
                    ++ "' to prevent freezing. User will run it manually."),
            consume AskRunHereAnyway st)
  end.
Proof.
  unfold run_server_here, bind, input.
  destruct (stdin (env st)); [reflexivity|].
  destruct (yes_or_y _); reflexivity.
Qed.

Lemma run_server_guard_posix (c : string) (st : state) :
  IS_WINDOWS = false ->
  run_server_guard IS_WINDOWS os_shell c st
  = run_server_here IS_WINDOWS os_shell c st.
Proof. intros W. unfold run_server_guard. rewrite W. reflexivity. Qed.

Lemma run_server_guard_windows (c : string) (st : state) :
  IS_WINDOWS = true ->
  run_server_guard IS_WINDOWS os_shell c st =
  match stdin (env st) with
  | [] => (Raise EOFError, consume AskLaunchInNewWindow st)
  | line :: _ =>
      if mem (strip (lower line)) [""; "y"; "yes"]
      then (_ <- subprocess_run os_shell
                   (new_window_spawn (current_cwd (self st)) c) ;;
            ret ("SYSTEM: Successfully launched '" ++ c
                 ++ "' in a new background window. The server is now running."))
             (consume AskLaunchInNewWindow st)
      else run_server_here IS_WINDOWS os_shell c (consume AskLaunchInNewWindow st)
  end.
Proof.
  intros W. unfold run_server_guard. rewrite W.
  unfold bind at 1. unfold input.
  destruct (stdin (env st)); [reflexivity|].
  destruct (mem _ _); reflexivity.
Qed.

Lemma run_cd_effect (command : string) (st : state) :
  let st' := snd (run_cd IS_WINDOWS command st) in
  env st' = env st.
Proof.
  unfold run_cd. destruct (split1 _ _) as [|x [|target [|y l]]];
    try reflexivity.
  unfold bind, get, put_self, ret. simpl.
  destruct (_ && _); reflexivity.
Qed.

Lemma handle_run_not_cd (command : string) (st : state) :
  startswith (strip command) "cd " = false ->
  handle_run IS_WINDOWS os_shell command st =
  let c := prepare IS_WINDOWS command in
  if is_server_cmd c
  then run_server_guard IS_WINDOWS os_shell c st
  else run_safety IS_WINDOWS os_shell c false st.
Proof.
  intros H. unfold handle_run. rewrite H. cbv zeta.
  destruct (is_server_cmd _); reflexivity.
Qed.

(** ** What each step adds to the log of spawned processes *)

Lemma adds_only_consume (c : string) (p : prompt) (st st' : state) :
  adds_only IS_WINDOWS c (consume p st) st' -> adds_only IS_WINDOWS c st st'.
Proof. exact (fun H => H). Qed.

Lemma adds_run_execute (c : string) (st : state) :
  adds_only IS_WINDOWS c st (snd (run_execute os_shell c st)).
Proof. right; left. apply run_execute_effect. Qed.

Lemma adds_run_confirm (c : string) (b : bool) (st : state) :
  adds_only IS_WINDOWS c st (snd (run_confirm os_shell c b st)).
Proof.
  destruct b; [apply adds_run_execute|].
  rewrite run_confirm_ask.
  destruct (stdin (env st)); [now left|].
  destruct (yes_or_y _); [|now left].
  apply (adds_only_consume c AskExecute), adds_run_execute.
Qed.

Lemma adds_run_safety (c : string) (b : bool) (st : state) :
  adds_only IS_WINDOWS c st (snd (run_safety IS_WINDOWS os_shell c b st)).
Proof.
  destruct (is_dangerous IS_WINDOWS c) eqn:D.
  - rewrite run_safety_dangerous by assumption.
    destruct (stdin (env st)); [now left|].
    destruct (String.eqb _ _); [|now left].
    apply (adds_only_consume c AskDangerous), adds_run_confirm.
  - rewrite run_safety_harmless by assumption. apply adds_run_confirm.
Qed.

Lemma adds_run_server_here (c : string) (st : state) :
  adds_only IS_WINDOWS c st (snd (run_server_here IS_WINDOWS os_shell c st)).
Proof.
  rewrite run_server_here_eq.
  destruct (stdin (env st)); [now left|].
  destruct (yes_or_y _); [|now left].
  apply (adds_only_consume c AskRunHereAnyway), adds_run_safety.
Qed.

Lemma adds_run_server_guard (c : string) (st : state) :
  is_server_cmd c = true ->
  adds_only IS_WINDOWS c st (snd (run_server_guard IS_WINDOWS os_shell c st)).
Proof.
  intros S. destruct (Bool.bool_dec IS_WINDOWS true) as [W|W].
  - rewrite run_server_guard_windows by assumption.
    destruct (stdin (env st)) as [|line rest] eqn:E; [now left|].
    destruct (mem _ _).
    + right; right. split; [assumption|]. split; [assumption|].
      unfold bind, get, subprocess_run, ret. simpl.
      destruct (os_shell _ _) as [[rc out err| | |msg] f]; reflexivity.
    + apply (adds_only_consume c AskLaunchInNewWindow).
      apply adds_run_server_here.
  - apply Bool.not_true_is_false in W.
    rewrite run_server_guard_posix by assumption.
    apply adds_run_server_here.
Qed.

Lemma adds_handle_run (command : string) (st : state) :
  adds_only IS_WINDOWS (prepare IS_WINDOWS command) st
            (snd (handle_run IS_WINDOWS os_shell command st)).
Proof.
  destruct (startswith (strip command) "cd ") eqn:C.
  - left. unfold handle_run. rewrite C.
    now rewrite (run_cd_effect command st).
  - rewrite handle_run_not_cd by assumption. cbv zeta.
    destruct (is_server_cmd _) eqn:S.
    + now apply adds_run_server_guard.
    + apply adds_run_safety.
Qed.

(** C9, as amended: every process that the RUN handler starts in its
    execution step is spawned with the string [y] and a newline on its
    standard input; the handler starts at most one process, and the
    only other process it can start is the new window of the server
    guard on Windows, which is given no input. *)
Theorem C9_spawn_input (command : string) (st : state) :
  let st' := snd (handle_run IS_WINDOWS os_shell command st) in
  let c := prepare IS_WINDOWS command in
  exists new,
    spawned (env st') = (spawned (env st) ++ new)%list
    /\ List.length new <= 1
    /\ Forall (fun sp =>
                 (sp = execution_spawn (current_cwd (self st)) c
                  /\ sp_input sp = Some ("y" ++ LF))
                 \/ (IS_WINDOWS = true /\ is_server_cmd c = true
                     /\ sp = new_window_spawn (current_cwd (self st)) c
                     /\ sp_input sp = None)) new.
Proof.
  cbv zeta.
  destruct (adds_handle_run command st) as [E|[E|(W & S & E)]].
  - exists []. rewrite app_nil_r. repeat split; auto.
  - eexists [_]. split; [exact E|]. split; [simpl; lia|].
    constructor; [|constructor]. left. split; reflexivity.
  - eexists [_]. split; [exact E|]. split; [simpl; lia|].
    constructor; [|constructor]. right. repeat split; assumption.
Qed.

(** ** The dialogue with the operator *)

Lemma nth_error_app_plus {A : Type} (l l' : list A) (k : nat) :
  nth_error (l ++ l') (List.length l + k) = nth_error l' k.
Proof.
  rewrite nth_error_app2 by lia. f_equal. lia.
Qed.

Lemma answered_consume (p q : prompt) (st st' : state) (line : string) :
  answered (consume p st) st' q line -> answered st st' q line.
Proof.
  intros (k & Ha & Hl). exists (S k). split.
  - simpl in Ha. rewrite length_app in Ha. simpl in Ha.
    rewrite <- Ha. f_equal. lia.
  - simpl in Hl. destruct (stdin (env st)); simpl in *; [|assumption].
    destruct k; discriminate.
Qed.

Lemma asked_before_consume (p q1 q2 : prompt) (st st' : state) :
  asked_before (consume p st) st' q1 q2 -> asked_before st st' q1 q2.
Proof.
  intros (j & k & Hjk & Hj & Hk). exists (S j), (S k).
  simpl in Hj, Hk. rewrite length_app in Hj, Hk. simpl in Hj, Hk.
  split; [lia|]. split.
  - rewrite <- Hj. f_equal. lia.
  - rewrite <- Hk. f_equal. lia.
Qed.

Lemma run_confirm_asked (c : string) (b : bool) (st : state) :
  asked (env (snd (run_confirm os_shell c b st)))
  = (asked (env st) ++ (if b then [] else [AskExecute]))%list.
Proof.
  destruct b.
  - rewrite app_nil_r. apply run_execute_effect.
  - rewrite run_confirm_ask. destruct (stdin (env st)); [reflexivity|].
    destruct (yes_or_y _); [|reflexivity].
    destruct (run_execute_effect c (consume AskExecute st)) as (_ & A & _).
    exact A.
Qed.

(** The safety check on a dangerous command: a process is spawned only
    after the elevated prompt was answered with the phrase, and the
    yes/no prompt comes after the elevated one. *)
Lemma safety_gate (c : string) (b : bool) (st : state) :
  is_dangerous IS_WINDOWS c = true ->
  let st' := snd (run_safety IS_WINDOWS os_shell c b st) in
  (spawned (env st') <> spawned (env st) ->
   exists line, answered st st' AskDangerous line /\ strip line = "confirm")
  /\ (forall line, answered st st' AskExecute line ->
      asked_before st st' AskDangerous AskExecute).
Proof.
  intros D. cbv zeta. rewrite run_safety_dangerous by assumption.
  destruct (stdin (env st)) as [|line rest] eqn:E.
  - split; [intros H; now elim H|].
    intros l (k & _ & Hl). rewrite E in Hl. destruct k; discriminate.
  - destruct (String.eqb (strip line) "confirm") eqn:C.
    + apply String.eqb_eq in C.
      pose proof (run_confirm_asked c b (consume AskDangerous st)) as A.
      simpl in A. split.
      * intros _. exists line. split; [|exact C]. exists 0. split.
        -- rewrite A, <- app_assoc, nth_error_app_plus. reflexivity.
        -- now rewrite E.
      * intros l (k & Ha & _). rewrite A, <- app_assoc in Ha.
        rewrite nth_error_app_plus in Ha.
        destruct b; simpl in Ha.
        -- destruct k as [|[|k]]; discriminate.
        -- exists 0, 1. split; [lia|].
           rewrite A, <- app_assoc, !nth_error_app_plus. split; reflexivity.
    + split; [intros H; now elim H|].
      intros l (k & Ha & _). simpl in Ha.
      rewrite nth_error_app_plus in Ha.
      destruct k as [|[|k]]; discriminate.
Qed.

Lemma no_prompt_not_answered (st st' : state) (p : prompt) (line : string) :
  asked (env st') = asked (env st) -> ~ answered st st' p line.
Proof.
  intros E (k & Ha & _). rewrite E in Ha.
  assert (N : nth_error (asked (env st)) (List.length (asked (env st)) + k) = None)
    by (apply nth_error_None; lia).
  congruence.
Qed.

(** C2, as amended.  Take a command that the safety check of the RUN
    handler classifies dangerous, on any path that reaches that check
    (every command on a host that is not Windows, every command that is
    not a server command on Windows).  Then (1) no process is spawned
    unless the operator answered the elevated prompt with a line that,
    stripped of surrounding whitespace, is [confirm]; (2) the yes/no
    execution prompt is shown only after the elevated prompt; (3) for a
    command that is neither a [cd] nor a server command the elevated
    prompt is the first prompt, and any other answer returns the
    blocked message, nothing else being asked or spawned; (4) for a
    server command the run-here prompt comes first: declining it skips
    the command, accepting it leads to the elevated prompt, where any
    other answer returns the blocked message. *)
Theorem C2_dangerous_needs_phrase (command : string) (st : state) :
  is_dangerous IS_WINDOWS (prepare IS_WINDOWS command) = true ->
  IS_WINDOWS = false \/ is_server_cmd (prepare IS_WINDOWS command) = false ->
  let c := prepare IS_WINDOWS command in
  let r := handle_run IS_WINDOWS os_shell command st in
  (spawned (env (snd r)) <> spawned (env st) ->
   exists line, answered st (snd r) AskDangerous line /\ strip line = "confirm")
  /\ (forall line, answered st (snd r) AskExecute line ->
      asked_before st (snd r) AskDangerous AskExecute)
  /\ (startswith (strip command) "cd " = false ->
      is_server_cmd c = false ->
      forall line rest,
        stdin (env st) = line :: rest -> strip line <> "confirm" ->
        r = (Return "SYSTEM: Blocked dangerous command.",
             consume AskDangerous st))
  /\ (startswith (strip command) "cd " = false ->
      is_server_cmd c = true ->
      forall line rest,
        stdin (env st) = line :: rest ->
        (yes_or_y (strip (lower line)) = false ->
         r = (Return ("SYSTEM: Skipped '" ++ c
                      ++ "' to prevent freezing. User will run it manually."),
              consume AskRunHereAnyway st))
        /\ (yes_or_y (strip (lower line)) = true ->
            forall line2 rest2,
              rest = line2 :: rest2 -> strip line2 <> "confirm" ->
              r = (Return "SYSTEM: Blocked dangerous command.",
                   consume AskDangerous (consume AskRunHereAnyway st)))).
Proof.
  intros D H. cbv zeta.
  destruct (startswith (strip command) "cd ") eqn:C.
  - (* cd: nothing is asked, nothing is spawned *)
    assert (E : env (snd (handle_run IS_WINDOWS os_shell command st)) = env st).
    { unfold handle_run. rewrite C. apply run_cd_effect. }
    split; [intros N; rewrite E in N; now elim N|].
    split; [|split; discriminate].
    intros l A. exfalso. revert A. apply no_prompt_not_answered.
    now rewrite E.
  - rewrite handle_run_not_cd by assumption. cbv zeta.
    destruct (is_server_cmd (prepare IS_WINDOWS command)) eqn:S.
    + (* a server command, on a host that is not Windows *)
      destruct H as [W|W]; [|discriminate].
      rewrite run_server_guard_posix by assumption.
      rewrite run_server_here_eq.
      destruct (stdin (env st)) as [|line rest] eqn:E.
      { split; [intros N; now elim N|].
        split; [|split; [discriminate|intros _ _ l r0 X; discriminate]].
        intros l (k & _ & Hl). rewrite E in Hl. destruct k; discriminate. }
      destruct (yes_or_y (strip (lower line))) eqn:Y.
      * destruct (safety_gate _ true (consume AskRunHereAnyway st) D)
          as [G1 G2].
        split.
        { intros N. destruct (G1 N) as (l & A & P).
          exists l. split; [|exact P]. eapply answered_consume; eassumption. }
        split.
        { intros l A. apply asked_before_consume with (p := AskRunHereAnyway).
          destruct A as (k & Ha & Hl).
          exfalso.
          rewrite run_safety_dangerous in Ha by assumption. simpl in Ha.
          destruct (tl (stdin (env st))) as [|l2 r2].
          - simpl in Ha. rewrite <- app_assoc, nth_error_app_plus in Ha.
            destruct k as [|[|[|k]]]; discriminate.
          - destruct (String.eqb (strip l2) "confirm").
            + pose proof (run_confirm_asked (prepare IS_WINDOWS command) true
                            (consume AskDangerous (consume AskRunHereAnyway st))) as A.
              simpl in A. rewrite A, app_nil_r, <- app_assoc in Ha.
              rewrite nth_error_app_plus in Ha.
              destruct k as [|[|[|k]]]; discriminate.
            + simpl in Ha. rewrite <- app_assoc, nth_error_app_plus in Ha.
              destruct k as [|[|[|k]]]; discriminate. }
        split; [discriminate|].
        intros _ _ l r0 X. inversion X; subst l r0. split; [congruence|].
        intros _ line2 rest2 R2 NC.
        rewrite run_safety_dangerous by assumption. simpl.
        rewrite E. simpl. rewrite R2.
        destruct (String.eqb (strip line2) "confirm") eqn:Q; [|reflexivity].
        apply String.eqb_eq in Q. contradiction.
      * split; [intros N; now elim N|].
        split.
        { intros l (k & Ha & _). simpl in Ha.
          rewrite nth_error_app_plus in Ha.
          destruct k as [|[|k]]; discriminate. }
        split; [discriminate|].
        intros _ _ l r0 X. inversion X; subst l r0.
        split; [reflexivity|congruence].
    + (* not a server command: the safety check comes first *)
      destruct (safety_gate _ false st D) as [G1 G2].
      split; [exact G1|]. split; [exact G2|].
      split; [|discriminate].
      intros _ _ line rest E NC.
      rewrite run_safety_dangerous by assumption. rewrite E.
      destruct (String.eqb (strip line) "confirm") eqn:Q; [|reflexivity].
      apply String.eqb_eq in Q. contradiction.
Qed.

End WithHost.

(** C9, as stated, fails: on Windows a server command launched in a new
    window is spawned by the RUN handler without any input. *)
Lemma C9_counterexample :
  let st' := snd (handle_run true quiet_shell "npm start" (start [""])) in
  exists sp, In sp (spawned (env st')) /\ sp_input sp = None.
Proof.
  vm_compute. eexists. split; [left; reflexivity|reflexivity].
Qed.

(** C2, as stated, fails on each of its two points: a line that is not
    exactly the phrase (here with a blank before it) is accepted and the
    dangerous command is spawned; and for a dangerous server command an
    empty answer returns the skipped message, not the blocked one, the
    first prompt being the run-here prompt. *)
Lemma C2_counterexample :
  is_dangerous false (prepare false "rm -rf /") = true
  /\ " confirm" <> "confirm"
  /\ spawned (env (snd (handle_run false quiet_shell "rm -rf /"
                                   (start [" confirm"; "y"]))))
     = [execution_spawn ["proj"] "rm -rf /"]
  /\ is_dangerous false (prepare false "rm -rf dist && npm start") = true
  /\ handle_run false quiet_shell "rm -rf dist && npm start" (start [""])
     = (Return ("SYSTEM: Skipped 'rm -rf dist && npm start' to prevent "
                ++ "freezing. User will run it manually."),
        consume AskRunHereAnyway (start [""])).
Proof.
  split; [vm_compute; reflexivity|].
  split; [discriminate|].
  split; [vm_compute; reflexivity|].
  split; vm_compute; reflexivity.
Qed.

(** The amended C2 at work: [rm -rf /] answered with [y] is blocked. *)
Lemma C2_witness :
  is_dangerous false (prepare false "rm -rf /") = true
  /\ handle_run false quiet_shell "rm -rf /" (start ["y"])
     = (Return "SYSTEM: Blocked dangerous command.",
        consume AskDangerous (start ["y"])).
Proof.
  split; [vm_compute; reflexivity|].
  refine (proj1 (proj2 (proj2
    (C2_dangerous_needs_phrase false quiet_shell "rm -rf /" (start ["y"])
       _ _))) _ _ "y" [] _ _).
  - vm_compute; reflexivity.
  - left; reflexivity.
  - vm_compute; reflexivity.
  - vm_compute; reflexivity.
  - reflexivity.
  - discriminate.
Defined.

End RunFacts.

(* ================================================================== *)
(** * CD and the context entry *)
(* ================================================================== *)

Module CdFacts.
Import PyStr Fs Agent Props Scenario.
Local Open Scope string_scope.

Lemma is_dir_exists (f : node) (p : path) :
  is_dir f p = true -> exists_ f p = true.
Proof.
  unfold is_dir, exists_. destruct (stat f p) as [[q n]|e]; congruence.
Qed.

Lemma is_dir_stat (f : node) (p : path) :
  is_dir f p = true -> exists q es, stat f p = Ok (q, Dir es).
Proof.
  unfold is_dir. destruct (stat f p) as [[q [c|es]]|e]; try discriminate.
  eauto.
Qed.

Lemma refresh_context_root (st : state) :
  is_dir (fs (env st)) (root_dir (self st)) = true ->
  exists entry,
    context_entry_of (fs (env st)) (root_dir (self st)) (now (env st))
    = Some entry
    /\ refresh_context st
       = (Return ("SYSTEM: Context refreshed." ++ LF ++ LF
                  ++ "Current Structure:" ++ LF
                  ++ _get_tree_output (fs (env st)) (root_dir (self st))),
          mk_state (with_messages (self st)
                      (with_context (messages (self st)) entry))
                   (env st)).
Proof.
  intros D. apply is_dir_stat in D as (q & es & D).
  unfold context_entry_of, refresh_context, try_except, bind, get, scrape,
    datetime_now, put_self, ret, FileReader.scrape_contents, with_context.
  simpl. rewrite D. eexists. split; reflexivity.
Qed.

Section WithHost.
Variable IS_WINDOWS : bool.

Lemma handle_cd_fail (target : string) (st : state) :
  let target' := if IS_WINDOWS then replace target "/" "\" else target in
  let new_path := resolve (joinpath (current_cwd (self st)) target') in
  is_dir (fs (env st)) new_path = false ->
  exists msg,
    handle_cd IS_WINDOWS target st = (Return msg, st)
    /\ (msg = "SYSTEM: Error - Directory '" ++ target' ++ "' does not exist."
        \/ msg = "SYSTEM: Error - '" ++ target' ++ "' is not a directory.").
Proof.
  unfold handle_cd. cbv zeta.
  generalize (if IS_WINDOWS then replace target "/" "\" else target).
  intros target'.
  unfold bind at 1. unfold get at 1. cbv beta iota.
  generalize (resolve (joinpath (current_cwd (self st)) target')).
  intros new_path D.
  destruct (exists_ (fs (env st)) new_path); cbv beta iota delta [negb].
  - rewrite D. eexists. split; [reflexivity|]. right. reflexivity.
  - eexists. split; [reflexivity|]. left. reflexivity.
Qed.

Lemma handle_cd_ok (target : string) (st : state) :
  let target' := if IS_WINDOWS then replace target "/" "\" else target in
  let new_path := resolve (joinpath (current_cwd (self st)) target') in
  is_dir (fs (env st)) new_path = true ->
  is_dir (fs (env st)) (root_dir (self st)) = true ->
  exists entry q,
    context_entry_of (fs (env st)) (root_dir (self st)) (now (env st))
    = Some entry
    /\ handle_cd IS_WINDOWS target st
       = (Return ("SYSTEM: Context refreshed." ++ LF ++ LF
                  ++ "Current Structure:" ++ LF
                  ++ _get_tree_output (fs (env st)) (root_dir (self st))),
          mk_state (with_messages (with_cwd (self st) new_path)
                      (with_context (messages (self st)) entry))
                   (with_os_cwd (env st) q)).
Proof.
  unfold handle_cd. cbv zeta.
  generalize (if IS_WINDOWS then replace target "/" "\" else target).
  intros target'.
  unfold bind at 1. unfold get at 1. cbv beta iota.
  generalize (resolve (joinpath (current_cwd (self st)) target')).
  intros new_path D R.
  rewrite (is_dir_exists _ _ D), D. cbv beta iota delta [negb].
  destruct (is_dir_stat _ _ D) as (q & es & Q).
  assert (B : (put_self (with_cwd (self st) new_path) ;;;
               os_chdir new_path ;;; refresh_context) st
              = refresh_context
                  (mk_state (with_cwd (self st) new_path)
                            (with_os_cwd (env st) q))).
  { unfold bind, put_self, os_chdir. cbn [env self fs]. rewrite Q.
    reflexivity. }
  unfold try_except. rewrite B.
  destruct (refresh_context_root
              (mk_state (with_cwd (self st) new_path)
                        (with_os_cwd (env st) q)) R)
    as (entry & E & X).
  rewrite X. exists entry, q. split; [exact E|reflexivity].
Qed.

(** C5, as amended: a CD whose resolved target is an existing directory
    sets [current_cwd] to it and replaces the context entry by one
    rebuilt from a scan of the project root [root_dir], whatever the
    new current directory is; a CD whose target does not exist or is
    not a directory returns an error and leaves the whole state,
    [current_cwd] included, unchanged. *)
Theorem C5_cd_refreshes_from_root (target : string) (st : state) :
  let target' := if IS_WINDOWS then replace target "/" "\" else target in
  let new_path := resolve (joinpath (current_cwd (self st)) target') in
  let r := handle_cd IS_WINDOWS target st in
  (is_dir (fs (env st)) new_path = true ->
   is_dir (fs (env st)) (root_dir (self st)) = true ->
   exists entry,
     context_entry_of (fs (env st)) (root_dir (self st)) (now (env st))
     = Some entry
     /\ fst r = Return ("SYSTEM: Context refreshed." ++ LF ++ LF
                        ++ "Current Structure:" ++ LF
                        ++ _get_tree_output (fs (env st)) (root_dir (self st)))
     /\ current_cwd (self (snd r)) = new_path
     /\ root_dir (self (snd r)) = root_dir (self st)
     /\ messages (self (snd r)) = with_context (messages (self st)) entry
     /\ fs (env (snd r)) = fs (env st))
  /\ (is_dir (fs (env st)) new_path = false ->
      snd r = st
      /\ (fst r = Return ("SYSTEM: Error - Directory '" ++ target'
                          ++ "' does not exist.")
          \/ fst r = Return ("SYSTEM: Error - '" ++ target'
                             ++ "' is not a directory."))).
Proof.
  cbv zeta. split.
  - intros D R.
    destruct (handle_cd_ok target st D R) as (entry & q & E & X).
    rewrite X. exists entry. cbn [fst snd self env fs].
    repeat split; auto.
  - intros D. destruct (handle_cd_fail target st D) as (msg & X & [M|M]);
      rewrite X; cbn [fst snd]; subst msg; auto.
Qed.

End WithHost.

(** C5, as stated, fails: after [CD sub] the context entry is the one a
    scan of the project root gives, which lists [a.txt] of the root; it
    is not the entry a scan of [sub] would give. *)
Lemma C5_counterexample :
  let st' := snd (handle_cd false "sub" (start [])) in
  current_cwd (self st') = ["proj"; "sub"]
  /\ (exists e_root e_sub,
        context_entry_of disk ["proj"] clock = Some e_root
        /\ context_entry_of disk ["proj"; "sub"] clock = Some e_sub
        /\ messages (self st') = [mk_message "system" "SYSTEM_INSTRUCTION"; e_root]
        /\ e_root <> e_sub
        /\ ~ In e_sub (messages (self st'))).
Proof.
  vm_compute. split; [reflexivity|].
  eexists. eexists. split; [reflexivity|]. split; [reflexivity|].
  split; [reflexivity|]. split; [discriminate|].
  intros [H|[H|[]]]; discriminate H.
Qed.

(** The amended C5 at work on the same project. *)
Lemma C5_witness :
  current_cwd (self (snd (handle_cd false "sub" (start [])))) = ["proj"; "sub"].
Proof.
  destruct (proj1 (C5_cd_refreshes_from_root false "sub" (start []))
              eq_refl eq_refl)
    as (entry & _ & _ & H & _).
  exact H.
Defined.

End CdFacts.

(* ================================================================== *)
(** * Facts about the file system *)
(* ================================================================== *)

Module FsFacts.
Import PyStr Fs Props.
Local Open Scope string_scope.
Local Open Scope list_scope.

(** ** Entries *)

Lemma find_set_same (x : string) (v : node) (es : list (string * node)) :
  find_entry x (set_entry x v es) = Some v.
Proof.
  induction es as [|[y n] es IH]; simpl.
  - now rewrite String.eqb_refl.
  - destruct (String.eqb x y) eqn:E; simpl; rewrite E; auto.
Qed.

Lemma find_set_other (x y : string) (v : node) (es : list (string * node)) :
  x <> y -> find_entry y (set_entry x v es) = find_entry y es.
Proof.
  intros N. induction es as [|[z n] es IH]; simpl.
  - destruct (String.eqb y x) eqn:E; [|reflexivity].
    apply String.eqb_eq in E. congruence.
  - destruct (String.eqb x z) eqn:E; simpl.
    + apply String.eqb_eq in E. subst z.
      destruct (String.eqb y x) eqn:F; [|reflexivity].
      apply String.eqb_eq in F. congruence.
    + destruct (String.eqb y z); auto.
Qed.

Lemma find_del_same (x : string) (es : list (string * node)) :
  find_entry x (del_entry x es) = None.
Proof.
  unfold del_entry. induction es as [|[y n] es IH]; simpl; [reflexivity|].
  destruct (String.eqb x y) eqn:E; simpl; [exact IH|].
  now rewrite E.
Qed.

Lemma find_del_other (x y : string) (es : list (string * node)) :
  x <> y -> find_entry y (del_entry x es) = find_entry y es.
Proof.
  intros N. unfold del_entry.
  induction es as [|[z n] es IH]; simpl; [reflexivity|].
  destruct (String.eqb x z) eqn:E; simpl.
  - apply String.eqb_eq in E. subst z.
    destruct (String.eqb y x) eqn:F; [|exact IH].
    apply String.eqb_eq in F. congruence.
  - destruct (String.eqb y z); auto.
Qed.

(** ** [lookup] and lists of components *)

Lemma lookup_app (f : node) (p q : path) :
  lookup f (p ++ q) =
  match lookup f p with
  | Some n => lookup n q
  | None => None
  end.
Proof.
  revert f; induction p as [|x p IH]; intros f; simpl; [reflexivity|].
  destruct f as [c|es]; [reflexivity|].
  destruct (find_entry x es); [apply IH|reflexivity].
Qed.

Lemma lookup_file_below (c : string) (q : path) :
  q <> [] -> lookup (File c) q = None.
Proof. destruct q; [congruence|reflexivity]. Qed.

Lemma removelast_snoc {A : Type} (l : list A) (x : A) :
  removelast (l ++ [x]) = l.
Proof. apply removelast_last. Qed.

Lemma alike_refl (a : option node) : alike a a.
Proof. destruct a as [[c|es]|]; simpl; auto. Qed.

(** ** [put] *)

Lemma put_self (f : node) (p : path) (v f' : node) :
  put f p v = Some f' -> lookup f' p = Some v.
Proof.
  revert f f'; induction p as [|x p IH]; intros f f' H; simpl in H.
  - now inversion H.
  - destruct f as [c|es]; [discriminate|].
    destruct p as [|y p].
    + inversion H; subst. simpl. now rewrite find_set_same.
    + destruct (find_entry x es) as [c0|] eqn:F; [|discriminate].
      destruct (put c0 (y :: p) v) as [c0'|] eqn:P; [|discriminate].
      inversion H; subst. cbn [lookup]. rewrite find_set_same.
      now apply (IH c0).
Qed.

Lemma put_succeeds (f : node) (p : path) (x : string) (v : node) (es : list (string * node)) :
  lookup f p = Some (Dir es) -> exists f', put f (p ++ [x]) v = Some f'.
Proof.
  revert f; induction p as [|y p IH]; intros f H; simpl in H.
  - inversion H; subst. simpl. eauto.
  - destruct f as [c|es0]; [discriminate|].
    destruct (find_entry y es0) as [c0|] eqn:F; [|discriminate].
    destruct (IH _ H) as [c0' P].
    cbn [app put]. rewrite F.
    destruct (p ++ [x])%list eqn:E; [destruct p; discriminate|].
    rewrite P. eauto.
Qed.

(** Storing a file where no directory was changes nothing elsewhere. *)
Lemma put_file_elsewhere (f : node) (p : path) (c : string) (f' : node) :
  put f p (File c) = Some f' -> not_a_dir (lookup f p) ->
  forall x, x <> p -> alike (lookup f x) (lookup f' x).
Proof.
  revert f f'; induction p as [|z p IH]; intros f f' H ND x N.
  - simpl in ND. destruct f as [c0|es]; [|contradiction].
    simpl in H. inversion H; subst.
    destruct x; [congruence|]. simpl. exact I.
  - simpl in H. destruct f as [c0|es]; [discriminate|].
    destruct x as [|y x]; [destruct p; [inversion H|
      destruct (find_entry z es); [destruct (put n (s :: p) (File c))|]];
      try discriminate; inversion H; simpl; exact I|].
    destruct (string_dec z y) as [->|Nzy].
    + destruct p as [|w p].
      * inversion H; subst. cbn [lookup]. rewrite find_set_same.
        simpl in ND.
        destruct x as [|x0 x]; [congruence|]. cbn [lookup].
        destruct (find_entry y es) as [[c1|es1]|]; simpl; auto.
        contradiction.
      * destruct (find_entry y es) as [c0|] eqn:F; [|discriminate].
        destruct (put c0 (w :: p) (File c)) as [c0'|] eqn:P; [|discriminate].
        inversion H; subst. cbn [lookup]. rewrite find_set_same, F.
        apply (IH c0 c0' P).
        -- cbn [lookup] in ND. now rewrite F in ND.
        -- congruence.
    + assert (E : find_entry y (match p with
                                | [] => set_entry z (File c) es
                                | _ => set_entry z (File c) es
                                end) = find_entry y es)
        by (destruct p; now apply find_set_other).
      destruct p as [|w p].
      * inversion H; subst. cbn [lookup].
        rewrite find_set_other by assumption. apply alike_refl.
      * destruct (find_entry z es) as [c0|] eqn:F; [|discriminate].
        destruct (put c0 (w :: p) (File c)) as [c0'|] eqn:P; [|discriminate].
        inversion H; subst. cbn [lookup].
        rewrite find_set_other by assumption. apply alike_refl.
Qed.

Lemma lookup_parent_dir (f : node) (l : path) (x : string) (n : node) :
  lookup f (l ++ [x]) = Some n -> exists es, lookup f l = Some (Dir es).
Proof.
  rewrite lookup_app. destruct (lookup f l) as [[c|es]|]; try discriminate.
  eauto.
Qed.

Lemma put_where_found (f : node) (q : path) (n v : node) :
  lookup f q = Some n -> exists f', put f q v = Some f'.
Proof.
  intros H. destruct q as [|x q]; [simpl; eauto|].
  assert (N : x :: q <> []) by discriminate.
  destruct (exists_last N) as (l & y & E). rewrite E in *.
  destruct (lookup_parent_dir _ _ _ _ H) as [es D].
  eapply put_succeeds; eassumption.
Qed.

(** ** Directories that stay, and path resolution *)

Lemma put_file_dirs_kept (f : node) (p : path) (c : string) (f' : node) :
  put f p (File c) = Some f' -> not_a_dir (lookup f p) -> dirs_kept f f'.
Proof.
  intros P ND x es H.
  destruct (list_eq_dec string_dec x p) as [->|N].
  - rewrite H in ND. contradiction.
  - pose proof (put_file_elsewhere _ _ _ _ P ND x N) as A.
    rewrite H in A. simpl in A.
    destruct (lookup f' x) as [[c'|es']|]; try contradiction. eauto.
Qed.

Lemma walk_kept (f f' : node) (cur : path) (comps : list string) (q : path) :
  dirs_kept f f' -> walk f cur comps = Ok q -> walk f' cur comps = Ok q.
Proof.
  intros K. revert cur; induction comps as [|c comps IH]; intros cur H;
    simpl in *; [assumption|].
  destruct (lookup f cur) as [[c0|es]|] eqn:L; try discriminate.
  destruct (K _ _ L) as [es' L']. rewrite L'. now apply IH.
Qed.

Lemma walk_app (f : node) (cur : path) (a b : list string) :
  walk f cur (a ++ b) =
  match walk f cur a with
  | Ok q => walk f q b
  | Err e => Err e
  end.
Proof.
  revert cur; induction a as [|c a IH]; intros cur; simpl; [reflexivity|].
  destruct (lookup f cur) as [[c0|es]|]; auto.
Qed.

Lemma stat_inv (f : node) (p q : path) (n : node) :
  stat f p = Ok (q, n) -> walk f [] p = Ok q /\ lookup f q = Some n.
Proof.
  unfold stat. destruct (walk f [] p) as [q'|e]; [|discriminate].
  destruct (lookup f q') as [n'|] eqn:L; [|discriminate].
  intros H; inversion H; subst. auto.
Qed.

Lemma stat_intro (f : node) (p q : path) (n : node) :
  walk f [] p = Ok q -> lookup f q = Some n -> stat f p = Ok (q, n).
Proof. intros W L. unfold stat. now rewrite W, L. Qed.

Lemma is_dir_inv (f : node) (p : path) :
  is_dir f p = true -> exists q es, stat f p = Ok (q, Dir es).
Proof.
  unfold is_dir. destruct (stat f p) as [[q [c|es]]|e]; try discriminate.
  eauto.
Qed.

Lemma file_text_intro (f : node) (p q : path) (c : string) :
  walk f [] p = Ok q -> lookup f q = Some (File c) -> file_text f p = Ok c.
Proof.
  intros W L. unfold file_text. now rewrite (stat_intro _ _ _ _ W L).
Qed.

(** ** [write_text], [mkdir], [copy2] *)

Lemma write_text_over_file (f : node) (p q : path) (c0 c : string) :
  walk f [] p = Ok q -> lookup f q = Some (File c0) ->
  exists f', write_text f p c = Ok f' /\ put f q (File c) = Some f'.
Proof.
  intros W L. destruct (put_where_found _ _ _ (File c) L) as [f' P].
  exists f'. unfold write_text, locate_for_write. now rewrite W, L, P.
Qed.

Lemma write_text_new_file (f : node) (p l : path) (x : string)
      (es : list (string * node)) (c : string) :
  walk f [] p = Ok (l ++ [x]) -> lookup f (l ++ [x]) = None ->
  lookup f l = Some (Dir es) ->
  exists f', write_text f p c = Ok f' /\ put f (l ++ [x]) (File c) = Some f'.
Proof.
  intros W L D. destruct (put_succeeds _ _ x (File c) _ D) as [f' P].
  exists f'. unfold write_text, locate_for_write.
  now rewrite W, L, removelast_snoc, D, P.
Qed.

Lemma mkdir_parents_present (f : node) (p : path) :
  is_dir f p = true -> mkdir_parents f p = Ok f.
Proof.
  intros D. destruct (is_dir_inv _ _ D) as (q & es & S).
  apply stat_inv in S as [W L].
  assert (E : os_mkdir f p = Err EEXIST)
    by (unfold os_mkdir; now rewrite W, L).
  unfold mkdir_parents. destruct (List.length p); simpl; now rewrite E, D.
Qed.

(** ** [del] *)

Lemma del_self (f : node) (q : path) (f' : node) :
  del f q = Some f' -> lookup f' q = None.
Proof.
  revert f f'; induction q as [|x q IH]; intros f f' H; simpl in H;
    [discriminate|].
  destruct f as [c|es]; [discriminate|].
  destruct q as [|y q].
  - inversion H; subst. simpl. now rewrite find_del_same.
  - destruct (find_entry x es) as [c0|] eqn:F; [|discriminate].
    destruct (del c0 (y :: q)) as [c0'|] eqn:P; [|discriminate].
    inversion H; subst. cbn [lookup]. rewrite find_set_same.
    now apply (IH c0).
Qed.

Lemma del_where_found (f : node) (q : path) (n : node) :
  q <> [] -> lookup f q = Some n -> exists f', del f q = Some f'.
Proof.
  revert f; induction q as [|x q IH]; intros f N H; [congruence|].
  simpl in H. destruct f as [c|es]; [discriminate|].
  destruct (find_entry x es) as [c0|] eqn:F; [|discriminate].
  destruct q as [|y q].
  - simpl. eauto.
  - destruct (IH c0 ltac:(discriminate) H) as [c0' D].
    change (del (Dir es) (x :: y :: q))
      with (match find_entry x es with
            | Some c => match del c (y :: q) with
                        | Some c' => Some (Dir (set_entry x c' es))
                        | None => None
                        end
            | None => None
            end).
    rewrite F, D. eauto.
Qed.

Lemma del_below (f : node) (q x : path) (f' : node) :
  del f q = Some f' -> lookup f' (q ++ x) = None.
Proof.
  intros D. rewrite lookup_app. now rewrite (del_self _ _ _ D).
Qed.

(** ** Directories made by [mkdir] *)

Lemma alike_trans (a b c : option node) : alike a b -> alike b c -> alike a c.
Proof.
  destruct a as [[x|x]|], b as [[y|y]|], c as [[z|z]|]; simpl;
    try tauto; congruence.
Qed.

Lemma alike_none (b : option node) : alike None b -> b = None.
Proof. destruct b as [[y|y]|]; simpl; tauto. Qed.

Lemma alike_dir (es : list (string * node)) (b : option node) :
  alike (Some (Dir es)) b -> exists es', b = Some (Dir es').
Proof. destruct b as [[y|y]|]; simpl; try tauto. eauto. Qed.

Lemma leaf_lookup (v : node) (r : path) :
  leaf v = true -> r <> [] -> lookup v r = None.
Proof.
  destruct r as [|x r]; [congruence|].
  destruct v as [c|[|e es]]; simpl; congruence.
Qed.

(** Storing a file or an empty directory where no directory was changes
    nothing elsewhere. *)
Lemma put_leaf_elsewhere (f : node) (p : path) (v f' : node) :
  put f p v = Some f' -> not_a_dir (lookup f p) -> leaf v = true ->
  forall x, x <> p -> alike (lookup f x) (lookup f' x).
Proof.
  intros H ND LV x N.
  revert f f' x H ND N; induction p as [|z p IH]; intros f f' x H ND N.
  - simpl in ND. destruct f as [c0|es]; [|contradiction].
    simpl in H. inversion H; subst.
    rewrite (leaf_lookup _ _ LV N). now destruct x.
  - simpl in H. destruct f as [c0|es]; [discriminate|].
    destruct x as [|y x].
    { destruct p; [inversion H; exact I|].
      destruct (find_entry z es); [|discriminate].
      destruct (put n (s :: p) v); [|discriminate].
      inversion H. exact I. }
    destruct (string_dec z y) as [->|Nzy].
    + destruct p as [|w p].
      * inversion H; subst. cbn [lookup]. rewrite find_set_same.
        simpl in ND.
        assert (Nx : x <> []) by congruence.
        rewrite (leaf_lookup _ _ LV Nx).
        destruct x as [|x0 x]; [congruence|]. cbn [lookup].
        destruct (find_entry y es) as [[c1|es1]|]; simpl; auto.
        contradiction.
      * destruct (find_entry y es) as [c0|] eqn:F; [|discriminate].
        destruct (put c0 (w :: p) v) as [c0'|] eqn:P; [|discriminate].
        inversion H; subst. cbn [lookup]. rewrite find_set_same, F.
        apply (IH c0 c0' x P).
        -- cbn [lookup] in ND. now rewrite F in ND.
        -- congruence.
    + destruct p as [|w p].
      * inversion H; subst. cbn [lookup].
        rewrite find_set_other by assumption. apply alike_refl.
      * destruct (find_entry z es) as [c0|] eqn:F; [|discriminate].
        destruct (put c0 (w :: p) v) as [c0'|] eqn:P; [|discriminate].
        inversion H; subst. cbn [lookup].
        rewrite find_set_other by assumption. apply alike_refl.
Qed.

Lemma prefix_of_refl (x : path) : prefix_of x x = true.
Proof. induction x as [|a x IH]; simpl; [|rewrite String.eqb_refl]; auto. Qed.

Lemma prefix_of_snoc (x d : path) (c : string) :
  prefix_of x d = true -> prefix_of x (d ++ [c]) = true.
Proof.
  revert d; induction x as [|a x IH]; intros d H; [reflexivity|].
  destruct d as [|b d]; [discriminate|]. simpl in *.
  apply andb_true_iff in H as [H1 H2]. rewrite H1. now apply IH.
Qed.

Lemma prefix_of_length (x d : path) :
  prefix_of x d = true -> List.length x <= List.length d.
Proof.
  revert d; induction x as [|a x IH]; intros d H; simpl; [lia|].
  destruct d as [|b d]; [discriminate|]. simpl in *.
  apply andb_true_iff in H as [_ H]. apply IH in H. lia.
Qed.

Lemma plain_app (a b : path) : plain (a ++ b) = plain a && plain b.
Proof. apply forallb_app. Qed.

Lemma clear_way_file (c : string) (p : path) : clear_way (File c) p = false.
Proof. now destruct p. Qed.

Lemma clear_way_no_file (f : node) (p q r : path) (c : string) :
  clear_way f p = true -> p = q ++ r -> lookup f q <> Some (File c).
Proof.
  revert f p r; induction q as [|x q IH]; intros f p r H E.
  - destruct f; [now rewrite clear_way_file in H|]. simpl. congruence.
  - subst p. destruct f as [c0|es]; [now rewrite clear_way_file in H|].
    cbn [app clear_way] in H. cbn [lookup].
    destruct (find_entry x es) as [n|]; [|congruence].
    now apply (IH n (q ++ r) r).
Qed.

Lemma clear_way_prefix (f : node) (a b : path) :
  clear_way f (a ++ b) = true -> clear_way f a = true.
Proof.
  revert f; induction a as [|x a IH]; intros f H.
  - destruct f; [now rewrite clear_way_file in H|reflexivity].
  - destruct f as [c0|es]; [now rewrite clear_way_file in H|].
    cbn [app clear_way] in *.
    destruct (find_entry x es) as [n|]; auto.
Qed.

(** Along a path without [..] and without a file in the way, the
    operating system arrives where the path says, or misses a
    directory. *)
Lemma walk_plain_cases (f : node) (cur p : path) :
  plain p = true ->
  (forall q r c, p = q ++ r -> lookup f (cur ++ q) <> Some (File c)) ->
  walk f cur p = Ok (cur ++ p) \/ walk f cur p = Err ENOENT.
Proof.
  revert cur; induction p as [|c p IH]; intros cur P NF.
  - left. simpl. now rewrite app_nil_r.
  - cbn [plain forallb] in P. apply andb_true_iff in P as [Pc Pp].
    apply negb_true_iff in Pc. cbn [walk].
    destruct (lookup f cur) as [[c0|es]|] eqn:L.
    + exfalso. apply (NF [] (c :: p) c0 eq_refl). now rewrite app_nil_r.
    + rewrite Pc.
      replace (cur ++ c :: p) with ((cur ++ [c]) ++ p)
        by (now rewrite <- app_assoc).
      apply IH; [exact Pp|].
      intros q r c1 E. rewrite <- app_assoc. apply (NF (c :: q) r).
      simpl. now rewrite E.
    + now right.
Qed.

Lemma walk_plain_dirs (f : node) (cur p : path) (x : string)
      (es : list (string * node)) :
  plain (p ++ [x]) = true -> lookup f (cur ++ p) = Some (Dir es) ->
  walk f cur (p ++ [x]) = Ok (cur ++ p ++ [x]).
Proof.
  revert cur; induction p as [|c p IH]; intros cur P L.
  - rewrite app_nil_r in L. cbn [app walk]. rewrite L.
    cbn [plain forallb] in P. apply andb_true_iff in P as [Pc _].
    apply negb_true_iff in Pc. now rewrite Pc.
  - cbn [app plain forallb] in P. apply andb_true_iff in P as [Pc Pp].
    apply negb_true_iff in Pc. cbn [app walk].
    assert (D : exists es0, lookup f cur = Some (Dir es0)).
    { rewrite lookup_app in L.
      destruct (lookup f cur) as [[c0|es0]|]; try discriminate; eauto. }
    destruct D as [es0 D]. rewrite D, Pc.
    replace (cur ++ c :: p ++ [x]) with ((cur ++ [c]) ++ p ++ [x])
      by (now rewrite <- app_assoc).
    apply IH; [exact Pp|]. now rewrite <- app_assoc.
Qed.

Lemma is_dir_plain (f : node) (p : path) (es : list (string * node)) :
  plain p = true -> lookup f p = Some (Dir es) -> is_dir f p = true.
Proof.
  intros P L. unfold is_dir, stat.
  destruct p as [|a p0]; [simpl in *; now inversion L|].
  destruct (@exists_last _ (a :: p0)) as (l & x & E); [discriminate|].
  rewrite E in *.
  destruct (lookup_parent_dir _ _ _ _ L) as [es0 D].
  rewrite (walk_plain_dirs f [] l x es0 P D). cbn [app]. now rewrite L.
Qed.

Lemma os_mkdir_new (f : node) (d : path) (c : string)
      (es : list (string * node)) :
  plain (d ++ [c]) = true -> lookup f d = Some (Dir es) ->
  lookup f (d ++ [c]) = None ->
  exists f', os_mkdir f (d ++ [c]) = Ok f'
             /\ put f (d ++ [c]) (Dir []) = Some f'.
Proof.
  intros P D L. destruct (put_succeeds _ _ c (Dir []) _ D) as [f' PU].
  exists f'. split; [|exact PU]. unfold os_mkdir.
  rewrite (walk_plain_dirs f [] d c es P D). cbn [app].
  now rewrite L, removelast_snoc, D, PU.
Qed.

Lemma os_mkdir_missing (f : node) (d : path) (c : string) :
  plain (d ++ [c]) = true -> clear_way f (d ++ [c]) = true ->
  lookup f d = None -> os_mkdir f (d ++ [c]) = Err ENOENT.
Proof.
  intros P C L. unfold os_mkdir. rewrite walk_app.
  rewrite plain_app in P. apply andb_true_iff in P as [Pd _].
  destruct (walk_plain_cases f [] d Pd) as [W|W].
  - intros q r c0 E. cbn [app].
    apply (clear_way_no_file f (d ++ [c]) q (r ++ [c]) c0 C).
    now rewrite E, <- app_assoc.
  - rewrite W. cbn [app walk]. now rewrite L.
  - now rewrite W.
Qed.

Lemma mkdir_rec_step (fuel : nat) (f : node) (p : path) :
  p <> [] -> os_mkdir f p = Err ENOENT ->
  mkdir_rec (S fuel) f p
  = match mkdir_rec fuel f (parent p) with
    | Ok f' =>
        match os_mkdir f' p with
        | Ok f'' => Ok f''
        | Err e => if is_dir f' p then Ok f' else Err e
        end
    | Err e => Err e
    end.
Proof.
  intros N E. cbn [mkdir_rec]. rewrite E. destruct p; [congruence|reflexivity].
Qed.

Lemma mkdir_rec_present (fuel : nat) (f : node) (p : path)
      (es : list (string * node)) :
  plain p = true -> lookup f p = Some (Dir es) -> mkdir_rec fuel f p = Ok f.
Proof.
  intros P L. pose proof (is_dir_plain f p es P L) as D.
  destruct (is_dir_inv _ _ D) as (q & es' & S).
  apply stat_inv in S as [W L'].
  assert (E : os_mkdir f p = Err EEXIST)
    by (unfold os_mkdir; now rewrite W, L').
  destruct fuel; simpl; now rewrite E, D.
Qed.

(** [mkdir(parents=True, exist_ok=True)] on a path without [..] and
    without a file in the way: the directory is there afterwards, and
    nothing but directories leading to it has been added. *)
Lemma mkdir_rec_plain (f : node) (d : path) :
  forall fuel,
    plain d = true -> clear_way f d = true -> List.length d <= fuel ->
    exists f',
      mkdir_rec fuel f d = Ok f'
      /\ (exists es, lookup f' d = Some (Dir es))
      /\ grown f f' d.
Proof.
  induction d as [|c d' IH] using rev_ind; intros fuel P C F.
  - destruct f as [c0|es]; [now rewrite clear_way_file in C|].
    exists (Dir es). split; [now apply (mkdir_rec_present _ _ _ es)|].
    split; [now exists es|]. intros x. left. apply alike_refl.
  - pose proof P as P'. rewrite plain_app in P'.
    apply andb_true_iff in P' as [Pd _].
    pose proof (clear_way_prefix _ _ _ C) as Cd.
    rewrite length_app in F. simpl in F.
    destruct fuel as [|fuel]; [lia|].
    destruct (lookup f d') as [[c0|es]|] eqn:L.
    + exfalso.
      exact (clear_way_no_file f (d' ++ [c]) d' [c] c0 C eq_refl L).
    + destruct (lookup f (d' ++ [c])) as [[c1|es1]|] eqn:L1.
      * exfalso.
        apply (clear_way_no_file f (d' ++ [c]) (d' ++ [c]) [] c1 C);
          [now rewrite app_nil_r|exact L1].
      * exists f. split; [now apply (mkdir_rec_present _ _ _ es1)|].
        split; [now exists es1|]. intros x. left. apply alike_refl.
      * destruct (os_mkdir_new f d' c es P L L1) as (f' & M & PU).
        exists f'. split; [cbn [mkdir_rec]; now rewrite M|].
        split; [exists []; apply (put_self _ _ _ _ PU)|].
        intros x. destruct (list_eq_dec string_dec x (d' ++ [c])) as [->|N].
        -- right. split; [exact L1|]. split; [apply prefix_of_refl|].
           exists []. apply (put_self _ _ _ _ PU).
        -- left. apply (put_leaf_elsewhere _ _ _ _ PU);
             [now rewrite L1|reflexivity|exact N].
    + rewrite (mkdir_rec_step fuel f (d' ++ [c]));
        [|destruct d'; discriminate|now apply os_mkdir_missing].
      unfold parent. rewrite removelast_snoc.
      destruct (IH fuel Pd Cd ltac:(lia)) as (f1 & M1 & (es1 & D1) & G1).
      rewrite M1.
      assert (Z : lookup f (d' ++ [c]) = None)
        by (rewrite lookup_app, L; reflexivity).
      assert (L1 : lookup f1 (d' ++ [c]) = None).
      { destruct (G1 (d' ++ [c])) as [A|(_ & Q & _)].
        - rewrite Z in A. now apply alike_none.
        - apply prefix_of_length in Q. rewrite length_app in Q.
          simpl in Q. lia. }
      destruct (os_mkdir_new f1 d' c es1 P D1 L1) as (f2 & M2 & PU).
      rewrite M2. exists f2. split; [reflexivity|].
      split; [exists []; apply (put_self _ _ _ _ PU)|].
      intros x. destruct (list_eq_dec string_dec x (d' ++ [c])) as [->|N].
      * right. split; [exact Z|]. split; [apply prefix_of_refl|].
        exists []. apply (put_self _ _ _ _ PU).
      * assert (A : alike (lookup f1 x) (lookup f2 x)).
        { apply (put_leaf_elsewhere _ _ _ _ PU);
            [now rewrite L1|reflexivity|exact N]. }
        destruct (G1 x) as [B|(Zx & Q & es2 & D2)].
        -- left. now apply (alike_trans _ _ _ B).
        -- right. split; [exact Zx|]. split; [now apply prefix_of_snoc|].
           rewrite D2 in A. now apply alike_dir in A.
Qed.

Lemma mkdir_parents_plain (f : node) (d : path) :
  plain d = true -> clear_way f d = true ->
  exists f',
    mkdir_parents f d = Ok f'
    /\ (exists es, lookup f' d = Some (Dir es))
    /\ grown f f' d.
Proof. intros P C. now apply mkdir_rec_plain. Qed.

(** ** Emptying a directory *)

Lemma prefix_of_split (q x : path) :
  prefix_of q x = true -> exists r, x = (q ++ r)%list.
Proof.
  revert x; induction q as [|a q IH]; intros x H; [now exists x|].
  destruct x as [|b x]; [discriminate|]. cbn [prefix_of] in H.
  apply andb_true_iff in H as [H1 H2]. apply String.eqb_eq in H1. subst b.
  destruct (IH _ H2) as [r ->]. now exists r.
Qed.

Lemma prefix_of_append (q r : path) : prefix_of q (q ++ r)%list = true.
Proof.
  induction q as [|a q IH]; [reflexivity|].
  cbn [app prefix_of]. now rewrite String.eqb_refl.
Qed.

Lemma inside_inv (q x : path) :
  inside q x = true -> exists r, r <> [] /\ x = (q ++ r)%list.
Proof.
  unfold inside. intros H. apply andb_true_iff in H as [P L].
  apply prefix_of_split in P as [r ->]. exists r. split; [|reflexivity].
  intros ->. rewrite app_nil_r in L. apply Nat.ltb_lt in L. lia.
Qed.

Lemma inside_snoc (q : path) (c : string) : inside q (q ++ [c])%list = true.
Proof.
  unfold inside. rewrite prefix_of_append, length_app. cbn [List.length andb].
  apply Nat.ltb_lt. lia.
Qed.


Lemma not_inside_cases (q x : path) :
  inside q x = false -> prefix_of q x = false \/ x = q.
Proof.
  unfold inside. intros H. destruct (prefix_of q x) eqn:P; [|now left].
  right. apply prefix_of_split in P as [r ->]. cbn [andb] in H.
  apply Nat.ltb_ge in H. rewrite length_app in H.
  destruct r; [now rewrite app_nil_r|cbn [List.length] in H; lia].
Qed.

(** Storing a node at [p] changes nothing outside of [p]. *)
Lemma put_elsewhere (f : node) (p : path) (v f' : node) :
  put f p v = Some f' ->
  forall x, prefix_of p x = false -> alike (lookup f x) (lookup f' x).
Proof.
  revert f f'; induction p as [|z p IH]; intros f f' H x N;
    [discriminate|].
  destruct f as [c|es]; [discriminate|].
  destruct x as [|y x].
  { cbn [lookup]. destruct p as [|w p].
    - cbn [put] in H. inversion H; subst. exact I.
    - change (put (Dir es) (z :: w :: p) v)
        with (match find_entry z es with
              | Some c =>
                  match put c (w :: p) v with
                  | Some c' => Some (Dir (set_entry z c' es))
                  | None => None
                  end
              | None => None
              end) in H.
      destruct (find_entry z es) as [c0|]; [|discriminate].
      destruct (put c0 (w :: p) v) as [c0'|]; [|discriminate].
      inversion H; subst. exact I. }
  cbn [prefix_of] in N. cbn [lookup].
  destruct (String.eqb z y) eqn:ZY.
  - apply String.eqb_eq in ZY. subst y. cbn [andb] in N.
    destruct p as [|w p]; [discriminate|].
    change (put (Dir es) (z :: w :: p) v)
      with (match find_entry z es with
            | Some c =>
                match put c (w :: p) v with
                | Some c' => Some (Dir (set_entry z c' es))
                | None => None
                end
            | None => None
            end) in H.
    destruct (find_entry z es) as [c0|] eqn:F; [|discriminate].
    destruct (put c0 (w :: p) v) as [c0'|] eqn:D; [|discriminate].
    inversion H; subst. cbn [lookup]. rewrite find_set_same.
    now apply (IH c0 c0').
  - assert (NE : z <> y) by (now apply String.eqb_neq).
    destruct p as [|w p].
    + cbn [put] in H. inversion H; subst. cbn [lookup].
      rewrite find_set_other by assumption. apply alike_refl.
    + change (put (Dir es) (z :: w :: p) v)
        with (match find_entry z es with
              | Some c =>
                  match put c (w :: p) v with
                  | Some c' => Some (Dir (set_entry z c' es))
                  | None => None
                  end
              | None => None
              end) in H.
      destruct (find_entry z es) as [c0|] eqn:F; [|discriminate].
      destruct (put c0 (w :: p) v) as [c0'|] eqn:D; [|discriminate].
      inversion H; subst. cbn [lookup].
      rewrite find_set_other by assumption. apply alike_refl.
Qed.

(** In an emptied directory there is nothing. *)
Lemma emptied_inside (f : node) (q : path) (f1 : node) (x : path) :
  put f q (Dir []) = Some f1 -> inside q x = true -> lookup f1 x = None.
Proof.
  intros P I. apply inside_inv in I as (r & R & ->).
  rewrite lookup_app, (put_self _ _ _ _ P). now apply leaf_lookup.
Qed.

(** The directories outside of it, and the emptied directory itself,
    are still directories. *)
Lemma emptied_dirs (f : node) (q : path) (f1 : node) (x : path)
      (es0 : list (string * node)) :
  put f q (Dir []) = Some f1 -> lookup f x = Some (Dir es0) ->
  inside q x = false -> exists es', lookup f1 x = Some (Dir es').
Proof.
  intros P L I. destruct (not_inside_cases _ _ I) as [N| ->].
  - pose proof (put_elsewhere _ _ _ _ P x N) as A. rewrite L in A.
    now apply alike_dir in A.
  - rewrite (put_self _ _ _ _ P). eauto.
Qed.

(** Resolving a path once the directory [q] has been emptied: the
    path is found where it was, unless it passes a place inside [q],
    which is no longer there. *)
Lemma walk_emptied (f : node) (q : path) (f1 : node) :
  put f q (Dir []) = Some f1 ->
  forall (comps : list string) (cur q0 : path),
    walk f cur comps = Ok q0 ->
    walk f1 cur comps
    = if existsb (inside q) (visits cur comps) then Err ENOENT else Ok q0.
Proof.
  intros P. induction comps as [|c rest IH]; intros cur q0 W.
  - cbn [walk visits existsb] in *. exact W.
  - cbn [walk visits existsb] in *.
    destruct (lookup f cur) as [[c0|es0]|] eqn:L; try discriminate.
    destruct (inside q cur) eqn:I; cbn [orb].
    + now rewrite (emptied_inside _ _ _ _ P I).
    + destruct (emptied_dirs _ _ _ _ _ P L I) as [es' ->].
      now apply IH.
Qed.

(** A path that ends in [..] passes the place it climbs from. *)
Lemma walk_dotdot_last (f : node) (p : list string) :
  forall (cur q : path),
    walk f cur (p ++ [".."])%list = Ok q ->
    exists r, In r (visits cur (p ++ [".."])%list) /\ q = removelast r.
Proof.
  induction p as [|c p IH]; intros cur q W.
  - cbn [app walk] in W.
    destruct (lookup f cur) as [[c0|es0]|]; try discriminate.
    change (String.eqb ".." "..") with true in W. cbv iota in W.
    inversion W. exists cur. split; [now left|reflexivity].
  - cbn [app walk] in W.
    destruct (lookup f cur) as [[c0|es0]|]; try discriminate.
    destruct (IH _ _ W) as (r & R & Q). exists r.
    split; [|exact Q]. cbn [app visits]. now right.
Qed.

Lemma last_dotdot_inside (f : node) (p q : path) :
  walk f [] p = Ok q -> q <> [] -> last p EmptyString = ".." ->
  passes_inside q p = true.
Proof.
  intros W N L.
  assert (NP : p <> []) by (intros ->; discriminate).
  rewrite (app_removelast_last EmptyString NP), L in W |- *.
  destruct (walk_dotdot_last _ _ _ _ W) as (r & R & Q).
  unfold passes_inside. apply existsb_exists. exists r. split; [exact R|].
  assert (NR : r <> []) by (intros ->; now apply N).
  rewrite (app_removelast_last EmptyString NR), <- Q.
  apply inside_snoc.
Qed.


End FsFacts.

(* ================================================================== *)
(** * Backup names and paths *)
(* ================================================================== *)

Module PathFacts.
Import PyStr Fs Agent Props StrFacts.
Local Open Scope string_scope.

Lemma replace_char (a b : ascii) (s : string) :
  replace s (String a "") (String b "") = subst_char a b s.
Proof.
  unfold replace. induction s as [|c s IH]; simpl; [reflexivity|].
  rewrite Ascii.eqb_sym. destruct (Ascii.eqb c a); simpl; now rewrite IH.
Qed.

Lemma has_char_append (c : ascii) (a b : string) :
  has_char c (a ++ b) = has_char c a || has_char c b.
Proof.
  induction a as [|x a IH]; simpl; [reflexivity|].
  now rewrite IH, orb_assoc.
Qed.

Lemma has_char_subst_gone (a b : ascii) (s : string) :
  a <> b -> has_char a (subst_char a b s) = false.
Proof.
  intros N. induction s as [|c s IH]; simpl; [reflexivity|].
  rewrite IH, orb_false_r.
  destruct (Ascii.eqb c a) eqn:E; [|exact E].
  apply Ascii.eqb_neq. congruence.
Qed.

Lemma has_char_subst_other (a b c : ascii) (s : string) :
  b <> c -> has_char c s = false -> has_char c (subst_char a b s) = false.
Proof.
  intros N. induction s as [|x s IH]; simpl; [reflexivity|].
  intros H. apply orb_false_iff in H as [H1 H2].
  rewrite (IH H2), orb_false_r.
  destruct (Ascii.eqb x a); [|exact H1].
  now apply Ascii.eqb_neq.
Qed.

Lemma length_subst_char (a b : ascii) (s : string) :
  String.length (subst_char a b s) = String.length s.
Proof. induction s; simpl; congruence. Qed.

Lemma split_on_plain (sep : ascii) (s tok : string) :
  has_char sep s = false -> split_on sep s tok = [tok ++ s].
Proof.
  revert tok; induction s as [|c s IH]; simpl; intros tok H.
  - now rewrite append_nil_r.
  - apply orb_false_iff in H as [H1 H2]. rewrite H1, IH by assumption.
    now rewrite append_assoc.
Qed.

Lemma startswith_char (c : ascii) (s : string) :
  has_char c s = false -> startswith s (String c "") = false.
Proof.
  destruct s as [|a s]; cbn [has_char startswith]; [reflexivity|].
  intros H. apply orb_false_iff in H as [H _].
  rewrite Ascii.eqb_sym, H. reflexivity.
Qed.

Lemma long_name_kept (nm : string) :
  3 <= String.length nm ->
  negb (String.eqb nm "") && negb (String.eqb nm ".") = true.
Proof.
  intros L.
  assert (E1 : String.eqb nm "" = false)
    by (apply String.eqb_neq; intros ->; simpl in L; lia).
  assert (E2 : String.eqb nm "." = false)
    by (apply String.eqb_neq; intros ->; simpl in L; lia).
  now rewrite E1, E2.
Qed.

(** A name without a slash that is neither empty nor a dot is one
    component, and joining it appends it. *)
Lemma joinpath_name (p : path) (nm : string) :
  has_char "/"%char nm = false -> 3 <= String.length nm ->
  joinpath p nm = (p ++ [nm])%list.
Proof.
  intros H L. unfold joinpath, parts.
  rewrite split_on_plain by assumption.
  change "/" with (String "/"%char "").
  rewrite (startswith_char _ _ H).
  cbn [filter append]. now rewrite (long_name_kept _ L).
Qed.

Lemma has_char_uint (d : Decimal.uint) :
  has_char "/"%char (DecimalString.NilEmpty.string_of_uint d) = false.
Proof. induction d; cbn [DecimalString.NilEmpty.string_of_uint has_char]; auto. Qed.

Lemma has_char_digits (n : nat) : has_char "/"%char (digits n) = false.
Proof.
  unfold digits, DecimalString.NilZero.string_of_uint.
  destruct (Nat.to_uint n); try reflexivity; apply has_char_uint.
Qed.

Lemma has_char_pad2 (n : nat) : has_char "/"%char (pad2 n) = false.
Proof.
  unfold pad2. destruct (n <? 10)%nat; simpl; apply has_char_digits.
Qed.

Lemma has_char_pad4 (n : nat) : has_char "/"%char (pad4 n) = false.
Proof.
  unfold pad4.
  destruct (n <? 10)%nat; [simpl; apply has_char_digits|].
  destruct (n <? 100)%nat; [simpl; apply has_char_digits|].
  destruct (n <? 1000)%nat; simpl; apply has_char_digits.
Qed.

Lemma has_char_stamp (d : datetime) : has_char "/"%char (stamp d) = false.
Proof.
  unfold stamp.
  rewrite !has_char_append, has_char_pad4, !has_char_pad2. reflexivity.
Qed.

Lemma backup_name_plain (rel_path ts : string) :
  has_char "/"%char ts = false ->
  has_char "/"%char (backup_name rel_path ts) = false
  /\ 3 <= String.length (backup_name rel_path ts).
Proof.
  intros H. unfold backup_name.
  change "/" with (String "/"%char "").
  change "_" with (String "_"%char "").
  change "\" with (String "\"%char "").
  rewrite !replace_char. split.
  - rewrite !has_char_append, H.
    rewrite has_char_subst_other;
      [reflexivity|discriminate|apply has_char_subst_gone; discriminate].
  - rewrite !length_append. simpl. lia.
Qed.

(** The backup of [rel_path] at time [d] lies directly in the backup
    directory. *)
Lemma backup_path (backups : path) (rel_path : string) (d : datetime) :
  joinpath backups (backup_name rel_path (stamp d))
  = (backups ++ [backup_name rel_path (stamp d)])%list
  /\ backup_name rel_path (stamp d) <> "..".
Proof.
  destruct (backup_name_plain rel_path (stamp d) (has_char_stamp d)) as [H L].
  split; [now apply joinpath_name|].
  intros E. rewrite E in L. simpl in L. lia.
Qed.

(** ** The text of one path at the head of another *)













End PathFacts.

(* ================================================================== *)
(** * WRITE and DELETE on the file system *)
(* ================================================================== *)

Module WriteFacts.
Import PyStr Fs Agent FsFacts PathFacts Props Scenario.
Local Open Scope string_scope.

Lemma root_is_dir (f : node) (x : path) (es : list (string * node)) :
  lookup f x = Some (Dir es) -> exists es0, f = Dir es0.
Proof.
  destruct f as [c|es0]; [|eauto].
  destruct x; simpl; discriminate.
Qed.

Lemma walk_backup (f : node) (backups qbd : path) (es : list (string * node))
      (nm : string) :
  stat f backups = Ok (qbd, Dir es) -> nm <> ".." ->
  walk f [] (backups ++ [nm])%list = Ok (qbd ++ [nm])%list.
Proof.
  intros S N. apply stat_inv in S as [W L].
  rewrite walk_app, W. simpl. rewrite L.
  apply String.eqb_neq in N. now rewrite N.
Qed.

Lemma copy2_backup (f : node) (src q : path) (c1 : string)
      (backups qbd : path) (es : list (string * node)) (nm : string) :
  stat f src = Ok (q, File c1) ->
  stat f backups = Ok (qbd, Dir es) ->
  nm <> ".." ->
  not_a_dir (lookup f (qbd ++ [nm])%list) ->
  q <> (qbd ++ [nm])%list ->
  exists f1,
    copy2 f src (backups ++ [nm])%list = Ok f1
    /\ put f (qbd ++ [nm])%list (File c1) = Some f1.
Proof.
  intros S B N ND Q.
  pose proof (walk_backup _ _ _ _ _ B N) as W.
  pose proof (proj2 (stat_inv _ _ _ _ B)) as LB.
  unfold copy2. rewrite S.
  assert (D : is_dir f (backups ++ [nm])%list = false).
  { unfold is_dir, stat. rewrite W.
    destruct (lookup f (qbd ++ [nm])%list) as [[c|es']|]; simpl in *;
      try reflexivity. contradiction. }
  rewrite D.
  destruct (lookup f (qbd ++ [nm])%list) as [[c|es']|] eqn:L;
    simpl in ND; [|contradiction|].
  - rewrite (stat_intro _ _ _ _ W L).
    destruct (list_eq_dec string_dec q (qbd ++ [nm])%list); [contradiction|].
    now apply (write_text_over_file _ _ _ c).
  - assert (E : stat f (backups ++ [nm])%list = Err ENOENT)
      by (unfold stat; now rewrite W, L).
    rewrite E. now apply (write_text_new_file _ _ _ _ es).
Qed.

Lemma parent_is_dir (f : node) (p q : path) (n : node)
      (es0 : list (string * node)) :
  f = Dir es0 -> stat f p = Ok (q, n) -> p <> [] ->
  is_dir f (parent p) = true.
Proof.
  intros R S N. destruct (exists_last N) as (l & x & ->).
  unfold parent. rewrite removelast_snoc.
  apply stat_inv in S as [W _]. rewrite walk_app in W.
  destruct (walk f [] l) as [q'|e] eqn:Wl; [|discriminate].
  simpl in W. destruct (lookup f q') as [[c|es]|] eqn:L; try discriminate.
  unfold is_dir. now rewrite (stat_intro _ _ _ _ Wl L).
Qed.

Lemma is_dir_kept (f f' : node) (p : path) :
  dirs_kept f f' -> is_dir f p = true -> is_dir f' p = true.
Proof.
  intros K D. destruct (is_dir_inv _ _ D) as (q & es & S).
  apply stat_inv in S as [W L]. destruct (K _ _ L) as [es' L'].
  unfold is_dir. now rewrite (stat_intro _ _ _ _ (walk_kept _ _ _ _ _ K W) L').
Qed.

(** Two files stored one after the other at different places. *)
Lemma two_puts (f f1 f2 : node) (b q : path) (c0 c1 c2 : string) :
  put f b (File c1) = Some f1 -> not_a_dir (lookup f b) ->
  lookup f q = Some (File c0) -> q <> b ->
  put f1 q (File c2) = Some f2 ->
  lookup f2 q = Some (File c2) /\ lookup f2 b = Some (File c1)
  /\ dirs_kept f f2
  /\ (forall x, x <> b -> x <> q -> alike (lookup f x) (lookup f2 x)).
Proof.
  intros P1 ND Lq N P2.
  pose proof (put_file_elsewhere _ _ _ _ P1 ND) as A1.
  assert (L1 : lookup f1 q = Some (File c0)).
  { specialize (A1 q N). rewrite Lq in A1. simpl in A1.
    destruct (lookup f1 q) as [[c|es]|]; try contradiction. now subst. }
  assert (ND1 : not_a_dir (lookup f1 q)) by (rewrite L1; exact I).
  pose proof (put_file_elsewhere _ _ _ _ P2 ND1) as A2.
  split; [now apply (put_self f1)|]. split.
  - specialize (A2 b (not_eq_sym N)).
    rewrite (put_self _ _ _ _ P1) in A2. simpl in A2.
    destruct (lookup f2 b) as [[c|es]|]; try contradiction. now subst.
  - split.
    + intros x es H.
      destruct (put_file_dirs_kept _ _ _ _ P1 ND x es H) as [es1 H1].
      exact (put_file_dirs_kept _ _ _ _ P2 ND1 x es1 H1).
    + intros x Nb Nq. specialize (A1 x Nb). specialize (A2 x Nq).
      destruct (lookup f x) as [[a|a]|], (lookup f1 x) as [[a1|a1]|],
        (lookup f2 x) as [[a2|a2]|]; simpl in *; try contradiction;
        congruence.
Qed.

Section Posix.
Variable os_shell : spawn -> node -> proc * node.

Lemma handle_write_confirmed (rel new_content line : string)
      (rest : list string) (st : state) :
  stdin (env st) = line :: rest ->
  yes_or_y (strip (lower line)) = true ->
  handle_write false rel new_content st
  = write_confirmed (backup_dir (self st)) (normalize_path false rel)
      (joinpath (root_dir (self st)) (normalize_path false rel))
      (exists_ (fs (env st))
               (joinpath (root_dir (self st)) (normalize_path false rel)))
      new_content (consume AskApplyChanges st).
Proof.
  intros E Y. unfold handle_write. cbv zeta.
  unfold bind at 1. unfold get at 1. cbv beta iota.
  unfold bind at 1. unfold input. rewrite E, Y. reflexivity.
Qed.

(** A confirmed WRITE over an existing file: the two stores it makes. *)
Lemma write_confirmed_existing (backups : path) (rel new_content : string)
      (path q qbd : path) (c1 : string) (es : list (string * node))
      (st : state) :
  let nm := backup_name rel (stamp (now (env st))) in
  stat (fs (env st)) path = Ok (q, File c1) ->
  stat (fs (env st)) backups = Ok (qbd, Dir es) ->
  not_a_dir (lookup (fs (env st)) (qbd ++ [nm])%list) ->
  q <> (qbd ++ [nm])%list ->
  exists f1 f2,
    put (fs (env st)) (qbd ++ [nm])%list (File c1) = Some f1
    /\ put f1 q (File new_content) = Some f2
    /\ write_confirmed backups rel path true new_content st
       = (Return ("SYSTEM: File " ++ rel ++ " updated successfully."),
          mk_state (self st) (with_fs (env st) f2)).
Proof.
  intros nm S B ND Q.
  destruct (backup_path backups rel (now (env st))) as [J N].
  fold nm in J, N.
  destruct (copy2_backup _ _ _ _ _ _ _ _ S B N ND Q) as (f1 & C & P1).
  pose proof (put_file_elsewhere _ _ _ _ P1 ND) as A1.
  pose proof (put_file_dirs_kept _ _ _ _ P1 ND) as K1.
  destruct (stat_inv _ _ _ _ S) as [W L].
  destruct (stat_inv _ _ _ _ B) as [WB LB].
  destruct (root_is_dir _ _ _ LB) as [es0 R].
  assert (NP : path <> []).
  { intros ->. simpl in W. inversion W; subst q. rewrite R in L.
    simpl in L. discriminate. }
  assert (L1 : lookup f1 q = Some (File c1)).
  { specialize (A1 q Q). rewrite L in A1. simpl in A1.
    destruct (lookup f1 q) as [[c|es']|]; try contradiction. now subst. }
  pose proof (walk_kept _ _ _ _ _ K1 W) as W1.
  destruct (write_text_over_file _ _ _ _ new_content W1 L1) as (f2 & T & P2).
  assert (M : mkdir_parents f1 (parent path) = Ok f1).
  { apply mkdir_parents_present. apply (is_dir_kept _ _ _ K1).
    now apply (parent_is_dir _ _ _ _ _ R S). }
  exists f1, f2. split; [exact P1|]. split; [exact P2|].
  unfold write_confirmed, try_except, bind, datetime_now, fs_update, ret.
  cbn [fs env self]. fold nm. rewrite J, C.
  cbn [fs env self with_fs]. rewrite M.
  cbn [fs env self with_fs]. rewrite T. reflexivity.
Qed.

Lemma lookup_removelast (f : node) (q : path) (n : node) :
  lookup f q = Some n -> exists m, lookup f (removelast q) = Some m.
Proof.
  intros H. destruct q as [|x q]; [eauto|].
  assert (N : x :: q <> []) by discriminate.
  destruct (exists_last N) as (l & y & E). rewrite E in *.
  rewrite removelast_snoc.
  destruct (lookup_parent_dir _ _ _ _ H) as [es D]. eauto.
Qed.

(** Where a path that does not exist, but whose parent does, would be
    created. *)
Lemma new_file_location (f : node) (path : path) :
  exists_ f path = false -> is_dir f (parent path) = true ->
  exists l x es,
    walk f [] path = Ok (l ++ [x])%list
    /\ lookup f (l ++ [x])%list = None
    /\ lookup f l = Some (Dir es).
Proof.
  intros E D.
  destruct path as [|c0 path0] eqn:EP.
  { unfold exists_, stat in E. simpl in E. discriminate. }
  assert (N : c0 :: path0 <> []) by discriminate.
  destruct (exists_last N) as (l & x & EL). rewrite EL in *. clear EL N.
  unfold parent in D. rewrite removelast_snoc in D.
  destruct (is_dir_inv _ _ D) as (q' & es & S).
  apply stat_inv in S as [W L].
  assert (W2 : walk f [] (l ++ [x])%list
               = Ok (if String.eqb x ".." then removelast q'
                     else (q' ++ [x])%list)).
  { rewrite walk_app, W. simpl. now rewrite L. }
  destruct (String.eqb x "..") eqn:X.
  - exfalso. destruct (lookup_removelast _ _ _ L) as [m Lm].
    unfold exists_ in E. rewrite (stat_intro _ _ _ _ W2 Lm) in E.
    discriminate.
  - exists q', x, es. split; [exact W2|]. split; [|exact L].
    destruct (lookup f (q' ++ [x])%list) as [n|] eqn:Ln; [|reflexivity].
    unfold exists_ in E. rewrite (stat_intro _ _ _ _ W2 Ln) in E.
    discriminate.
Qed.


(** A confirmed WRITE to a path that does not exist in an existing
    directory: one store, no backup. *)
Lemma write_confirmed_new (backups : path) (rel new_content : string)
      (path : path) (st : state) :
  exists_ (fs (env st)) path = false ->
  is_dir (fs (env st)) (parent path) = true ->
  exists q f2,
    walk (fs (env st)) [] path = Ok q
    /\ lookup (fs (env st)) q = None
    /\ put (fs (env st)) q (File new_content) = Some f2
    /\ write_confirmed backups rel path false new_content st
       = (Return ("SYSTEM: File " ++ rel ++ " updated successfully."),
          mk_state (self st) (with_fs (env st) f2)).
Proof.
  intros E D.
  destruct (new_file_location _ _ E D) as (l & x & es & W & L & LD).
  destruct (write_text_new_file _ _ _ _ _ new_content W L LD) as (f2 & T & P).
  exists (l ++ [x])%list, f2.
  split; [exact W|]. split; [exact L|]. split; [exact P|].
  unfold write_confirmed, try_except, bind, fs_update, ret.
  cbn [fs env self]. rewrite (mkdir_parents_present _ _ D).
  cbn [fs env self with_fs]. rewrite T. reflexivity.
Qed.

(** A confirmed WRITE to a path that does not exist, without [..] and
    with no file in the way: the directories that are missing are made,
    then the file is stored; no backup. *)
Lemma write_confirmed_new_dirs (backups : path) (rel new_content : string)
      (path : path) (st : state) :
  exists_ (fs (env st)) path = false ->
  plain path = true -> clear_way (fs (env st)) path = true ->
  exists f2,
    write_confirmed backups rel path false new_content st
    = (Return ("SYSTEM: File " ++ rel ++ " updated successfully."),
       mk_state (self st) (with_fs (env st) f2))
    /\ walk f2 [] path = Ok path
    /\ lookup f2 path = Some (File new_content)
    /\ lookup (fs (env st)) path = None
    /\ forall x, x <> path ->
                 alike (lookup (fs (env st)) x) (lookup f2 x)
                 \/ (lookup (fs (env st)) x = None
                     /\ prefix_of x (parent path) = true
                     /\ exists es, lookup f2 x = Some (Dir es)).
Proof.
  intros E P C.
  destruct path as [|c0 path0] eqn:EP.
  { unfold exists_, stat in E. simpl in E. discriminate. }
  assert (N : c0 :: path0 <> []) by discriminate.
  destruct (exists_last N) as (d & x & EL). rewrite EL in *. clear EL N EP.
  pose proof P as P'. rewrite plain_app in P'.
  apply andb_true_iff in P' as [Pd _].
  pose proof (clear_way_prefix _ _ _ C) as Cd.
  destruct (mkdir_parents_plain _ _ Pd Cd) as (f1 & M1 & (es1 & D1) & G1).
  assert (L0 : lookup (fs (env st)) (d ++ [x])%list = None).
  { destruct (lookup (fs (env st)) (d ++ [x])%list) as [n|] eqn:L;
      [exfalso|reflexivity].
    destruct (lookup_parent_dir _ _ _ _ L) as [es0 D0].
    pose proof (walk_plain_dirs (fs (env st)) [] d x es0 P D0) as W.
    unfold exists_ in E. now rewrite (stat_intro _ _ _ _ W L) in E. }
  assert (L1 : lookup f1 (d ++ [x])%list = None).
  { destruct (G1 (d ++ [x])%list) as [A|(_ & Q & _)].
    - rewrite L0 in A. now apply alike_none.
    - apply prefix_of_length in Q. rewrite length_app in Q.
      simpl in Q. lia. }
  pose proof (walk_plain_dirs f1 [] d x es1 P D1) as W1. cbn [app] in W1.
  destruct (write_text_new_file _ _ _ _ _ new_content W1 L1 D1)
    as (f2 & T & PU).
  assert (ND : not_a_dir (lookup f1 (d ++ [x])%list)) by (now rewrite L1).
  exists f2. split.
  { unfold write_confirmed, try_except, bind, fs_update, ret.
    cbn [fs env self]. unfold parent. rewrite removelast_snoc, M1.
    cbn [fs env self with_fs]. rewrite T. reflexivity. }
  split; [exact (walk_kept _ _ _ _ _ (put_file_dirs_kept _ _ _ _ PU ND) W1)|].
  split; [exact (put_self _ _ _ _ PU)|]. split; [exact L0|].
  intros y Ny. unfold parent. rewrite removelast_snoc.
  pose proof (put_file_elsewhere _ _ _ _ PU ND y Ny) as A.
  destruct (G1 y) as [B|(Zy & Q & es2 & D2)].
  - left. now apply (alike_trans _ _ _ B).
  - right. split; [exact Zy|]. split; [exact Q|].
    rewrite D2 in A. now apply alike_dir in A.
Qed.

(** A confirmed WRITE over an existing file, on the disk: the handler
    reports success, the backup holds the old content, the target the
    new one, and nothing else changes. *)
Lemma handle_write_existing (rel new_content line : string)
      (rest : list string) (st : state) (q : path) (c1 : string) :
  let rel' := normalize_path false rel in
  let target := joinpath (root_dir (self st)) rel' in
  let bak := joinpath (backup_dir (self st))
                      (backup_name rel' (stamp (now (env st)))) in
  stdin (env st) = line :: rest ->
  yes_or_y (strip (lower line)) = true ->
  stat (fs (env st)) target = Ok (q, File c1) ->
  is_dir (fs (env st)) (backup_dir (self st)) = true ->
  is_dir (fs (env st)) bak = false ->
  (forall qb n, stat (fs (env st)) bak = Ok (qb, n) -> qb <> q) ->
  exists f2 qb,
    handle_write false rel new_content st
    = (Return ("SYSTEM: File " ++ rel' ++ " updated successfully."),
       mk_state (self st) (with_fs (env (consume AskApplyChanges st)) f2))
    /\ walk (fs (env st)) [] bak = Ok qb
    /\ walk f2 [] bak = Ok qb
    /\ lookup f2 qb = Some (File c1)
    /\ walk f2 [] target = Ok q
    /\ lookup f2 q = Some (File new_content)
    /\ qb <> q
    /\ dirs_kept (fs (env st)) f2
    /\ (forall x, x <> qb -> x <> q ->
                  alike (lookup (fs (env st)) x) (lookup f2 x)).
Proof.
  intros rel' target bak E Y S B D NB.
  rewrite (handle_write_confirmed _ _ _ _ _ E Y).
  fold rel'. fold target.
  assert (X : exists_ (fs (env st)) target = true)
    by (unfold exists_; now rewrite S).
  rewrite X.
  destruct (is_dir_inv _ _ B) as (qbd & es & SB).
  destruct (backup_path (backup_dir (self st)) rel' (now (env st)))
    as [J N].
  unfold bak in *. rewrite J in *.
  pose proof (walk_backup _ _ _ _ _ SB N) as WB.
  set (nm := backup_name rel' (stamp (now (env st)))) in *.
  assert (ND : not_a_dir (lookup (fs (env st)) (qbd ++ [nm])%list)).
  { unfold is_dir, stat in D. rewrite WB in D.
    destruct (lookup (fs (env st)) (qbd ++ [nm])%list) as [[c|es']|];
      simpl; auto. discriminate. }
  destruct (stat_inv _ _ _ _ S) as [W L].
  assert (Q : q <> (qbd ++ [nm])%list).
  { intros ->. apply (NB (qbd ++ [nm])%list (File c1)); [|reflexivity].
    now apply stat_intro. }
  destruct (write_confirmed_existing (backup_dir (self st)) rel'
              new_content target q qbd c1 es (consume AskApplyChanges st)
              S SB ND Q) as (f1 & f2 & P1 & P2 & R).
  fold nm in R. rewrite R.
  destruct (two_puts _ _ _ _ _ _ _ _ P1 ND L Q P2) as (L2 & LB2 & K & A).
  exists f2, (qbd ++ [nm])%list.
  split; [reflexivity|]. split; [exact WB|].
  split; [exact (walk_kept _ _ _ _ _ K WB)|]. split; [exact LB2|].
  split; [exact (walk_kept _ _ _ _ _ K W)|]. split; [exact L2|].
  split; [congruence|]. split; [exact K|exact A].
Qed.


End Posix.


Lemma exists_false_lookup (f : node) (p q : path) :
  exists_ f p = false -> walk f [] p = Ok q -> lookup f q = None.
Proof.
  intros E W. destruct (lookup f q) as [n|] eqn:L; [|reflexivity].
  unfold exists_ in E. now rewrite (stat_intro _ _ _ _ W L) in E.
Qed.

Lemma stat_kept_file (f f2 : node) (p q qa qb : path) (c : string) :
  dirs_kept f f2 ->
  (forall x, x <> qa -> x <> qb -> alike (lookup f x) (lookup f2 x)) ->
  stat f p = Ok (q, File c) -> q <> qa -> q <> qb ->
  stat f2 p = Ok (q, File c).
Proof.
  intros K A S Na Nb. apply stat_inv in S as [W L].
  apply stat_intro; [exact (walk_kept _ _ _ _ _ K W)|].
  specialize (A q Na Nb). rewrite L in A. simpl in A.
  destruct (lookup f2 q) as [[c'|es]|]; try contradiction. now subst.
Qed.

(** C10.  The relative paths [a/b.txt] and [a_b.txt] are distinct and
    get the same backup name at every timestamp; when both files are
    overwritten by confirmed WRITEs within the same second, both
    handlers report success, the backup made by the first WRITE holds
    the old content of [a/b.txt], and after the second WRITE the same
    backup file holds the old content of [a_b.txt] instead: the earlier
    backup is overwritten without notice. *)
Theorem C10_backup_name_collision :
  "a/b.txt" <> "a_b.txt"
  /\ (forall ts,
        backup_name (normalize_path false "a/b.txt") ts
        = backup_name (normalize_path false "a_b.txt") ts)
  /\ (forall (st : state) (n1 n2 l1 l2 : string) (rest : list string)
             (q1 q2 : path) (c1 c2 : string),
        let bak := joinpath (backup_dir (self st))
                            (backup_name "a_b.txt" (stamp (now (env st)))) in
        stdin (env st) = l1 :: l2 :: rest ->
        yes_or_y (strip (lower l1)) = true ->
        yes_or_y (strip (lower l2)) = true ->
        is_dir (fs (env st)) (backup_dir (self st)) = true ->
        exists_ (fs (env st)) bak = false ->
        stat (fs (env st)) (joinpath (root_dir (self st)) "a/b.txt")
        = Ok (q1, File c1) ->
        stat (fs (env st)) (joinpath (root_dir (self st)) "a_b.txt")
        = Ok (q2, File c2) ->
        q1 <> q2 ->
        let r1 := handle_write false "a/b.txt" n1 st in
        let r2 := handle_write false "a_b.txt" n2 (snd r1) in
        now (env (snd r1)) = now (env st)
        /\ fst r1 = Return "SYSTEM: File a/b.txt updated successfully."
        /\ fst r2 = Return "SYSTEM: File a_b.txt updated successfully."
        /\ file_text (fs (env (snd r1))) bak = Ok c1
        /\ file_text (fs (env (snd r2))) bak = Ok c2).
Proof.
  split; [discriminate|]. split; [reflexivity|].
  intros st n1 n2 l1 l2 rest q1 q2 c1 c2 bak E Y1 Y2 B X S1 S2 N.
  assert (D : is_dir (fs (env st)) bak = false).
  { unfold is_dir. unfold exists_ in X.
    destruct (stat (fs (env st)) bak) as [[? ?]|]; [discriminate|reflexivity]. }
  assert (NB : forall q qb n, stat (fs (env st)) bak = Ok (qb, n) -> qb <> q).
  { intros q qb n H. unfold exists_ in X. now rewrite H in X. }
  destruct (handle_write_existing "a/b.txt" n1 l1 (l2 :: rest) st q1 c1
              E Y1 S1 B D (NB q1))
    as (f2 & qb & R1 & W0 & WB & LB & W1 & L1 & Nq1 & K & A).
  change (joinpath (backup_dir (self st))
            (backup_name (normalize_path false "a/b.txt")
               (stamp (now (env st))))) with bak in *.
  change (normalize_path false "a/b.txt") with "a/b.txt" in R1.
  cbv zeta. rewrite R1. cbn [fst snd].
  set (st1 := mk_state (self st)
                (with_fs (env (consume AskApplyChanges st)) f2)).
  pose proof (exists_false_lookup _ _ _ X W0) as L0.
  assert (Nq2 : q2 <> qb).
  { intros ->. apply stat_inv in S2 as [_ L2]. congruence. }
  assert (S2' : stat (fs (env st1)) (joinpath (root_dir (self st1)) "a_b.txt")
                = Ok (q2, File c2)).
  { apply (stat_kept_file (fs (env st)) f2 _ q2 qb q1); auto. }
  assert (SB' : stat (fs (env st1)) bak = Ok (qb, File c1))
    by (now apply stat_intro).
  assert (E1 : stdin (env st1) = l2 :: rest)
    by (cbn [st1 env stdin with_fs consume]; now rewrite E).
  assert (B1 : is_dir (fs (env st1)) (backup_dir (self st1)) = true)
    by (exact (is_dir_kept _ _ _ K B)).
  assert (D1 : is_dir (fs (env st1)) bak = false)
    by (unfold is_dir; now rewrite SB').
  assert (NB1 : forall qb' n, stat (fs (env st1)) bak = Ok (qb', n) -> qb' <> q2).
  { intros qb' n H. rewrite SB' in H. inversion H; subst. auto. }
  destruct (handle_write_existing "a_b.txt" n2 l2 rest st1 q2 c2
              E1 Y2 S2' B1 D1 NB1)
    as (f4 & qb' & R2 & W0' & WB' & LB' & _).
  change (joinpath (backup_dir (self st1))
            (backup_name (normalize_path false "a_b.txt")
               (stamp (now (env st1))))) with bak in *.
  change (normalize_path false "a_b.txt") with "a_b.txt" in R2.
  rewrite R2. cbn [fst snd env fs with_fs st1].
  split; [reflexivity|]. split; [reflexivity|]. split; [reflexivity|].
  split.
  - now apply (file_text_intro _ _ qb).
  - now apply (file_text_intro _ _ qb').
Qed.

(** C10 at work: two confirmed WRITEs in the same second leave one
    backup file, holding the old content of the second target. *)
Lemma C10_witness :
  let st := start_on disk_ab ["y"; "y"] in
  let r1 := handle_write false "a/b.txt" "new one" st in
  let r2 := handle_write false "a_b.txt" "new two" (snd r1) in
  file_text (fs (env (snd r1)))
            ["proj"; ".vibe"; "backups"; "a_b.txt_20261104_093000.bak"] = Ok "one"
  /\ file_text (fs (env (snd r2)))
               ["proj"; ".vibe"; "backups"; "a_b.txt_20261104_093000.bak"] = Ok "two"
  /\ lookup (fs (env (snd r2))) ["proj"; ".vibe"; "backups"]
     = Some (Dir [("a_b.txt_20261104_093000.bak", File "two")]).
Proof.
  cbv zeta.
  destruct (proj2 (proj2 C10_backup_name_collision)
              (start_on disk_ab ["y"; "y"]) "new one" "new two" "y" "y" []
              ["proj"; "a"; "b.txt"] ["proj"; "a_b.txt"] "one" "two"
              eq_refl eq_refl eq_refl eq_refl eq_refl eq_refl eq_refl
              ltac:(discriminate))
    as (_ & _ & _ & B1 & B2).
  split; [exact B1|]. split; [exact B2|].
  vm_compute. reflexivity.
Defined.

(** ** DELETE *)

Lemma handle_delete_confirmed (rel line : string) (rest : list string)
      (st : state) :
  let rel' := normalize_path false rel in
  let target := joinpath (root_dir (self st)) rel' in
  let is_dir_ := is_dir (fs (env st)) target in
  let item_type := if is_dir_ then "directory" else "file" in
  stdin (env st) = line :: rest ->
  yes_or_y (strip (lower line)) = true ->
  exists_ (fs (env st)) target = true ->
  handle_delete false rel st
  = delete_confirmed (backup_dir (self st)) rel' target is_dir_ item_type
      (consume (AskDelete item_type) st).
Proof.
  intros rel' target is_dir_ item_type E Y X. unfold handle_delete.
  cbv zeta. unfold bind at 1. unfold get at 1. cbv beta iota.
  fold rel'. fold target. rewrite X. cbv beta iota delta [negb].
  unfold bind at 1. unfold input. rewrite E, Y. reflexivity.
Qed.

(** [rmtree] on a directory other than the root of the disk: the
    directory is emptied; it is then removed if the path still leads to
    it, and left behind with a [FileNotFoundError] if the path passes a
    place that was inside it. *)
Lemma rmtree_dir (p q : path) (es : list (string * node)) (st : state) :
  stat (fs (env st)) p = Ok (q, Dir es) -> q <> [] ->
  exists f1,
    put (fs (env st)) q (Dir []) = Some f1
    /\ if passes_inside q p
       then rmtree p st
            = (Raise (OSError ENOENT p),
               mk_state (self st) (with_fs (env st) f1))
       else exists f2,
              del f1 q = Some f2
              /\ rmtree p st
                 = (Return tt, mk_state (self st) (with_fs (env st) f2)).
Proof.
  intros S N. destruct (stat_inv _ _ _ _ S) as [W L].
  destruct (put_where_found _ _ _ (Dir []) L) as [f1 P].
  exists f1. split; [exact P|].
  pose proof (walk_emptied _ _ _ P _ _ _ W) as W1.
  fold (passes_inside q p) in W1.
  assert (NP : p <> []) by (intros ->; cbn in W; inversion W; now apply N).
  assert (R1 : fs_update (fun f => _rmtree_safe_fd f p) p st
               = (Return tt, mk_state (self st) (with_fs (env st) f1))).
  { unfold fs_update, _rmtree_safe_fd. now rewrite S, P. }
  destruct (passes_inside q p) eqn:PI.
  - unfold rmtree, bind. rewrite R1. unfold fs_update, os_rmdir.
    cbn [fs env self with_fs]. rewrite W1.
    destruct p; [contradiction|reflexivity].
  - assert (LD : last p EmptyString <> "..").
    { intros LD. rewrite (last_dotdot_inside _ _ _ W N LD) in PI.
      discriminate. }
    apply String.eqb_neq in LD.
    destruct (del_where_found _ _ _ N (put_self _ _ _ _ P)) as [f2 D].
    exists f2. split; [exact D|].
    unfold rmtree, bind. rewrite R1. unfold fs_update, os_rmdir.
    cbn [fs env self with_fs]. rewrite W1, LD, (put_self _ _ _ _ P), D.
    destruct p; [contradiction|reflexivity].
Qed.

Lemma delete_confirmed_dir (backups : path) (rel : string) (path q : path)
      (es : list (string * node)) (st : state) :
  stat (fs (env st)) path = Ok (q, Dir es) -> q <> [] ->
  exists f1,
    put (fs (env st)) q (Dir []) = Some f1
    /\ if passes_inside q path
       then delete_confirmed backups rel path true "directory" st
            = (Return ("SYSTEM: Delete error: "
                       ++ "[Errno 2] No such file or directory: '"
                       ++ str path ++ "'"),
               mk_state (self st) (with_fs (env st) f1))
       else exists f2,
              del f1 q = Some f2
              /\ delete_confirmed backups rel path true "directory" st
                 = (Return ("SYSTEM: Directory " ++ rel
                            ++ " deleted successfully."),
                    mk_state (self st) (with_fs (env st) f2)).
Proof.
  intros S N. destruct (rmtree_dir _ _ _ _ S N) as (f1 & P & R).
  exists f1. split; [exact P|].
  destruct (passes_inside q path).
  - unfold delete_confirmed, try_except, bind, ret.
    cbn [negb]. unfold bind in R. rewrite R. reflexivity.
  - destruct R as (f2 & D & R). exists f2. split; [exact D|].
    unfold delete_confirmed, try_except, bind, ret.
    cbn [negb]. unfold bind in R. rewrite R. reflexivity.
Qed.

Lemma delete_confirmed_file (backups : path) (rel : string)
      (path q qbd : path) (c1 : string) (es : list (string * node))
      (st : state) :
  let nm := backup_name rel (stamp (now (env st))) in
  stat (fs (env st)) path = Ok (q, File c1) ->
  stat (fs (env st)) backups = Ok (qbd, Dir es) ->
  not_a_dir (lookup (fs (env st)) (qbd ++ [nm])%list) ->
  q <> (qbd ++ [nm])%list ->
  exists f1 f2,
    put (fs (env st)) (qbd ++ [nm])%list (File c1) = Some f1
    /\ del f1 q = Some f2
    /\ delete_confirmed backups rel path false "file" st
       = (Return ("SYSTEM: File " ++ rel ++ " deleted successfully."),
          mk_state (self st) (with_fs (env st) f2)).
Proof.
  intros nm S B ND Q.
  destruct (backup_path backups rel (now (env st))) as [J N].
  fold nm in J, N.
  destruct (copy2_backup _ _ _ _ _ _ _ _ S B N ND Q) as (f1 & C & P1).
  pose proof (put_file_elsewhere _ _ _ _ P1 ND) as A1.
  pose proof (put_file_dirs_kept _ _ _ _ P1 ND) as K1.
  destruct (stat_inv _ _ _ _ S) as [W L].
  destruct (stat_inv _ _ _ _ B) as [WB LB].
  destruct (root_is_dir _ _ _ LB) as [es0 R].
  assert (NQ : q <> []).
  { intros ->. rewrite R in L. simpl in L. discriminate. }
  assert (L1 : lookup f1 q = Some (File c1)).
  { specialize (A1 q Q). rewrite L in A1. simpl in A1.
    destruct (lookup f1 q) as [[c|es']|]; try contradiction. now subst. }
  pose proof (stat_intro _ _ _ _ (walk_kept _ _ _ _ _ K1 W) L1) as S1.
  destruct (del_where_found _ _ _ NQ L1) as [f2 D].
  exists f1, f2. split; [exact P1|]. split; [exact D|].
  unfold delete_confirmed, try_except, bind, datetime_now, fs_update, ret,
    unlink.
  cbn [negb fs env self]. fold nm. rewrite J, C.
  cbn [fs env self with_fs]. rewrite S1, D. reflexivity.
Qed.






End WriteFacts.

(* ================================================================== *)
(** * Containment in the project root *)
(* ================================================================== *)

Module Containment.
Import PyStr Fs Agent Scenario.
Local Open Scope string_scope.

(** C1 at its failing inputs, with [/proj] as project root.  A WRITE
    to [../evil.txt], confirmed with [y], resolves to [/evil.txt],
    outside of the root; the handler reports success and the file is
    there afterwards, although it was not before.  A READ of
    [../proj-old/secret.txt] resolves to [/proj-old/secret.txt], outside
    of the root as well, yet the text comparison of READ's check lets it
    through and the content of the file is returned. *)
Theorem C1_write_escapes_root :
  let w := handle_write false "../evil.txt" "x" (start ["y"]) in
  let r := handle_read false "../proj-old/secret.txt" (start []) in
  resolve (joinpath ["proj"] "../evil.txt") = ["evil.txt"]
  /\ lookup disk ["evil.txt"] = None
  /\ fst w = Return "SYSTEM: File ../evil.txt updated successfully."
  /\ lookup (fs (env (snd w))) ["evil.txt"] = Some (File "x")
  /\ resolve (joinpath ["proj"] "../proj-old/secret.txt")
     = ["proj-old"; "secret.txt"]
  /\ fst r = Return ("SYSTEM: Content of ../proj-old/secret.txt:" ++ LF
                     ++ "hunter2").
Proof.
  cbv zeta. repeat split; vm_compute; reflexivity.
Qed.

End Containment.

(* ================================================================== *)
(** * The matcher on a single WRITE block *)
(* ================================================================== *)

Module RegexFacts.
Import PyStr Props StrFacts Regex.
Local Open Scope string_scope.

Lemma drop_append (a b : string) : drop (String.length a) (a ++ b) = b.
Proof. induction a; simpl; auto. Qed.

Lemma isspace_LF : isspace (ascii_of_nat 10) = true.
Proof. reflexivity. Qed.

Lemma starts_LF (c : ascii) (r : string) :
  startswith (String c r) LF = Ascii.eqb (ascii_of_nat 10) c.
Proof. unfold LF. cbn [startswith]. apply andb_true_r. Qed.

Section Repetition.
Context {R : Type}.

(** Greedy whitespace takes the whole run when the continuation accepts
    it there. *)
Lemma greedy_whole (w rest acc : string) (min : nat)
      (k : string -> string -> option R) (x : R) :
  all_space w = true -> starts_nonspace rest = true ->
  min <= String.length w ->
  k (acc ++ w) rest = Some x ->
  rep_greedy Space min acc (w ++ rest) k = Some x.
Proof.
  revert acc min; induction w as [|c w IH]; intros acc min W N M K.
  - simpl in M. assert (min = 0) by lia. subst min.
    rewrite append_nil_r in K. simpl.
    destruct rest as [|c r]; simpl; [exact K|].
    simpl in N. apply negb_true_iff in N. now rewrite N.
  - simpl in W. apply andb_true_iff in W as [Wc Ww].
    cbn [append rep_greedy in_cls]. rewrite Wc.
    rewrite (IH (acc ++ String c "") (pred min)); auto.
    + simpl in M. lia.
    + now rewrite append_assoc.
Qed.

(** Greedy whitespace fails when the continuation refuses every split
    of the run. *)
Lemma greedy_none (w rest acc : string) (min : nat)
      (k : string -> string -> option R) :
  all_space w = true -> starts_nonspace rest = true ->
  (forall a b, w = a ++ b -> k (acc ++ a) (b ++ rest) = None) ->
  rep_greedy Space min acc (w ++ rest) k = None.
Proof.
  revert acc min; induction w as [|c w IH]; intros acc min W N K.
  - assert (H : k acc rest = None).
    { specialize (K "" "" eq_refl). now rewrite append_nil_r in K. }
    simpl. destruct rest as [|c r]; simpl.
    + destruct min; auto.
    + simpl in N. apply negb_true_iff in N. rewrite N. destruct min; auto.
  - simpl in W. apply andb_true_iff in W as [Wc Ww].
    cbn [append rep_greedy in_cls]. rewrite Wc.
    rewrite (IH (acc ++ String c "") (pred min)); auto.
    + destruct min; [|reflexivity].
      specialize (K "" (String c w) eq_refl).
      now rewrite append_nil_r in K.
    + intros a b E. specialize (K (String c a) b).
      rewrite append_assoc. apply K. simpl. now rewrite E.
Qed.

(** Greedy whitespace followed by a newline stops at the last newline
    of the run. *)
Lemma greedy_last_newline (wa wb rest acc : string)
      (K : string -> option R) (x : R) :
  all_space wa = true -> all_space wb = true ->
  has_char (ascii_of_nat 10) wb = false ->
  starts_nonspace rest = true ->
  K (wb ++ rest) = Some x ->
  rep_greedy Space 0 acc (wa ++ LF ++ wb ++ rest)
    (fun _ r => if startswith r LF then K (drop 1 r) else None)
  = Some x.
Proof.
  intros Wa Wb H N Kx.
  assert (G : forall acc',
             rep_greedy Space 0 acc' (wb ++ rest)
               (fun _ r => if startswith r LF then K (drop 1 r) else None)
             = None).
  { intros acc'. apply greedy_none; auto.
    intros a b E. subst wb.
    rewrite PathFacts.has_char_append in H.
    apply orb_false_iff in H as [_ Hb].
    destruct b as [|c b]; cbn [append].
    - destruct rest as [|c r]; [reflexivity|].
      rewrite starts_LF. cbn [starts_nonspace] in N.
      destruct (Ascii.eqb (ascii_of_nat 10) c) eqn:E; [|reflexivity].
      apply Ascii.eqb_eq in E. subst c. rewrite isspace_LF in N.
      discriminate.
    - rewrite starts_LF. cbn [has_char] in Hb.
      apply orb_false_iff in Hb as [Hc _].
      rewrite Ascii.eqb_sym, Hc. reflexivity. }
  revert acc; induction wa as [|c wa IH]; intros acc.
  - change ("" ++ LF ++ wb ++ rest)
      with (String (ascii_of_nat 10) (wb ++ rest)).
    cbn [rep_greedy in_cls]. rewrite isspace_LF, G.
    rewrite starts_LF, Ascii.eqb_refl. exact Kx.
  - simpl in Wa. apply andb_true_iff in Wa as [Wc Ww].
    cbn [append rep_greedy in_cls]. rewrite Wc.
    now rewrite (IH Ww).
Qed.

(** Lazy dot stops at the first place where the marker follows. *)
Lemma lazy_until_marker (m b post acc : string)
      (k : string -> string -> option R) (x : R) :
  marker_free m b (m ++ post) = true ->
  k (acc ++ b) post = Some x ->
  rep_lazy Any 0 acc (b ++ m ++ post)
    (fun mm r => if startswith r m then k mm (drop (String.length m) r)
                 else None)
  = Some x.
Proof.
  revert acc; induction b as [|c b IH]; intros acc F Kx.
  - rewrite append_nil_r in Kx.
    cbn [append]. destruct (m ++ post) eqn:E; cbn [rep_lazy]; rewrite <- E;
      rewrite startswith_append, drop_append, Kx; reflexivity.
  - cbn [marker_free] in F. apply andb_true_iff in F as [F1 F2].
    apply negb_true_iff in F1.
    cbn [append rep_lazy in_cls]. cbn [append] in F1. rewrite F1.
    apply IH; auto. now rewrite append_assoc.
Qed.

(** Lazy dot with at least one character takes all of [p] when the
    continuation refuses every shorter non-empty prefix. *)
Lemma lazy_whole (p rest acc : string) (min : nat)
      (k : string -> string -> option R) (x : R) :
  min <= String.length p ->
  (forall a b, p = a ++ b -> b <> "" -> min <= String.length a ->
               k (acc ++ a) (b ++ rest) = None) ->
  k (acc ++ p) rest = Some x ->
  rep_lazy Any min acc (p ++ rest) k = Some x.
Proof.
  revert acc min; induction p as [|c p IH]; intros acc min M F Kx.
  - simpl in M. assert (min = 0) by lia. subst min.
    rewrite append_nil_r in Kx. cbn [append].
    destruct rest; cbn [rep_lazy]; now rewrite Kx.
  - assert (S : rep_lazy Any (pred min) (acc ++ String c "") (p ++ rest) k
                = Some x).
    { apply IH.
      - simpl in M. lia.
      - intros a b E Nb La. rewrite append_assoc. apply (F (String c a) b).
        + simpl. now rewrite E.
        + assumption.
        + simpl. lia.
      - now rewrite append_assoc. }
    cbn [append rep_lazy in_cls]. rewrite S.
    destruct min; [|reflexivity].
    assert (Z : k (acc ++ "") (String c p ++ rest) = None)
      by (apply F; [reflexivity|discriminate|simpl; lia]).
    rewrite append_nil_r in Z. cbn [append] in Z. now rewrite Z.
Qed.

End Repetition.

Lemma run_lit {R : Type} (l s : string) (caps : list string)
      (k : list string -> string -> option R) :
  run (Lit l) (l ++ s) caps k = k caps s.
Proof. cbn [run]. now rewrite startswith_append, drop_append. Qed.

Lemma run_lit_eq {R : Type} (l s : string) (caps : list string)
      (k : list string -> string -> option R) :
  run (Lit l) s caps k
  = if startswith s l then k caps (drop (String.length l) s) else None.
Proof. reflexivity. Qed.

Lemma run_cat {R : Type} (r1 r2 : re) (s : string) (caps : list string)
      (k : list string -> string -> option R) :
  run (r1 ;; r2) s caps k
  = run r1 s caps (fun caps' s' => run r2 s' caps' k).
Proof. reflexivity. Qed.

Lemma run_greedy {R : Type} (capture : bool) (c : cls) (min : nat)
      (s : string) (caps : list string)
      (k : list string -> string -> option R) :
  run (Rep capture c min true) s caps k
  = rep_greedy c min "" s
      (fun m rest => k (if capture then (caps ++ [m])%list else caps) rest).
Proof. reflexivity. Qed.

Lemma run_lazy {R : Type} (capture : bool) (c : cls) (min : nat)
      (s : string) (caps : list string)
      (k : list string -> string -> option R) :
  run (Rep capture c min false) s caps k
  = rep_lazy c min "" s
      (fun m rest => k (if capture then (caps ++ [m])%list else caps) rest).
Proof. reflexivity. Qed.

Lemma starts_nonspace_append (a b : string) :
  a <> "" -> starts_nonspace a = true -> starts_nonspace (a ++ b) = true.
Proof. destruct a as [|c a]; [congruence|auto]. Qed.

Lemma nonspace_not_LF (s : string) :
  starts_nonspace s = true -> startswith s LF = false.
Proof.
  destruct s as [|c s]; [reflexivity|]. cbn [starts_nonspace].
  intros N. rewrite starts_LF. apply Ascii.eqb_neq. intros <-.
  rewrite isspace_LF in N. discriminate.
Qed.

Lemma span_space (s : string) :
  exists lead rest,
    s = lead ++ rest /\ all_space lead = true /\ starts_nonspace rest = true.
Proof.
  induction s as [|c s IH].
  - exists "", "". auto.
  - destruct (isspace c) eqn:C.
    + destruct IH as (lead & rest & E & A & N).
      exists (String c lead), rest. simpl. rewrite C, <- E. auto.
    + exists "", (String c s). simpl. rewrite C. auto.
Qed.

Lemma all_space_not_ends (s : string) :
  s <> "" -> all_space s = true -> ends_nonspace s = false.
Proof.
  induction s as [|c s IH]; [congruence|]. intros _ A.
  cbn [all_space] in A. apply andb_true_iff in A as [Ac As].
  destruct s as [|d s'].
  - cbn [ends_nonspace]. now rewrite Ac.
  - apply IH; [discriminate|exact As].
Qed.

Lemma ends_nonspace_suffix (a b : string) :
  b <> "" -> ends_nonspace (a ++ b) = true -> ends_nonspace b = true.
Proof.
  intros Nb. induction a as [|c a IH]; [auto|].
  cbn [append ends_nonspace].
  destruct (a ++ b) eqn:E; [|exact IH].
  destruct a; [|discriminate]. now destruct b.
Qed.

(** In a run without newline that is followed by something that is not
    whitespace, no newline comes next anywhere. *)
Lemma no_newline_ahead (w rest : string) :
  has_char (ascii_of_nat 10) w = false -> starts_nonspace rest = true ->
  forall a b, w = a ++ b -> startswith (b ++ rest) LF = false.
Proof.
  intros H N a b E. subst w.
  rewrite PathFacts.has_char_append in H.
  apply orb_false_iff in H as [_ Hb].
  destruct b as [|c b]; cbn [append]; [now apply nonspace_not_LF|].
  rewrite starts_LF. cbn [has_char] in Hb.
  apply orb_false_iff in Hb as [Hc _].
  now rewrite Ascii.eqb_sym.
Qed.

(** What is left of a one-line argument after a proper prefix: blanks
    of the same line, then something that is not whitespace. *)
Lemma arg_remainder (p a b : string) :
  p = a ++ b -> b <> "" ->
  ends_nonspace p = true -> has_char (ascii_of_nat 10) p = false ->
  exists w b',
    b = w ++ b' /\ all_space w = true
    /\ has_char (ascii_of_nat 10) w = false
    /\ starts_nonspace b' = true /\ b' <> "".
Proof.
  intros E Nb PE PL. subst p.
  apply (ends_nonspace_suffix a b Nb) in PE.
  rewrite PathFacts.has_char_append in PL.
  apply orb_false_iff in PL as [_ Hb].
  destruct (span_space b) as (w & b' & Eb & Aw & Sb).
  exists w, b'. subst b.
  rewrite PathFacts.has_char_append in Hb.
  apply orb_false_iff in Hb as [Hw _].
  repeat split; auto. intros ->. rewrite append_nil_r in PE, Nb.
  rewrite (all_space_not_ends w Nb Aw) in PE. discriminate.
Qed.

(** The WRITE pattern on one block: the first group is the path, the
    second what follows the last newline of the whitespace run after
    the path. *)
Lemma match_write_block (sp1 sp2 path wa wb body1 post : string) :
  all_space sp1 = true -> all_space sp2 = true -> sp2 <> "" ->
  path <> "" -> starts_nonspace path = true -> ends_nonspace path = true ->
  has_char (ascii_of_nat 10) path = false ->
  all_space wa = true -> all_space wb = true ->
  has_char (ascii_of_nat 10) wb = false ->
  starts_nonspace body1 = true ->
  marker_free "<<<" (wb ++ body1) ("<<<" ++ post) = true ->
  match_here P_WRITE
    (">>>" ++ sp1 ++ "WRITE" ++ sp2 ++ path ++ wa ++ LF ++ wb ++ body1
     ++ "<<<" ++ post)
  = Some ([path; wb ++ body1], post).
Proof.
  intros S1 S2 N2 PN PS PE PL Wa Wb HB B1 MF.
  unfold match_here, P_WRITE, OPEN, CLOSE, ws0, ws1, arg.
  rewrite run_cat, run_lit, run_cat, run_greedy.
  apply greedy_whole; [assumption|reflexivity|lia|]. cbv beta iota.
  rewrite run_cat, run_lit, run_cat, run_greedy.
  apply greedy_whole; [assumption| |destruct sp2; [congruence|simpl; lia]|].
  { now apply starts_nonspace_append. }
  cbv beta iota. rewrite run_cat, run_lazy.
  apply lazy_whole.
  - destruct path; [congruence|simpl; lia].
  - intros a b E Nb La. cbv beta iota.
    destruct (arg_remainder path a b E Nb PE PL)
      as (w & b' & Eb & Aw & Hw & Sb & Nb').
    rewrite Eb, (append_assoc w b').
    rewrite run_cat, run_greedy.
    apply (greedy_none w (b' ++ wa ++ LF ++ wb ++ body1 ++ "<<<" ++ post)).
    + exact Aw.
    + now apply starts_nonspace_append.
    + intros a' b'' E'. cbv beta iota.
      rewrite run_cat, run_lit_eq.
      rewrite (no_newline_ahead w _ Hw
                 (starts_nonspace_append b' _ Nb' Sb) a' b'' E').
      reflexivity.
  - cbv beta iota. rewrite run_cat, run_greedy.
    apply (greedy_last_newline wa wb (body1 ++ "<<<" ++ post) ""
             (fun r => run (body ;; Lit "<<<") r ([] ++ [path])%list
                         (fun caps rest => Some (caps, rest)))).
    + assumption.
    + assumption.
    + assumption.
    + destruct body1 as [|c b]; [reflexivity|exact B1].
    + unfold body. rewrite run_cat, run_lazy, <- append_assoc.
      apply (lazy_until_marker "<<<" (wb ++ body1) post ""
               (fun m rest => Some ((([] ++ [path]) ++ [m])%list, rest))).
      * assumption.
      * reflexivity.
Qed.

(** ** [findall] *)

Lemma findall_skip (r : re) (x s : string) :
  findall_from r (x ++ s) (String.length x) = findall_from r s 0.
Proof. induction x as [|c x IH]; [reflexivity|exact IH]. Qed.

Lemma match_needs_marker (q : re) (s : string) :
  startswith s ">>>" = false -> match_here (OPEN ;; q) s = None.
Proof.
  intros H. unfold match_here, OPEN. rewrite run_cat, run_lit_eq.
  now rewrite H.
Qed.

(** Nothing is found where no start marker begins. *)
Lemma findall_marker_free (q : re) (b tail : string) :
  marker_free ">>>" b tail = true ->
  findall_from (OPEN ;; q) (b ++ tail) 0 = findall_from (OPEN ;; q) tail 0.
Proof.
  induction b as [|c b IH]; [reflexivity|].
  cbn [marker_free]. intros H. apply andb_true_iff in H as [H1 H2].
  apply negb_true_iff in H1.
  cbn [append findall_from]. cbn [append] in H1.
  rewrite (match_needs_marker q _ H1). now apply IH.
Qed.

Lemma findall_marker_free_all (q : re) (b : string) :
  marker_free ">>>" b "" = true -> findall_from (OPEN ;; q) b 0 = [].
Proof.
  intros H. rewrite <- (append_nil_r b).
  now rewrite findall_marker_free.
Qed.

Lemma findall_at_match (r : re) (c : ascii) (x post : string)
      (caps : list string) :
  match_here r (String c (x ++ post)) = Some (caps, post) ->
  findall_from r (String c (x ++ post)) 0 = caps :: findall_from r post 0.
Proof.
  intros H. cbn [findall_from]. rewrite H. f_equal.
  replace (String.length (String c (x ++ post)) - String.length post - 1)
    with (String.length x)
    by (cbn [String.length]; rewrite length_append; lia).
  apply findall_skip.
Qed.

Lemma findall_no_match (r : re) (c : ascii) (t : string) :
  match_here r (String c t) = None ->
  findall_from r (String c t) 0 = findall_from r t 0.
Proof. intros H. cbn [findall_from]. now rewrite H. Qed.

Lemma space_differs (v c : ascii) :
  isspace v = false -> isspace c = true -> Ascii.eqb v c = false.
Proof. intros Hv Hc. apply Ascii.eqb_neq. congruence. Qed.

(** A pattern for another verb does not match at a WRITE block. *)
Lemma other_verb_no_match (v0 : ascii) (v' : string) (q : re)
      (sp1 rest : string) :
  isspace v0 = false ->
  startswith ("WRITE" ++ rest) (String v0 v') = false ->
  all_space sp1 = true ->
  match_here (OPEN ;; ws0 ;; Lit (String v0 v') ;; q)
             (">>>" ++ sp1 ++ "WRITE" ++ rest) = None.
Proof.
  intros V NW S1. unfold match_here, OPEN, ws0.
  rewrite run_cat, run_lit, run_cat, run_greedy.
  apply greedy_none; [assumption|reflexivity|].
  intros a b E. cbv beta iota. rewrite run_cat, run_lit_eq.
  destruct b as [|c b].
  - cbn [append]. cbn [append] in NW. now rewrite NW.
  - assert (C : isspace c = true).
    { rewrite E, all_space_append in S1.
      apply andb_true_iff in S1 as [_ S1]. simpl in S1.
      now apply andb_true_iff in S1 as [S1 _]. }
    cbn [append startswith]. now rewrite (space_differs _ _ V C).
Qed.

Lemma findall_other_verb (v0 : ascii) (v' : string) (q : re)
      (pre sp1 rest : string) :
  isspace v0 = false ->
  startswith ("WRITE" ++ rest) (String v0 v') = false ->
  all_space sp1 = true ->
  marker_free ">>>" pre (">>>" ++ sp1 ++ "WRITE" ++ rest) = true ->
  marker_free ">>>" (drop 1 (">>>" ++ sp1 ++ "WRITE" ++ rest)) "" = true ->
  findall (OPEN ;; ws0 ;; Lit (String v0 v') ;; q)
          (pre ++ ">>>" ++ sp1 ++ "WRITE" ++ rest) = [].
Proof.
  intros V NW S1 M1 M2. unfold findall.
  rewrite findall_marker_free by assumption.
  pose proof (other_verb_no_match v0 v' q sp1 rest V NW S1) as N.
  cbn [append] in N, M2 |- *. cbn [drop] in M2.
  rewrite (findall_no_match _ _ _ N).
  now apply findall_marker_free_all.
Qed.

(** ** Whitespace around the body *)

Lemma last_newline (w : string) :
  all_space w = true -> has_char (ascii_of_nat 10) w = true ->
  exists wa wb,
    w = wa ++ LF ++ wb /\ all_space wa = true /\ all_space wb = true
    /\ has_char (ascii_of_nat 10) wb = false.
Proof.
  induction w as [|c w IH]; [discriminate|].
  cbn [all_space has_char]. intros A H.
  apply andb_true_iff in A as [Ac Aw].
  destruct (has_char (ascii_of_nat 10) w) eqn:Hw.
  - destruct (IH Aw eq_refl) as (wa & wb & E & A1 & A2 & A3).
    exists (String c wa), wb. cbn [append all_space].
    rewrite Ac, A1, <- E. auto.
  - rewrite orb_false_r in H. apply Ascii.eqb_eq in H. subst c.
    exists "", w. auto.
Qed.

Lemma marker_free_suffix (m a b tail : string) :
  marker_free m (a ++ b) tail = true -> marker_free m b tail = true.
Proof.
  induction a as [|c a IH]; [auto|].
  cbn [append marker_free]. intros H.
  apply andb_true_iff in H as [_ H]. auto.
Qed.

Lemma marker_free_spaces (m0 : ascii) (m' w b tail : string) :
  isspace m0 = false -> all_space w = true ->
  marker_free (String m0 m') b tail = true ->
  marker_free (String m0 m') (w ++ b) tail = true.
Proof.
  intros M. induction w as [|c w IH]; [auto|].
  cbn [all_space append marker_free]. intros A H.
  apply andb_true_iff in A as [Ac Aw].
  cbn [startswith]. rewrite (space_differs _ _ M Ac). simpl. auto.
Qed.

Lemma lstrip_spaces (w s : string) :
  all_space w = true -> lstrip (w ++ s) = lstrip s.
Proof.
  induction w as [|c w IH]; [auto|].
  cbn [all_space append lstrip]. intros A.
  apply andb_true_iff in A as [Ac Aw]. rewrite Ac. auto.
Qed.

Lemma strip_spaces (w s : string) :
  all_space w = true -> strip (w ++ s) = strip s.
Proof. intros A. unfold strip. now rewrite lstrip_spaces. Qed.

Lemma rstrip_trimmed (s : string) : ends_nonspace s = true -> rstrip s = s.
Proof.
  induction s as [|c s IH]; [auto|]. destruct s as [|d s'].
  - cbn [ends_nonspace rstrip]. intros H. apply negb_true_iff in H.
    now rewrite H.
  - intros H.
    change (rstrip (String c (String d s')))
      with (match rstrip (String d s') with
            | EmptyString =>
                if isspace c then EmptyString else String c EmptyString
            | String x r' => String c (String x r')
            end).
    now rewrite (IH H).
Qed.

Lemma strip_trimmed (s : string) :
  starts_nonspace s = true -> ends_nonspace s = true -> strip s = s.
Proof.
  intros S E. unfold strip.
  assert (L : lstrip s = s).
  { destruct s as [|c s]; [reflexivity|]. cbn [starts_nonspace] in S.
    apply negb_true_iff in S. cbn [lstrip]. now rewrite S. }
  rewrite L. now apply rstrip_trimmed.
Qed.

End RegexFacts.

(* ================================================================== *)
(** * A response with one WRITE block *)
(* ================================================================== *)

Module WriteBlock.
Import PyStr Fs Agent Props StrFacts FsFacts RegexFacts WriteFacts Scenario.
Local Open Scope string_scope.

Lemma findall_write_block (pre sp1 sp2 path wa wb body1 post : string) :
  let tail := sp1 ++ "WRITE" ++ sp2 ++ path ++ wa ++ LF ++ wb ++ body1
              ++ "<<<" ++ post in
  all_space sp1 = true -> all_space sp2 = true -> sp2 <> "" ->
  path <> "" -> starts_nonspace path = true -> ends_nonspace path = true ->
  has_char (ascii_of_nat 10) path = false ->
  all_space wa = true -> all_space wb = true ->
  has_char (ascii_of_nat 10) wb = false ->
  starts_nonspace body1 = true ->
  marker_free "<<<" (wb ++ body1) ("<<<" ++ post) = true ->
  marker_free ">>>" pre (">>>" ++ tail) = true ->
  marker_free ">>>" (">>" ++ tail) "" = true ->
  Regex.findall Regex.P_WRITE (pre ++ ">>>" ++ tail)
  = [[path; wb ++ body1]].
Proof.
  intros tail S1 S2 N2 PN PS PE PL Wa Wb HB B1 MF M1 M2.
  pose proof (match_write_block sp1 sp2 path wa wb body1 post
                S1 S2 N2 PN PS PE PL Wa Wb HB B1 MF) as H.
  assert (E : tail = (sp1 ++ "WRITE" ++ sp2 ++ path ++ wa ++ LF ++ wb
                      ++ body1 ++ "<<<") ++ post)
    by (unfold tail; rewrite !append_assoc; reflexivity).
  change (sp1 ++ "WRITE" ++ sp2 ++ path ++ wa ++ Regex.LF ++ wb ++ body1
          ++ "<<<" ++ post) with tail in H.
  clearbody tail. subst tail.
  set (x := sp1 ++ "WRITE" ++ sp2 ++ path ++ wa ++ LF ++ wb ++ body1 ++ "<<<")
    in *.
  unfold Regex.findall, Regex.P_WRITE.
  rewrite findall_marker_free by assumption.
  unfold Regex.P_WRITE in H.
  change (">>>" ++ x ++ post) with (String ">" ((">>" ++ x) ++ post)) in *.
  rewrite (findall_at_match _ _ _ _ _ H). f_equal.
  apply findall_marker_free_all.
  change (">>" ++ x ++ post) with ((">>" ++ x) ++ post) in M2.
  exact (marker_free_suffix _ _ _ _ M2).
Qed.

(** The whitespace run after the path, cut at its last newline. *)
Lemma argument_line_end (sp3 body tail : string) :
  all_space sp3 = true ->
  exists wa wb body1,
    sp3 ++ LF ++ body ++ tail = wa ++ LF ++ wb ++ body1 ++ tail
    /\ all_space wa = true /\ all_space wb = true
    /\ has_char (ascii_of_nat 10) wb = false
    /\ starts_nonspace body1 = true
    /\ strip (wb ++ body1) = strip body
    /\ (forall t, marker_free "<<<" body t = true ->
                  marker_free "<<<" (wb ++ body1) t = true).
Proof.
  intros S3.
  destruct (span_space body) as (lead & body1 & EB & AL & NB).
  assert (AW : all_space (sp3 ++ LF ++ lead) = true).
  { rewrite !all_space_append, S3, AL. reflexivity. }
  assert (HW : has_char (ascii_of_nat 10) (sp3 ++ LF ++ lead) = true).
  { rewrite !PathFacts.has_char_append.
    replace (has_char (ascii_of_nat 10) LF) with true
      by reflexivity.
    now rewrite orb_true_r. }
  destruct (last_newline _ AW HW) as (wa & wb & EW & A1 & A2 & A3).
  exists wa, wb, body1. split.
  { subst body.
    transitivity ((sp3 ++ LF ++ lead) ++ body1 ++ tail).
    - rewrite !append_assoc. reflexivity.
    - rewrite EW, !append_assoc. reflexivity. }
  split; [exact A1|]. split; [exact A2|]. split; [exact A3|].
  split; [exact NB|]. split.
  - subst body. now rewrite !strip_spaces.
  - intros t MF. subst body.
    apply (marker_free_spaces "<"%char "<<"); [reflexivity|exact A2|].
    exact (marker_free_suffix _ _ _ _ MF).
Qed.

Lemma planned_single_write (pre sp1 sp2 path sp3 body post : string) :
  let tail := sp1 ++ "WRITE" ++ sp2 ++ path ++ sp3 ++ LF ++ body
              ++ "<<<" ++ post in
  all_space sp1 = true -> all_space sp2 = true -> sp2 <> "" ->
  all_space sp3 = true ->
  path <> "" -> starts_nonspace path = true -> ends_nonspace path = true ->
  has_char (ascii_of_nat 10) path = false ->
  marker_free ">>>" pre (">>>" ++ tail) = true ->
  marker_free ">>>" (">>" ++ tail) "" = true ->
  marker_free "<<<" body ("<<<" ++ post) = true ->
  planned_calls (pre ++ ">>>" ++ tail) = [CallWrite path (strip body)].
Proof.
  intros tail S1 S2 N2 S3 PN PS PE PL M1 M2 MF.
  destruct (argument_line_end sp3 body ("<<<" ++ post) S3)
    as (wa & wb & body1 & E & A1 & A2 & A3 & NB & ST & MK).
  unfold tail in *. rewrite E in *. clear tail.
  unfold planned_calls.
  rewrite (findall_write_block pre sp1 sp2 path wa wb body1 post); auto.
  unfold Regex.P_READ, Regex.P_TREE, Regex.P_LISTFILES, Regex.P_CD,
    Regex.P_DELETE, Regex.P_RUN, Regex.P_INSTALL, Regex.P_CREATE,
    Regex.P_SHADCN, Regex.P_REFRESH.
  rewrite !findall_other_verb by (assumption || reflexivity).
  cbn [map app group nth].
  now rewrite (strip_trimmed _ PS PE), ST.
Qed.

Lemma process_single_call (w : bool) (sh : spawn -> node -> proc * node)
      (text : string) (c : call) :
  planned_calls text = [c] ->
  forall st,
    process_tool_calls w sh text st
    = (m <- dispatch w sh c ;; ret ([m], true)) st.
Proof.
  intros P st. unfold process_tool_calls. rewrite P.
  cbn [run_calls]. unfold bind, ret.
  destruct (dispatch w sh c st) as [[m|e] st']; reflexivity.
Qed.

(** A confirmed WRITE that goes through leaves exactly the content it
    was handed in the target file, whether the file is new or not. *)
Lemma handle_write_verbatim (rel content line : string)
      (rest : list string) (st : state) :
  let rel' := normalize_path false rel in
  let target := joinpath (root_dir (self st)) rel' in
  let bak := joinpath (backup_dir (self st))
                      (backup_name rel' (stamp (now (env st)))) in
  let r := handle_write false rel content st in
  stdin (env st) = line :: rest ->
  yes_or_y (strip (lower line)) = true ->
  (exists_ (fs (env st)) target = false
   /\ (is_dir (fs (env st)) (parent target) = true
       \/ (plain target = true /\ clear_way (fs (env st)) target = true)))
  \/ (exists q c1,
         stat (fs (env st)) target = Ok (q, File c1)
         /\ is_dir (fs (env st)) (backup_dir (self st)) = true
         /\ is_dir (fs (env st)) bak = false
         /\ (forall qb n, stat (fs (env st)) bak = Ok (qb, n) -> qb <> q)) ->
  exists st',
    r = (Return ("SYSTEM: File " ++ rel' ++ " updated successfully."), st')
    /\ file_text (fs (env st')) target = Ok content.
Proof.
  intros rel' target bak r E Y [[X [D|[P C]]]|(q & c1 & S & B & NB & NQ)].
  - destruct (write_confirmed_new (backup_dir (self st)) rel' content
                target (consume AskApplyChanges st) X D)
      as (q & f2 & W & L & PU & R).
    eexists. split.
    + unfold r. rewrite (handle_write_confirmed _ _ _ _ _ E Y).
      fold rel'. fold target. rewrite X. exact R.
    + cbn [fst snd env fs with_fs].
      cbn [consume env fs] in W, L, PU.
      assert (ND : not_a_dir (lookup (fs (env st)) q)) by (now rewrite L).
      apply (file_text_intro _ _ q); [|now apply (put_self (fs (env st)))].
      exact (walk_kept _ _ _ _ _ (put_file_dirs_kept _ _ _ _ PU ND) W).
  - destruct (write_confirmed_new_dirs (backup_dir (self st)) rel' content
                target (consume AskApplyChanges st) X P C)
      as (f2 & R & W & L & _).
    eexists. split.
    + unfold r. rewrite (handle_write_confirmed _ _ _ _ _ E Y).
      fold rel'. fold target. rewrite X. exact R.
    + cbn [fst snd env fs with_fs].
      now apply (file_text_intro _ _ target).
  - destruct (handle_write_existing rel content line rest st q c1
                E Y S B NB NQ)
      as (f2 & qb & R & _ & _ & _ & W & L & _).
    eexists. split; [exact R|].
    cbn [fst snd env fs with_fs].
    now apply (file_text_intro _ _ q).
Qed.

(** C3, as amended.  Take a text with one WRITE block: the start
    marker, optional blanks, [WRITE], blanks, a path on one line
    (blanks inside it allowed), optional blanks, a newline, the body,
    the end marker; the start marker begins nowhere else in the text
    and the end marker is the first one after the argument line.  Then
    exactly one command is planned, a WRITE of the path whose content
    is the body stripped of leading and trailing whitespace (what lies
    between, blank lines included, is kept); processing the text is
    running the WRITE handler on that content; and the handler writes
    what it is handed without change: after a confirmed WRITE that goes
    through, to a new file (in an existing directory, or along a path
    free of [..] with no file in the way) or over an old one (the
    backup being possible), the file holds exactly the stripped
    body. *)
Theorem C3_single_write_block (pre sp1 sp2 path sp3 body post : string) :
  let tail := sp1 ++ "WRITE" ++ sp2 ++ path ++ sp3 ++ LF ++ body
              ++ "<<<" ++ post in
  let text := pre ++ ">>>" ++ tail in
  all_space sp1 = true -> all_space sp2 = true -> sp2 <> "" ->
  all_space sp3 = true ->
  path <> "" -> starts_nonspace path = true -> ends_nonspace path = true ->
  has_char (ascii_of_nat 10) path = false ->
  marker_free ">>>" pre (">>>" ++ tail) = true ->
  marker_free ">>>" (">>" ++ tail) "" = true ->
  marker_free "<<<" body ("<<<" ++ post) = true ->
  planned_calls text = [CallWrite path (strip body)]
  /\ (forall (w : bool) (sh : spawn -> node -> proc * node) (st : state),
        process_tool_calls w sh text st
        = (m <- handle_write w path (strip body) ;; ret ([m], true)) st)
  /\ (forall (sh : spawn -> node -> proc * node) (st : state)
             (line : string) (rest : list string),
        let rel := normalize_path false path in
        let target := joinpath (root_dir (self st)) rel in
        let bak := joinpath (backup_dir (self st))
                            (backup_name rel (stamp (now (env st)))) in
        let r := process_tool_calls false sh text st in
        stdin (env st) = line :: rest ->
        yes_or_y (strip (lower line)) = true ->
        (exists_ (fs (env st)) target = false
         /\ (is_dir (fs (env st)) (parent target) = true
             \/ (plain target = true
                 /\ clear_way (fs (env st)) target = true)))
        \/ (exists q c1,
               stat (fs (env st)) target = Ok (q, File c1)
               /\ is_dir (fs (env st)) (backup_dir (self st)) = true
               /\ is_dir (fs (env st)) bak = false
               /\ (forall qb n, stat (fs (env st)) bak = Ok (qb, n) ->
                                qb <> q)) ->
        fst r = Return (["SYSTEM: File " ++ rel ++ " updated successfully."],
                        true)
        /\ file_text (fs (env (snd r))) target = Ok (strip body)).
Proof.
  intros tail text S1 S2 N2 S3 PN PS PE PL M1 M2 MF.
  pose proof (planned_single_write pre sp1 sp2 path sp3 body post
                S1 S2 N2 S3 PN PS PE PL M1 M2 MF) as P.
  change (planned_calls text = [CallWrite path (strip body)]) in P.
  split; [exact P|]. split.
  - intros w sh st. exact (process_single_call w sh text _ P st).
  - intros sh st line rest rel target bak r E Y C.
    destruct (handle_write_verbatim path (strip body) line rest st E Y C)
      as (st' & R & T).
    unfold r. rewrite (process_single_call false sh text _ P st).
    cbn [dispatch]. unfold bind, ret. rewrite R.
    cbn [fst snd]. split; [reflexivity|exact T].
Qed.

(** C3, as stated, fails.  In the text of the first scenario the body
    between the argument line and the end marker is [Hello World]
    followed by a newline; the command planned carries [Hello World]
    without it, and that is what the file holds after the WRITE.  The
    pattern itself already leaves out blank lines at the head of a
    body. *)
Lemma C3_counterexample :
  let text := ">>> WRITE hello.txt" ++ LF ++ "Hello World" ++ LF ++ "<<<" in
  let literal_body := "Hello World" ++ LF in
  let r := process_tool_calls false quiet_shell text (start ["y"]) in
  planned_calls text = [CallWrite "hello.txt" "Hello World"]
  /\ "Hello World" <> literal_body
  /\ file_text (fs (env (snd r))) ["proj"; "hello.txt"] = Ok "Hello World"
  /\ Regex.findall Regex.P_WRITE
       (">>> WRITE a.txt" ++ LF ++ LF ++ "  x" ++ LF ++ "<<<")
     = [["a.txt"; "  x" ++ LF]]
  /\ "  x" ++ LF <> LF ++ "  x" ++ LF.
Proof.
  cbv zeta.
  split; [vm_compute; reflexivity|].
  split; [vm_compute; discriminate|].
  split; [vm_compute; reflexivity|].
  split; [vm_compute; reflexivity|].
  vm_compute; discriminate.
Qed.

(** The amended C3 at work on the text of the first scenario, the
    operator answering [y]. *)
Lemma C3_witness :
  let text := ">>> WRITE hello.txt" ++ LF ++ "Hello World" ++ LF ++ "<<<" in
  let r := process_tool_calls false quiet_shell text (start ["y"]) in
  planned_calls text = [CallWrite "hello.txt" "Hello World"]
  /\ fst r = Return (["SYSTEM: File hello.txt updated successfully."], true)
  /\ file_text (fs (env (snd r))) ["proj"; "hello.txt"] = Ok "Hello World".
Proof.
  destruct (C3_single_write_block "" " " " " "hello.txt" ""
              ("Hello World" ++ LF) ""
              eq_refl eq_refl ltac:(discriminate) eq_refl
              ltac:(discriminate) eq_refl eq_refl eq_refl
              eq_refl eq_refl eq_refl) as (P & _ & Q).
  split; [exact P|].
  exact (Q quiet_shell (start ["y"]) "y" [] eq_refl eq_refl
           (or_introl (conj eq_refl (or_introl eq_refl)))).
Defined.

End WriteBlock.

(* ================================================================== *)
(** * The utility functions: paths and command translation *)
(* ================================================================== *)

Module UtilFacts.
Import PyStr Fs Agent Props StrFacts.
Local Open Scope string_scope.

Lemma subst_char_idem (a b : ascii) (s : string) :
  a <> b -> subst_char a b (subst_char a b s) = subst_char a b s.
Proof.
  intros N. induction s as [|c s IH]; [reflexivity|].
  cbn [subst_char]. rewrite IH. f_equal.
  destruct (Ascii.eqb c a) eqn:E; [|now rewrite E].
  destruct (Ascii.eqb b a) eqn:E'; [|reflexivity].
  apply Ascii.eqb_eq in E'. congruence.
Qed.

Lemma subst_char_absent (a b : ascii) (s : string) :
  has_char a s = false -> subst_char a b s = s.
Proof.
  induction s as [|c s IH]; [reflexivity|].
  cbn [has_char subst_char]. intros H.
  apply orb_false_iff in H as [H1 H2]. now rewrite H1, IH.
Qed.

(** X1.  [normalize_path] leaves no separator of the other platform in
    the path, keeps its length, changes nothing in a path that holds
    none, and applying it twice is applying it once. *)
Theorem normalize_path_separators (IS_WINDOWS : bool) (p : string) :
  let other := if IS_WINDOWS then "/"%char else "\"%char in
  has_char other (VibeUtils.normalize_path IS_WINDOWS p) = false
  /\ String.length (VibeUtils.normalize_path IS_WINDOWS p) = String.length p
  /\ VibeUtils.normalize_path IS_WINDOWS
       (VibeUtils.normalize_path IS_WINDOWS p)
     = VibeUtils.normalize_path IS_WINDOWS p
  /\ (has_char other p = false -> VibeUtils.normalize_path IS_WINDOWS p = p).
Proof.
  unfold VibeUtils.normalize_path.
  destruct IS_WINDOWS; cbv zeta;
    rewrite !PathFacts.replace_char;
    (split; [apply PathFacts.has_char_subst_gone; discriminate|]);
    (split; [apply PathFacts.length_subst_char|]);
    (split; [apply subst_char_idem; discriminate|]);
    apply subst_char_absent.
Qed.

(** ** [convert_unix_to_windows] and the steps of [handle_run] that follow *)

Lemma lstrip_lower (s : string) : lstrip (lower s) = lower (lstrip s).
Proof.
  induction s as [|c s IH]; [reflexivity|].
  cbn [lower lstrip]. rewrite isspace_lower_char.
  destruct (isspace c); [exact IH|reflexivity].
Qed.

Lemma rstrip_lower (s : string) : rstrip (lower s) = lower (rstrip s).
Proof.
  induction s as [|c s IH]; [reflexivity|].
  cbn [lower rstrip]. rewrite IH, isspace_lower_char.
  destruct (rstrip s); cbn [lower]; [|reflexivity].
  now destruct (isspace c).
Qed.

Lemma strip_lower (s : string) : strip (lower s) = lower (strip s).
Proof. unfold strip. now rewrite lstrip_lower, rstrip_lower. Qed.

Lemma rstrip_prefix (s : string) : exists t, s = rstrip s ++ t.
Proof.
  induction s as [|c s [t IH]]; [now exists ""|].
  cbn [rstrip]. destruct (rstrip s) as [|x r'] eqn:E.
  - destruct (isspace c).
    + now exists (String c s).
    + exists t. cbn [append] in *. now rewrite <- IH.
  - exists t. cbn [append] in *. now rewrite <- IH.
Qed.

Lemma startswith_longer (a t p : string) :
  startswith a p = true -> startswith (a ++ t) p = true.
Proof.
  intros H. apply startswith_inv in H as [r ->].
  rewrite append_assoc. apply startswith_append.
Qed.

Lemma startswith_rstrip (s p : string) :
  startswith (rstrip s) p = true -> startswith s p = true.
Proof.
  intros H. destruct (rstrip_prefix s) as [t E]. rewrite E.
  now apply startswith_longer.
Qed.

Lemma lstrip_nonspace (s : string) : starts_nonspace s = true -> lstrip s = s.
Proof.
  destruct s as [|c s]; [reflexivity|]. cbn [starts_nonspace lstrip].
  intros H. apply negb_true_iff in H. now rewrite H.
Qed.

Lemma startswith_strip (s p : string) :
  starts_nonspace s = true -> startswith (strip s) p = true ->
  startswith s p = true.
Proof.
  intros N H. unfold strip in H. rewrite (lstrip_nonspace _ N) in H.
  now apply startswith_rstrip.
Qed.

(** The test the loop of [convert_unix_to_windows] makes for one key. *)
Lemma convert_with_cons (command cmd_lower k : string) (later : list string) :
  VibeUtils.convert_with command cmd_lower (k :: later)
  = if startswith cmd_lower k
       && ((String.length cmd_lower =? String.length k)%nat
           || match String.get (String.length k) cmd_lower with
              | Some c => Ascii.eqb c " "%char
              | None => false
              end)
    then let win_cmd := match assoc k WINDOWS_CMD_MAP with
                        | Some w => w
                        | None => EmptyString
                        end in
         let rest := strip (drop (String.length k) command) in
         match rest with
         | EmptyString => win_cmd
         | String _ _ => win_cmd ++ " " ++ rest
         end
    else VibeUtils.convert_with command cmd_lower later.
Proof. reflexivity. Qed.

(** Either no key matches and the command is returned as it is, or the
    result begins with the Windows command of a key. *)
Lemma convert_with_result (P : string -> Prop) (command cmd_lower : string)
      (keys : list string) :
  Forall (fun k => exists w, assoc k WINDOWS_CMD_MAP = Some w /\ P w) keys ->
  (VibeUtils.convert_with command cmd_lower keys = command
   /\ Forall (fun k =>
                startswith cmd_lower k
                && ((String.length cmd_lower =? String.length k)%nat
                    || match String.get (String.length k) cmd_lower with
                       | Some c => Ascii.eqb c " "%char
                       | None => false
                       end) = false) keys)
  \/ (exists w t,
        VibeUtils.convert_with command cmd_lower keys = w ++ t /\ P w).
Proof.
  induction keys as [|k keys IH]; intros F.
  - left. split; [reflexivity|constructor].
  - inversion F as [|k' keys' (w & A & Pw) F']; subst.
    rewrite convert_with_cons, A.
    destruct (startswith cmd_lower k
              && ((String.length cmd_lower =? String.length k)%nat
                  || match String.get (String.length k) cmd_lower with
                     | Some c => Ascii.eqb c " "%char
                     | None => false
                     end)) eqn:E.
    + right. cbv zeta.
      destruct (strip (drop (String.length k) command)) as [|c r].
      * exists w, "". now rewrite append_nil_r.
      * now exists w, (" " ++ String c r).
    + destruct (IH F') as [[E1 F1]|R]; [left|right; exact R].
      split; [exact E1|]. now constructor.
Qed.

(** The keys in the order in which the loop tries them. *)
Lemma sorted_keys_eq :
  sorted_by (fun a b => (String.length b <=? String.length a)%nat)
            (map fst WINDOWS_CMD_MAP)
  = ["mkdir -p"; "ls -la"; "rm -rf"; "ls -l"; "ls -R"; "touch"; "clear";
     "which"; "grep"; "pwd"; "cat"; "ls"; "cp"; "mv"; "rm"].
Proof. vm_compute. reflexivity. Qed.

Lemma windows_commands (P : string -> Prop) :
  (forall k w, assoc k WINDOWS_CMD_MAP = Some w -> P w) ->
  Forall (fun k => exists w, assoc k WINDOWS_CMD_MAP = Some w /\ P w)
    (sorted_by (fun a b => (String.length b <=? String.length a)%nat)
               (map fst WINDOWS_CMD_MAP)).
Proof.
  intros H. rewrite sorted_keys_eq.
  repeat match goal with
         | |- Forall _ (?k :: _) =>
             constructor;
             [eexists; split; [reflexivity|apply (H k); reflexivity]|]
         end.
  constructor.
Qed.

Lemma assoc_inv (k w : string) (l : list (string * string)) :
  assoc k l = Some w -> In (k, w) l.
Proof.
  induction l as [|[k' v] l IH]; [discriminate|]. cbn [assoc].
  destruct (String.eqb k k') eqn:E.
  - intros H. inversion H; subst. apply String.eqb_eq in E. subst. now left.
  - intros H. right. auto.
Qed.

(** No Windows command of the map begins like [rm -]. *)
Lemma windows_command_not_rm (k w : string) :
  assoc k WINDOWS_CMD_MAP = Some w ->
  starts_nonspace w = true /\ w <> ""
  /\ forall t, startswith (w ++ t) "rm -" = false.
Proof.
  intros H. apply assoc_inv in H. unfold WINDOWS_CMD_MAP in H.
  cbn [In] in H.
  repeat (destruct H as [H|H];
          [inversion H; subst;
           split; [reflexivity|]; split; [discriminate|];
           intros t; reflexivity|]).
  contradiction.
Qed.

(** X2.  Step 3 of [handle_run], the rewrite of [rm -r...] for Windows,
    never changes the command that step 2 hands to it: on Windows
    [convert_unix_to_windows] has already translated every command that
    begins with [rm], and elsewhere the step is switched off. *)
Theorem rm_fix_never_fires (IS_WINDOWS : bool) (command : string) :
  windows_rm_fix IS_WINDOWS
    (VibeUtils.convert_unix_to_windows IS_WINDOWS command)
  = VibeUtils.convert_unix_to_windows IS_WINDOWS command.
Proof.
  destruct IS_WINDOWS; [|reflexivity].
  assert (N : startswith
                (strip (VibeUtils.convert_unix_to_windows true command))
                "rm -" = false).
  { unfold VibeUtils.convert_unix_to_windows. cbn [negb]. cbv zeta.
    destruct (convert_with_result
                (fun w => starts_nonspace w = true /\ w <> ""
                          /\ forall t, startswith (w ++ t) "rm -" = false)
                command (strip (lower command)) _
                (windows_commands _ windows_command_not_rm))
      as [[E F]|(w & t & E & SN & NE & NR)].
    - rewrite E. rewrite sorted_keys_eq in F.
      destruct (startswith (strip command) "rm -") eqn:S; [|reflexivity].
      exfalso. apply startswith_inv in S as [r S].
      rewrite Forall_forall in F.
      assert (K0 := F "rm" ltac:(cbn [In]; tauto)). cbv beta in K0.
      rewrite strip_lower, S in K0. discriminate K0.
    - rewrite E.
      destruct (startswith (strip (w ++ t)) "rm -") eqn:S; [|reflexivity].
      apply startswith_strip in S; [now rewrite NR in S|].
      destruct w; [congruence|exact SN]. }
  unfold windows_rm_fix. now rewrite N.
Qed.

Lemma lower_char_not_R (c : ascii) : Ascii.eqb (lower_char c) "R"%char = false.
Proof.
  destruct c as [b0 b1 b2 b3 b4 b5 b6 b7].
  destruct b0, b1, b2, b3, b4, b5, b6, b7; vm_compute; reflexivity.
Qed.

Lemma lower_no_R (s : string) : has_char "R"%char (lower s) = false.
Proof.
  induction s as [|c s IH]; [reflexivity|].
  cbn [lower has_char]. now rewrite lower_char_not_R, IH.
Qed.

Lemma convert_with_skip (command cmd_lower k : string) (k1 k2 : list string) :
  startswith cmd_lower k = false ->
  VibeUtils.convert_with command cmd_lower (k1 ++ k :: k2)
  = VibeUtils.convert_with command cmd_lower (k1 ++ k2).
Proof.
  intros H. induction k1 as [|x k1 IH].
  - cbn [app]. rewrite convert_with_cons, H. reflexivity.
  - cbn [app]. rewrite !convert_with_cons, IH. reflexivity.
Qed.

(** X3.  On Windows the entry [ls -R] of the command map is never used:
    the command is lower-cased before it is compared with the keys, so
    the loop gives the same result without that key ([ls -R] is
    translated by the entry [ls]). *)
Theorem ls_R_entry_unused (command : string) :
  VibeUtils.convert_unix_to_windows true command
  = VibeUtils.convert_with command (strip (lower command))
      (filter (fun k => negb (String.eqb k "ls -R"))
              (sorted_by (fun a b => (String.length b <=? String.length a)%nat)
                         (map fst WINDOWS_CMD_MAP))).
Proof.
  unfold VibeUtils.convert_unix_to_windows. cbn [negb]. cbv zeta.
  rewrite sorted_keys_eq.
  change (filter (fun k => negb (String.eqb k "ls -R"))
            ["mkdir -p"; "ls -la"; "rm -rf"; "ls -l"; "ls -R"; "touch";
             "clear"; "which"; "grep"; "pwd"; "cat"; "ls"; "cp"; "mv"; "rm"])
    with (["mkdir -p"; "ls -la"; "rm -rf"; "ls -l"]
          ++ ["touch"; "clear"; "which"; "grep"; "pwd"; "cat"; "ls"; "cp";
              "mv"; "rm"])%list.
  apply (convert_with_skip command (strip (lower command)) "ls -R"
           ["mkdir -p"; "ls -la"; "rm -rf"; "ls -l"]).
  destruct (startswith (strip (lower command)) "ls -R") eqn:S; [|reflexivity].
  apply startswith_inv in S as [r S].
  pose proof (lower_no_R (strip command)) as H.
  rewrite <- strip_lower, S in H. discriminate H.
Qed.

(** ** [ProjectTemplates.get_command] *)

Lemma Sub_append_l (b x y : string) : Sub b x -> Sub b (x ++ y).
Proof.
  intros (pre & post & ->). exists pre, (post ++ y).
  now rewrite !append_assoc.
Qed.

Lemma Sub_append_r (b x y : string) : Sub b y -> Sub b (x ++ y).
Proof.
  intros (pre & post & ->). exists (x ++ pre), post.
  now rewrite !append_assoc.
Qed.

Lemma replace_from_sub (s a b : string) :
  a <> "" -> contains s a = true -> Sub b (replace_from s a b 0).
Proof.
  intros N. induction s as [|c r IH].
  - destruct a; [congruence|discriminate].
  - cbn [contains replace_from].
    destruct (startswith (String c r) a).
    + intros _. exists "", (replace_from r a b (String.length a - 1)).
      reflexivity.
    + cbn [orb]. intros H. destruct (IH H) as (pre & post & E).
      exists (String c pre), post. cbn [append]. now rewrite E.
Qed.

Lemma format_name_sub (t name : string) :
  contains t "{name}" = true -> Sub name (format_name t name).
Proof. apply replace_from_sub. discriminate. Qed.

Lemma format_name_starts (t name : string) :
  startswith t "n" = true -> startswith (format_name t name) "n" = true.
Proof.
  destruct t as [|c r]; [discriminate|]. cbn [startswith].
  rewrite andb_true_r. intros H. apply Ascii.eqb_eq in H. subst c.
  reflexivity.
Qed.

Lemma templates_hold_name (k t : string) :
  In (k, t) TEMPLATES ->
  contains t "{name}" = true /\ startswith t "n" = true.
Proof.
  assert (H : forallb (fun kv => contains (snd kv) "{name}"
                                 && startswith (snd kv) "n") TEMPLATES = true)
    by (vm_compute; reflexivity).
  rewrite forallb_forall in H. intros I. apply H in I.
  now apply andb_true_iff in I.
Qed.

Lemma fuzzy_inv (fl cmd : string) (l : list (string * string)) :
  ProjectTemplates.fuzzy fl l = Some cmd -> exists k, In (k, cmd) l.
Proof.
  induction l as [|[k c] l IH]; [discriminate|].
  cbn [ProjectTemplates.fuzzy].
  destruct (contains k fl || contains fl k).
  - intros H. inversion H; subst. exists k. now left.
  - intros H. destruct (IH H) as [k' I]. exists k'. now right.
Qed.

Lemma get_command_shape (framework project_name options : string) :
  Sub project_name
      (ProjectTemplates.get_command framework project_name options)
  /\ startswith
       (ProjectTemplates.get_command framework project_name options)
       "n" = true.
Proof.
  assert (B : forall base,
             Sub project_name base -> startswith base "n" = true ->
             Sub project_name
                 match options with
                 | "" => base
                 | String _ _ => base ++ " " ++ options
                 end
             /\ startswith
                  match options with
                  | "" => base
                  | String _ _ => base ++ " " ++ options
                  end "n" = true).
  { intros base S N. destruct options; [now split|].
    split; [now apply Sub_append_l|now apply startswith_longer]. }
  unfold ProjectTemplates.get_command. cbv zeta.
  destruct (assoc (lower framework) TEMPLATES) as [t|] eqn:E.
  - apply assoc_inv in E. apply templates_hold_name in E as [E1 E2].
    apply B; [now apply format_name_sub|now apply format_name_starts].
  - destruct (ProjectTemplates.fuzzy (lower framework) TEMPLATES)
      as [cmd|] eqn:F.
    + apply fuzzy_inv in F as [k I].
      apply templates_hold_name in I as [E1 E2].
      apply B; [now apply format_name_sub|now apply format_name_starts].
    + apply B; [|reflexivity].
      exists ("npm create " ++ framework ++ "@latest "), " -- --yes".
      now rewrite !append_assoc.
Qed.

Lemma handle_create_runs (IS_WINDOWS : bool)
      (os_shell : spawn -> node -> proc * node)
      (framework project_name options : string) (st : state) :
  handle_create IS_WINDOWS os_shell framework project_name options st
  = (result <- handle_run IS_WINDOWS os_shell
                 (ProjectTemplates.get_command framework project_name options) ;;
     st1 <- get ;;
     let new_project_path :=
       joinpath (current_cwd (self st1)) project_name in
     if exists_ (fs (env st1)) new_project_path
        && is_dir (fs (env st1)) new_project_path
     then cd_result <- handle_cd IS_WINDOWS project_name ;;
          ret (result ++ LF ++ LF
               ++ "SYSTEM: Automatically entered new project directory."
               ++ LF ++ cd_result)
     else ret result) st.
Proof.
  destruct (get_command_shape framework project_name options) as [_ N].
  unfold handle_create.
  destruct (ProjectTemplates.get_command framework project_name options);
    [discriminate|reflexivity].
Qed.

(** X4.  [get_command] always answers with a command: it begins with
    [n] (of [npm] or [npx]), so it is never empty, and the project name
    occurs in it; hence [handle_create] never takes its branch for an
    unknown framework and always hands the command to [handle_run]. *)
Theorem scaffold_command_names_project (framework project_name options : string) :
  let command :=
    ProjectTemplates.get_command framework project_name options in
  Sub project_name command
  /\ startswith command "n" = true
  /\ command <> ""
  /\ forall (IS_WINDOWS : bool) (os_shell : spawn -> node -> proc * node)
            (st : state),
       handle_create IS_WINDOWS os_shell framework project_name options st
       = (result <- handle_run IS_WINDOWS os_shell command ;;
          st1 <- get ;;
          let new_project_path :=
            joinpath (current_cwd (self st1)) project_name in
          if exists_ (fs (env st1)) new_project_path
             && is_dir (fs (env st1)) new_project_path
          then cd_result <- handle_cd IS_WINDOWS project_name ;;
               ret (result ++ LF ++ LF
                    ++ "SYSTEM: Automatically entered new project directory."
                    ++ LF ++ cd_result)
          else ret result) st.
Proof.
  cbv zeta.
  destruct (get_command_shape framework project_name options) as [A1 A2].
  split; [exact A1|]. split; [exact A2|]. split.
  - intros E. rewrite E in A2. discriminate.
  - intros IS_WINDOWS os_shell st. apply handle_create_runs.
Qed.

(** ** [InteractiveCommandFixer.fix] *)

Lemma contains_append_l (a b p : string) :
  contains a p = true -> contains (a ++ b) p = true.
Proof. rewrite !contains_iff. apply Sub_append_l. Qed.

Lemma contains_append_r (a b p : string) :
  contains b p = true -> contains (a ++ b) p = true.
Proof. rewrite !contains_iff. apply Sub_append_r. Qed.

Lemma startswith_refl (s : string) : startswith s s = true.
Proof. rewrite <- (append_nil_r s) at 1. apply startswith_append. Qed.

(** X5.  What [fix] guarantees about the command it returns.  A Vite
    command carries [--template]; a Next.js command a yes flag; an
    Astro command [--template] and [--yes]; a Remix command
    [--template]; a shadcn or init command a yes flag.  Outside of the
    Vite branch the command is only ever extended: the text it was given
    is a prefix of the result. *)
Theorem fix_adds_flags (command : string) :
  let fixed := fst (InteractiveCommandFixer.fix_command command) in
  let l := lower command in
  let vite := contains l "create vite" || contains l "create-vite" in
  let next := contains l "create-next-app" in
  let astro := contains l "create astro" in
  let remix := contains l "create-remix" in
  let shadcn := contains l "shadcn" in
  let init := endswith (strip command) "init" in
  (vite = true -> contains fixed "--template" = true)
  /\ (vite = false -> next = true ->
      contains fixed "--yes" || contains fixed "-y" = true)
  /\ (vite = false -> next = false -> astro = true ->
      contains fixed "--template" = true /\ contains fixed "--yes" = true)
  /\ (vite = false -> next = false -> astro = false -> remix = true ->
      contains fixed "--template" = true)
  /\ (vite = false -> next = false -> astro = false -> remix = false ->
      shadcn || init = true ->
      contains fixed "-y" || contains fixed "--yes" = true)
  /\ (vite = false -> startswith fixed command = true).
Proof.
  cbv zeta. unfold InteractiveCommandFixer.fix_command. cbv zeta.
  destruct (contains (lower command) "create vite"
            || contains (lower command) "create-vite") eqn:V.
  { split; [|repeat split; discriminate].
    intros _.
    set (c' := if negb (contains command "--yes")
                  && negb (contains command "-y")
               then replace (replace command "npm create" "npm create --yes")
                            "npx create-vite" "npx --yes create-vite"
               else command).
    destruct (contains c' "--template") eqn:T; cbn [negb fst]; [exact T|].
    now apply contains_append_r. }
  split; [discriminate|].
  destruct (contains (lower command) "create-next-app") eqn:N.
  { split.
    - intros _ _.
      destruct (contains command "--yes") eqn:Y; cbn [negb andb fst];
        [now rewrite Y|].
      destruct (contains command "-y") eqn:Y'; cbn [negb fst];
        [now rewrite Y', orb_true_r|].
      rewrite (contains_append_r command " --yes" "--yes" eq_refl).
      reflexivity.
    - repeat split; try discriminate. intros _.
      destruct (negb (contains command "--yes")
                && negb (contains command "-y")); cbn [fst];
        [apply startswith_append|apply startswith_refl]. }
  split; [discriminate|].
  destruct (contains (lower command) "create astro") eqn:A.
  { split.
    - intros _ _ _.
      destruct (contains command "--template") eqn:T; cbn [negb fst].
      + destruct (contains command "--yes") eqn:Y; cbn [negb fst];
          [now split|].
        split; [now apply contains_append_l|now apply contains_append_r].
      + split; now apply contains_append_r.
    - repeat split; try discriminate. intros _.
      destruct (negb (contains command "--template")); cbn [fst];
        [apply startswith_append|].
      destruct (negb (contains command "--yes")); cbn [fst];
        [apply startswith_append|apply startswith_refl]. }
  split; [discriminate|].
  destruct (contains (lower command) "create-remix") eqn:R.
  { split.
    - intros _ _ _ _.
      destruct (contains command "--template") eqn:T; cbn [negb fst];
        [exact T|now apply contains_append_r].
    - repeat split; try discriminate. intros _.
      destruct (negb (contains command "--template")); cbn [fst];
        [apply startswith_append|apply startswith_refl]. }
  split; [discriminate|].
  assert (Y : forall w,
             contains
               (fst (if negb (contains command "-y")
                        && negb (contains command "--yes")
                     then (command ++ " -y", w) else (command, "")))
               "-y"
             || contains
                  (fst (if negb (contains command "-y")
                           && negb (contains command "--yes")
                        then (command ++ " -y", w) else (command, "")))
                  "--yes" = true).
  { intros w.
    destruct (contains command "-y") eqn:Y1; cbn [negb andb fst];
      [now rewrite Y1|].
    destruct (contains command "--yes") eqn:Y2; cbn [negb fst];
      [now rewrite Y2, orb_true_r|].
    now rewrite (contains_append_r command " -y" "-y" eq_refl). }
  assert (P : forall w,
             startswith
               (fst (if negb (contains command "-y")
                        && negb (contains command "--yes")
                     then (command ++ " -y", w) else (command, "")))
               command = true).
  { intros w.
    destruct (negb (contains command "-y")
              && negb (contains command "--yes")); cbn [fst];
      [apply startswith_append|apply startswith_refl]. }
  destruct (contains (lower command) "shadcn") eqn:S.
  { split; [intros; apply Y|intros; apply P]. }
  destruct (endswith (strip command) "init") eqn:I.
  { split; [intros; apply Y|intros; apply P]. }
  split; [discriminate|]. intros _.
  destruct (any_in (lower command)
              ["npm create"; "npx create"; "yarn create"; "pnpm create"]);
    [|apply startswith_refl].
  destruct (negb (contains command "--") && negb (contains command "--yes"));
    apply startswith_refl.
Qed.

(** ** [PackageManager] and [handle_install] *)

(** X6.  For an agent whose package manager is the one [_detect] found
    (as [__init__] sets it), INSTALL runs, through [handle_run], the
    command [<manager> install <package>] for npm and
    [<manager> add <package>] for the others, whatever manager the
    block names: its first argument is not used, and the fallback of
    [get_install_cmd] is never needed. *)
Theorem install_uses_detected_manager
        (IS_WINDOWS : bool) (os_shell : spawn -> node -> proc * node)
        (manager pkg : string) (st : state) (f : node) (root : path) :
  pkg_manager (self st) = PackageManager._detect f root ->
  exists verb,
    (verb = "install" <-> pkg_manager (self st) = "npm")
    /\ (verb = "install" \/ verb = "add")
    /\ handle_install IS_WINDOWS os_shell manager pkg st
       = handle_run IS_WINDOWS os_shell
           (pkg_manager (self st) ++ " " ++ verb ++ " " ++ pkg) st.
Proof.
  intros E. unfold handle_install, bind, get. rewrite E.
  unfold PackageManager._detect.
  destruct (exists_ f (joinpath root "bun.lockb"));
    [exists "add"; split; [split; discriminate|]; split; [now right|];
     reflexivity|].
  destruct (exists_ f (joinpath root "pnpm-lock.yaml"));
    [exists "add"; split; [split; discriminate|]; split; [now right|];
     reflexivity|].
  destruct (exists_ f (joinpath root "yarn.lock"));
    [exists "add"; split; [split; discriminate|]; split; [now right|];
     reflexivity|].
  exists "install". split; [now split|]. split; [now left|]. reflexivity.
Qed.

Lemma install_uses_detected_manager_witness :
  exists verb,
    handle_install false Scenario.quiet_shell "yarn" "lodash"
                   (Scenario.start ["n"])
    = handle_run false Scenario.quiet_shell ("npm " ++ verb ++ " lodash")
                 (Scenario.start ["n"]).
Proof.
  destruct (install_uses_detected_manager false Scenario.quiet_shell
              "yarn" "lodash" (Scenario.start ["n"]) Scenario.disk ["proj"]
              eq_refl) as (verb & _ & _ & H).
  exists verb. exact H.
Defined.

End UtilFacts.

(* ================================================================== *)
(** * The message history: pruning and the context entry *)
(* ================================================================== *)

Module HistoryFacts.
Import PyStr Fs FileReader Agent Props Frame Startup StrFacts.
Local Open Scope string_scope.

(** X7.  [_prune_history] never fails and touches nothing but the
    history.  Afterwards the history has at most 2 + 2 *
    [MAX_HISTORY_TURNS] messages; the first two are the ones it had,
    the rest are the last ones it had, in order; a history within that
    bound is left as it is (the test is made against 2 *
    [MAX_HISTORY_TURNS], so 31 or 32 messages are rebuilt unchanged). *)
Theorem prune_history_bound (st : state) :
  let r := _prune_history st in
  let msgs := messages (self st) in
  let msgs' := messages (self (snd r)) in
  fst r = Return tt
  /\ snd r = mk_state (with_messages (self st) msgs') (env st)
  /\ List.length msgs'
     = Nat.min (List.length msgs) (2 + MAX_HISTORY_TURNS * 2)
  /\ firstn 2 msgs' = firstn 2 msgs
  /\ skipn 2 msgs'
     = skipn (List.length msgs - List.length msgs') (skipn 2 msgs)
  /\ (List.length msgs <= 2 + MAX_HISTORY_TURNS * 2 -> msgs' = msgs).
Proof.
  cbv zeta. unfold _prune_history, bind, get, MAX_HISTORY_TURNS.
  change (15 * 2)%nat with 30.
  destruct (30 <? List.length (messages (self st)))%nat eqn:C.
  - apply Nat.ltb_lt in C. unfold put_self.
    cbn [fst snd self env with_messages messages].
    set (msgs := messages (self st)) in *.
    assert (L2 : List.length (firstn 2 msgs) = 2)
      by (rewrite length_firstn; lia).
    assert (LC : List.length (skipn 2 msgs) = List.length msgs - 2)
      by apply length_skipn.
    split; [reflexivity|]. split; [reflexivity|].
    assert (LEN : List.length
                    (firstn 2 msgs
                     ++ skipn (List.length (skipn 2 msgs) - 30)
                              (skipn 2 msgs))%list
                  = Nat.min (List.length msgs) 32).
    { rewrite length_app, length_skipn, L2, LC. lia. }
    split; [exact LEN|].
    split.
    { rewrite firstn_app, L2, Nat.sub_diag, firstn_O, app_nil_r.
      apply firstn_all2. lia. }
    split.
    { rewrite LEN. rewrite skipn_app, L2, Nat.sub_diag, skipn_O.
      rewrite (skipn_all2 (firstn 2 msgs)) by lia. cbn [app].
      f_equal. lia. }
    intros B.
    replace (List.length (skipn 2 msgs) - 30) with 0 by lia.
    rewrite skipn_O. apply firstn_skipn.
  - apply Nat.ltb_ge in C. unfold ret.
    cbn [fst snd self env with_messages messages].
    split; [reflexivity|]. split; [now destruct st as [[] ?]|].
    split; [lia|]. split; [reflexivity|].
    split; [now rewrite Nat.sub_diag|reflexivity].
Qed.

(** ** The context entry *)

Lemma find_context_shift (msgs : list message) (k : nat) :
  find_context msgs (S k) = option_map S (find_context msgs k).
Proof.
  revert k; induction msgs as [|m r IH]; intros k; [reflexivity|].
  cbn [find_context].
  destruct (String.eqb (role m) "system" && contains (content m) CONTEXT_MARKER);
    [reflexivity|apply IH].
Qed.

Lemma find_context_cons (m : message) (r : list message) :
  find_context (m :: r) 0
  = if is_context m then Some 0 else option_map S (find_context r 0).
Proof.
  unfold is_context. cbn [find_context].
  destruct (String.eqb (role m) "system" && contains (content m) CONTEXT_MARKER);
    [reflexivity|apply find_context_shift].
Qed.

(** Replacing the entry found keeps every other message and its own
    place. *)
Lemma list_set_context (msgs : list message) (i : nat) (entry : message) :
  find_context msgs 0 = Some i -> is_context entry = true ->
  list_set msgs i entry = (firstn i msgs ++ entry :: skipn (S i) msgs)%list
  /\ find_context (list_set msgs i entry) 0 = Some i
  /\ List.length (list_set msgs i entry) = List.length msgs.
Proof.
  revert i; induction msgs as [|m r IH]; intros i F C; [discriminate|].
  rewrite find_context_cons in F.
  destruct (is_context m) eqn:M.
  - inversion F; subst. cbn [list_set firstn skipn app].
    rewrite find_context_cons, C. auto.
  - destruct (find_context r 0) as [j|] eqn:R; [|discriminate].
    inversion F; subst.
    destruct (IH j eq_refl C) as (E1 & E2 & E3).
    change (list_set (m :: r) (S j) entry) with (m :: list_set r j entry).
    change (firstn (S j) (m :: r)) with (m :: firstn j r).
    change (skipn (S (S j)) (m :: r)) with (skipn (S j) r).
    rewrite find_context_cons, M, E2. cbn [List.length option_map app].
    rewrite E3, E1. auto.
Qed.

(** Without an entry, the new one goes behind the first message. *)
Lemma list_insert_context (msgs : list message) (entry : message) :
  find_context msgs 0 = None -> is_context entry = true ->
  list_insert msgs 1 entry = (firstn 1 msgs ++ entry :: skipn 1 msgs)%list
  /\ find_context (list_insert msgs 1 entry) 0
     = Some (Nat.min 1 (List.length msgs))
  /\ List.length (list_insert msgs 1 entry) = S (List.length msgs).
Proof.
  intros F C. destruct msgs as [|m r].
  - cbn [list_insert firstn skipn app List.length Nat.min].
    rewrite find_context_cons, C. auto.
  - rewrite find_context_cons in F.
    destruct (is_context m) eqn:M; [discriminate|].
    assert (E : list_insert (m :: r) 1 entry = m :: entry :: r)
      by (now destruct r).
    rewrite E. cbn [firstn skipn app List.length Nat.min].
    rewrite !find_context_cons, M, C. auto.
Qed.

Lemma marked_is_context (rest : string) :
  is_context (mk_message "system" (CONTEXT_MARKER ++ rest)) = true.
Proof.
  unfold is_context. cbn [role content]. rewrite String.eqb_refl.
  apply contains_iff. exists "", rest. reflexivity.
Qed.

Lemma context_entry_marked (f : node) (dir : path) (d : datetime)
      (entry : message) :
  context_entry_of f dir d = Some entry -> is_context entry = true.
Proof.
  unfold context_entry_of. destruct (scrape_contents f dir); [|discriminate].
  intros H. inversion H. apply marked_is_context.
Qed.

Lemma scrape_contents_none (f : node) (dir : path) :
  is_dir f dir = false -> scrape_contents f dir = None.
Proof.
  unfold is_dir, scrape_contents.
  destruct (stat f dir) as [[q [c|es]]|e]; [reflexivity|discriminate|reflexivity].
Qed.

Lemma scrape_contents_some (f : node) (dir : path) :
  is_dir f dir = true -> exists text, scrape_contents f dir = Some text.
Proof.
  unfold is_dir, scrape_contents.
  destruct (stat f dir) as [[q [c|es]]|e]; try discriminate. eauto.
Qed.

(** X8.  On a disk of plain files and directories [refresh_context]
    never raises.  When the project root is not
    an existing directory it answers with an error message and changes
    nothing.  Otherwise only the history changes: the first message
    that carries the context marker is replaced by the new entry, at
    its place; without such a message the entry is put behind the first
    message.  Either way the new entry is the one the next refresh
    finds, so a second refresh does not lengthen the history. *)
Theorem refresh_context_messages (st : state) :
  let root := root_dir (self st) in
  let msgs := messages (self st) in
  let r := refresh_context st in
  let msgs' := messages (self (snd r)) in
  (is_dir (fs (env st)) root = false ->
   r = (Return ("SYSTEM: Error refreshing context: Invalid directory: "
                ++ str root), st))
  /\ (is_dir (fs (env st)) root = true ->
      exists entry,
        context_entry_of (fs (env st)) root (now (env st)) = Some entry
        /\ (exists msg, fst r = Return msg)
        /\ snd r = mk_state (with_messages (self st) msgs') (env st)
        /\ match find_context msgs 0 with
           | Some i =>
               msgs' = (firstn i msgs ++ entry :: skipn (S i) msgs)%list
               /\ find_context msgs' 0 = Some i
           | None =>
               msgs' = (firstn 1 msgs ++ entry :: skipn 1 msgs)%list
               /\ find_context msgs' 0 = Some (Nat.min 1 (List.length msgs))
           end
        /\ List.length (messages (self (snd (refresh_context (snd r)))))
           = List.length msgs').
Proof.
  cbv zeta. split.
  - intros D. unfold refresh_context, try_except, bind, get, scrape.
    now rewrite (scrape_contents_none _ _ D).
  - intros D.
    destruct (CdFacts.refresh_context_root st D) as (entry & E & R).
    exists entry. split; [exact E|]. rewrite R.
    cbn [fst snd self env with_messages messages].
    split; [eauto|]. split; [reflexivity|].
    pose proof (context_entry_marked _ _ _ _ E) as C.
    assert (K : match find_context (messages (self st)) 0 with
                | Some i =>
                    with_context (messages (self st)) entry
                    = (firstn i (messages (self st))
                       ++ entry :: skipn (S i) (messages (self st)))%list
                    /\ find_context
                         (with_context (messages (self st)) entry) 0 = Some i
                | None =>
                    with_context (messages (self st)) entry
                    = (firstn 1 (messages (self st))
                       ++ entry :: skipn 1 (messages (self st)))%list
                    /\ find_context
                         (with_context (messages (self st)) entry) 0
                       = Some (Nat.min 1 (List.length (messages (self st))))
                end).
    { unfold with_context.
      destruct (find_context (messages (self st)) 0) as [i|] eqn:F.
      - destruct (list_set_context _ _ _ F C) as (E1 & E2 & _). auto.
      - destruct (list_insert_context _ _ F C) as (E1 & E2 & _). auto. }
    split; [exact K|].
    set (st1 := mk_state (with_messages (self st)
                            (with_context (messages (self st)) entry))
                         (env st)).
    assert (D1 : is_dir (fs (env st1)) (root_dir (self st1)) = true)
      by exact D.
    destruct (CdFacts.refresh_context_root st1 D1) as (entry1 & E' & R').
    rewrite R'. cbn [snd self with_messages messages].
    pose proof (context_entry_marked _ _ _ _ E') as C'.
    assert (F1 : exists i, find_context (messages (self st1)) 0 = Some i).
    { cbn [st1 self with_messages messages].
      destruct (find_context (messages (self st)) 0);
        destruct K as [_ K]; eauto. }
    destruct F1 as [i F1]. unfold with_context at 1. rewrite F1.
    now destruct (list_set_context _ _ _ F1 C') as (_ & _ & L).
Qed.

(** X9.  On a disk of plain files and directories
    [_load_initial_context] never raises and changes nothing but the
    history.  When the project root is an existing directory it
    appends one system message that carries the context marker; if no
    earlier message carries it, this is the entry a later
    [refresh_context] finds and replaces at its place, so the history
    then keeps its length.  When the root is not an existing directory
    the state is left as it is. *)
Theorem initial_context_is_refreshed (st : state) :
  let root := root_dir (self st) in
  let msgs := messages (self st) in
  let r := _load_initial_context st in
  fst r = Return tt
  /\ (is_dir (fs (env st)) root = false -> snd r = st)
  /\ (is_dir (fs (env st)) root = true ->
      exists first,
        is_context first = true
        /\ snd r = mk_state (with_messages (self st) (msgs ++ [first])%list)
                            (env st)
        /\ (find_context msgs 0 = None ->
            find_context (msgs ++ [first])%list 0 = Some (List.length msgs)
            /\ exists entry,
                 context_entry_of (fs (env st)) root (now (env st))
                 = Some entry
                 /\ messages (self (snd (refresh_context (snd r))))
                    = (msgs ++ [entry])%list)).
Proof.
  cbv zeta. unfold _load_initial_context, try_except, bind, get, scrape.
  destruct (is_dir (fs (env st)) (root_dir (self st))) eqn:D.
  - destruct (scrape_contents_some _ _ D) as [text S]. rewrite S.
    unfold put_self. cbn [fst snd].
    split; [reflexivity|]. split; [discriminate|]. intros _.
    set (first := mk_message "system"
                    (CONTEXT_MARKER ++ ":" ++ LF ++ LF
                     ++ combined_context
                          (_get_tree_output (fs (env st)) (root_dir (self st)))
                          text)).
    assert (C : is_context first = true) by apply marked_is_context.
    exists first. split; [exact C|]. split; [reflexivity|].
    intros F.
    assert (A : forall l, find_context l 0 = None ->
                find_context (l ++ [first])%list 0 = Some (List.length l)).
    { induction l as [|m l IH]; intros Fl.
      - cbn [app]. rewrite find_context_cons, C. reflexivity.
      - rewrite find_context_cons in Fl.
        destruct (is_context m) eqn:M; [discriminate|].
        destruct (find_context l 0) eqn:Fl'; [discriminate|].
        cbn [app List.length]. rewrite find_context_cons, M, (IH eq_refl).
        reflexivity. }
    split; [now apply A|].
    set (st1 := mk_state
                  (with_messages (self st) (messages (self st) ++ [first])%list)
                  (env st)).
    assert (D1 : is_dir (fs (env st1)) (root_dir (self st1)) = true)
      by exact D.
    destruct (CdFacts.refresh_context_root st1 D1) as (entry & E & R).
    exists entry. split; [exact E|]. rewrite R.
    cbn [snd self with_messages messages st1].
    unfold with_context. rewrite (A _ F).
    pose proof (context_entry_marked _ _ _ _ E) as CE.
    destruct (list_set_context _ _ _ (A _ F) CE) as (E1 & _ & _).
    rewrite E1, firstn_app, Nat.sub_diag, firstn_O, app_nil_r.
    rewrite firstn_all, skipn_all2 by (rewrite length_app; simpl; lia).
    reflexivity.
  - rewrite (scrape_contents_none _ _ D). unfold except_Exception.
    cbn [is_Exception ret fst snd]. split; [reflexivity|].
    split; [reflexivity|discriminate].
Qed.

Lemma initial_context_is_refreshed_witness :
  exists entry,
    context_entry_of Scenario.disk ["proj"] Scenario.clock = Some entry
    /\ messages (self (snd (refresh_context
                             (snd (_load_initial_context
                                     (Scenario.start []))))))
       = [mk_message "system" "SYSTEM_INSTRUCTION"; entry].
Proof.
  destruct (initial_context_is_refreshed (Scenario.start []))
    as (_ & _ & H).
  destruct (H eq_refl) as (first & _ & _ & K).
  destruct (K eq_refl) as (_ & entry & E & M).
  exists entry. split; [exact E|exact M].
Defined.

End HistoryFacts.

(* ================================================================== *)
(** * The handlers: what they change and what they leave alone *)
(* ================================================================== *)

Module HandlerFacts.
Import PyStr Fs FileReader Agent Props Frame Scenario StrFacts FsFacts
       PathFacts WriteFacts.
Local Open Scope string_scope.

Lemma only_asked_consume (p : prompt) (st : state) :
  only_asked st (consume p st).
Proof. unfold only_asked, consume. cbn. auto. Qed.

(** X10.  A WRITE or a DELETE that the operator does not confirm with
    [y] or [yes] (case and surrounding blanks apart) answers with its
    denial message and changes nothing: the prompt has been shown and
    the answer read, and that is all.  A DELETE of a path that does not
    exist answers with an error without asking. *)
Theorem unconfirmed_changes_nothing
        (rel content line : string) (rest : list string) (st : state) :
  stdin (env st) = line :: rest ->
  yes_or_y (strip (lower line)) = false ->
  let rel' := normalize_path false rel in
  let target := joinpath (root_dir (self st)) rel' in
  let item_type :=
    if is_dir (fs (env st)) target then "directory" else "file" in
  handle_write false rel content st
  = (Return ("SYSTEM: User denied write to " ++ rel'),
     consume AskApplyChanges st)
  /\ only_asked st (consume AskApplyChanges st)
  /\ (exists_ (fs (env st)) target = true ->
      handle_delete false rel st
      = (Return ("SYSTEM: User denied delete of " ++ rel'),
         consume (AskDelete item_type) st)
      /\ only_asked st (consume (AskDelete item_type) st))
  /\ (exists_ (fs (env st)) target = false ->
      handle_delete false rel st
      = (Return ("SYSTEM: Error - Path " ++ rel' ++ " does not exist."), st)).
Proof.
  intros E Y. cbv zeta. split.
  { unfold handle_write. cbv zeta.
    unfold bind at 1. unfold get at 1. cbv beta iota.
    unfold bind at 1. unfold input. rewrite E, Y. reflexivity. }
  split; [apply only_asked_consume|]. split.
  - intros X. split; [|apply only_asked_consume].
    unfold handle_delete. cbv zeta.
    unfold bind at 1. unfold get at 1. cbv beta iota.
    rewrite X. cbn [negb].
    unfold bind at 1. unfold input. rewrite E, Y. reflexivity.
  - intros X. unfold handle_delete. cbv zeta.
    unfold bind at 1. unfold get at 1. cbv beta iota.
    rewrite X. reflexivity.
Qed.

Lemma unconfirmed_changes_nothing_witness :
  handle_write false "a.txt" "bar" (start ["no"])
  = (Return "SYSTEM: User denied write to a.txt",
     consume AskApplyChanges (start ["no"]))
  /\ fs (env (snd (handle_delete false "a.txt" (start ["no"])))) = disk.
Proof.
  destruct (unconfirmed_changes_nothing "a.txt" "bar" "no" []
              (start ["no"]) eq_refl eq_refl) as (W & _ & D & _).
  split; [exact W|].
  destruct (D eq_refl) as [R _]. rewrite R. reflexivity.
Defined.

(** ** DELETE *)

Lemma prefix_of_inv (q x : path) :
  prefix_of q x = true -> exists r, x = (q ++ r)%list.
Proof.
  revert x; induction q as [|a q IH]; intros x H; [now exists x|].
  destruct x as [|b x]; [discriminate|]. cbn [prefix_of] in H.
  apply andb_true_iff in H as [H1 H2]. apply String.eqb_eq in H1. subst b.
  destruct (IH _ H2) as [r ->]. now exists r.
Qed.

Lemma prefix_of_app (q r : path) : prefix_of q (q ++ r)%list = true.
Proof.
  induction q as [|a q IH]; [reflexivity|].
  cbn [app prefix_of]. now rewrite String.eqb_refl.
Qed.

Lemma del_is_dir (f : node) (q : path) (f' : node) :
  del f q = Some f' -> exists es, f' = Dir es.
Proof.
  destruct q as [|z p]; [discriminate|]. cbn [del].
  destruct f as [c|es]; [discriminate|].
  destruct p as [|w p]; [intros H; inversion H; eauto|].
  destruct (find_entry z es) as [c0|]; [|discriminate].
  destruct (del c0 (w :: p)) as [c0'|]; [|discriminate].
  intros H; inversion H; eauto.
Qed.

(** Removing the node at [q] changes nothing outside of [q]. *)
Lemma del_elsewhere (f : node) (q : path) (f' : node) :
  del f q = Some f' ->
  forall x, prefix_of q x = false -> alike (lookup f x) (lookup f' x).
Proof.
  revert f f'; induction q as [|z p IH]; intros f f' H x N;
    [discriminate|].
  destruct (del_is_dir _ _ _ H) as [es' E'].
  destruct f as [c|es]; [discriminate|].
  destruct x as [|y x]; [subst f'; exact I|].
  cbn [prefix_of] in N. cbn [lookup].
  destruct (String.eqb z y) eqn:ZY.
  - apply String.eqb_eq in ZY. subst y. cbn [andb] in N.
    destruct p as [|w p]; [discriminate|].
    change (del (Dir es) (z :: w :: p))
      with (match find_entry z es with
            | Some c =>
                match del c (w :: p) with
                | Some c' => Some (Dir (set_entry z c' es))
                | None => None
                end
            | None => None
            end) in H.
    destruct (find_entry z es) as [c0|] eqn:F; [|discriminate].
    destruct (del c0 (w :: p)) as [c0'|] eqn:D; [|discriminate].
    inversion H; subst. cbn [lookup]. rewrite find_set_same.
    now apply (IH c0 c0').
  - assert (NE : z <> y) by (now apply String.eqb_neq).
    destruct p as [|w p].
    + cbn [del] in H. inversion H; subst. cbn [lookup].
      rewrite find_del_other by assumption. apply alike_refl.
    + change (del (Dir es) (z :: w :: p))
        with (match find_entry z es with
              | Some c =>
                  match del c (w :: p) with
                  | Some c' => Some (Dir (set_entry z c' es))
                  | None => None
                  end
              | None => None
              end) in H.
      destruct (find_entry z es) as [c0|] eqn:F; [|discriminate].
      destruct (del c0 (w :: p)) as [c0'|] eqn:D; [|discriminate].
      inversion H; subst. cbn [lookup].
      rewrite find_set_other by assumption. apply alike_refl.
Qed.

Lemma nothing_below_file (f : node) (q r : path) (c : string) :
  lookup f q = Some (File c) -> r <> [] -> lookup f (q ++ r)%list = None.
Proof.
  intros L N. rewrite lookup_app, L. now apply lookup_file_below.
Qed.

(** Removing a file changes nothing elsewhere. *)
Lemma del_file_elsewhere (f : node) (q : path) (c : string) (f' : node) :
  del f q = Some f' -> lookup f q = Some (File c) ->
  forall x, x <> q -> alike (lookup f x) (lookup f' x).
Proof.
  intros D L x N.
  destruct (prefix_of q x) eqn:P; [|now apply (del_elsewhere _ _ _ D)].
  apply prefix_of_inv in P as [r ->].
  assert (R : r <> []) by (intros ->; now rewrite app_nil_r in N).
  now rewrite (nothing_below_file _ _ _ _ L R), (del_below _ _ r _ D).
Qed.

Lemma del_file_dirs_kept (f : node) (q : path) (c : string) (f' : node) :
  del f q = Some f' -> lookup f q = Some (File c) -> dirs_kept f f'.
Proof.
  intros D L x es H.
  assert (N : x <> q) by (intros ->; congruence).
  pose proof (del_file_elsewhere _ _ _ _ D L x N) as A.
  rewrite H in A. now apply alike_dir in A.
Qed.

(** X11.  A confirmed DELETE touches the target and nothing else.  A
    file is first copied into the backup directory (which must be in
    place, with no directory at the backup's name, the target not being
    the backup file itself): afterwards the backup holds the content
    the file had, the file is gone, and every other place on the disk
    is as before.  A directory other than the root of the disk loses
    all it holds, without any backup, and every place outside of it is
    as before.  The directory itself is removed, with a report of
    success, when the path as given passes no place inside of it;
    when it does (as a path that ends in [..] does) the final
    [os.rmdir] no longer finds the path: the answer begins with
    [SYSTEM: Delete error:] and the directory stays behind, empty. *)
Theorem delete_removes_target_only (rel line : string) (rest : list string)
        (st : state) :
  stdin (env st) = line :: rest ->
  yes_or_y (strip (lower line)) = true ->
  let rel' := normalize_path false rel in
  let target := joinpath (root_dir (self st)) rel' in
  let bak := joinpath (backup_dir (self st))
                      (backup_name rel' (stamp (now (env st)))) in
  let r := handle_delete false rel st in
  (forall q c1,
      stat (fs (env st)) target = Ok (q, File c1) ->
      is_dir (fs (env st)) (backup_dir (self st)) = true ->
      is_dir (fs (env st)) bak = false ->
      (forall qb n, stat (fs (env st)) bak = Ok (qb, n) -> qb <> q) ->
      fst r = Return ("SYSTEM: File " ++ rel' ++ " deleted successfully.")
      /\ file_text (fs (env (snd r))) bak = Ok c1
      /\ exists_ (fs (env (snd r))) target = false
      /\ exists qb,
           walk (fs (env st)) [] bak = Ok qb
           /\ forall x, x <> qb -> x <> q ->
                        alike (lookup (fs (env st)) x)
                              (lookup (fs (env (snd r))) x))
  /\ (forall q es,
        stat (fs (env st)) target = Ok (q, Dir es) -> q <> [] ->
        (forall x, inside q x = true -> lookup (fs (env (snd r))) x = None)
        /\ (forall x, prefix_of q x = false ->
                      alike (lookup (fs (env st)) x)
                            (lookup (fs (env (snd r))) x))
        /\ (passes_inside q target = false ->
            fst r = Return ("SYSTEM: Directory " ++ rel'
                            ++ " deleted successfully.")
            /\ lookup (fs (env (snd r))) q = None)
        /\ (passes_inside q target = true ->
            (exists msg, fst r = Return ("SYSTEM: Delete error: " ++ msg))
            /\ lookup (fs (env (snd r))) q = Some (Dir []))).
Proof.
  intros E Y. cbv zeta.
  set (rel' := normalize_path false rel).
  set (target := joinpath (root_dir (self st)) rel').
  split.
  - intros q c1 S B D NB.
    assert (X : exists_ (fs (env st)) target = true)
      by (unfold exists_; now rewrite S).
    rewrite (handle_delete_confirmed _ _ _ _ E Y X).
    fold rel'. fold target.
    assert (ID : is_dir (fs (env st)) target = false)
      by (unfold is_dir; now rewrite S).
    rewrite ID.
    destruct (is_dir_inv _ _ B) as (qbd & es & SB).
    destruct (backup_path (backup_dir (self st)) rel' (now (env st)))
      as [J N].
    rewrite J in *.
    pose proof (walk_backup _ _ _ _ _ SB N) as WB.
    set (nm := backup_name rel' (stamp (now (env st)))) in *.
    assert (ND : not_a_dir (lookup (fs (env st)) (qbd ++ [nm])%list)).
    { unfold is_dir, stat in D. rewrite WB in D.
      destruct (lookup (fs (env st)) (qbd ++ [nm])%list) as [[c|es']|];
        simpl; auto. discriminate. }
    destruct (stat_inv _ _ _ _ S) as [W L].
    assert (Q : q <> (qbd ++ [nm])%list).
    { intros ->. apply (NB (qbd ++ [nm])%list (File c1)); [|reflexivity].
      now apply stat_intro. }
    destruct (delete_confirmed_file (backup_dir (self st)) rel' target
                q qbd c1 es (consume (AskDelete "file") st) S SB ND Q)
      as (f1 & f2 & P1 & D2 & R).
    fold nm in R. rewrite R. cbn [fst snd env fs with_fs].
    cbn [consume env fs now] in P1. fold nm in P1.
    assert (L1 : lookup f1 q = Some (File c1)).
    { pose proof (put_file_elsewhere _ _ _ _ P1 ND q Q) as A.
      rewrite L in A. cbn [alike] in A.
      destruct (lookup f1 q) as [[c|es']|]; try contradiction. now subst. }
    pose proof (put_file_dirs_kept _ _ _ _ P1 ND) as K1.
    pose proof (del_file_dirs_kept _ _ _ _ D2 L1) as K2.
    split; [reflexivity|]. split.
    { apply (file_text_intro _ _ (qbd ++ [nm])%list).
      - exact (walk_kept _ _ _ _ _ K2 (walk_kept _ _ _ _ _ K1 WB)).
      - pose proof (del_file_elsewhere _ _ _ _ D2 L1 (qbd ++ [nm])%list
                      (not_eq_sym Q)) as A.
        rewrite (put_self _ _ _ _ P1) in A. cbn [alike] in A.
        destruct (lookup f2 (qbd ++ [nm])%list) as [[c|es']|];
          try contradiction. now subst. }
    split.
    { unfold exists_, stat.
      rewrite (walk_kept _ _ _ _ _ K2 (walk_kept _ _ _ _ _ K1 W)).
      now rewrite (del_self _ _ _ D2). }
    exists (qbd ++ [nm])%list. split; [exact WB|].
    intros x N1 N2.
    apply (alike_trans _ (lookup f1 x)).
    + now apply (put_file_elsewhere _ _ _ _ P1 ND).
    + now apply (del_file_elsewhere _ _ _ _ D2 L1).
  - intros q es S N.
    assert (X : exists_ (fs (env st)) target = true)
      by (unfold exists_; now rewrite S).
    rewrite (handle_delete_confirmed _ _ _ _ E Y X).
    fold rel'. fold target.
    assert (ID : is_dir (fs (env st)) target = true)
      by (unfold is_dir; now rewrite S).
    rewrite ID.
    destruct (delete_confirmed_dir (backup_dir (self st)) rel' target q es
                (consume (AskDelete "directory") st) S N) as (f1 & P & R).
    cbn [consume env fs] in P.
    destruct (passes_inside q target).
    + rewrite R. cbn [fst snd env fs with_fs].
      split; [intros x I; exact (emptied_inside _ _ _ _ P I)|].
      split; [intros x O; exact (put_elsewhere _ _ _ _ P x O)|].
      split; [discriminate|]. intros _.
      split; [eexists; reflexivity|]. exact (put_self _ _ _ _ P).
    + destruct R as (f2 & D & R). rewrite R. cbn [fst snd env fs with_fs].
      split.
      { intros x I. apply inside_inv in I as (r0 & _ & ->).
        exact (del_below _ _ r0 _ D). }
      split.
      { intros x O. apply (alike_trans _ (lookup f1 x)).
        - exact (put_elsewhere _ _ _ _ P x O).
        - exact (del_elsewhere _ _ _ D x O). }
      split; [|discriminate]. intros _.
      split; [reflexivity|]. exact (del_self _ _ _ D).
Qed.

Lemma delete_removes_target_only_witness :
  let r := handle_delete false "a.txt" (start ["y"]) in
  let r' := handle_delete false "sub" (start ["yes"]) in
  let r'' := handle_delete false "sub/.." (start ["y"]) in
  file_text (fs (env (snd r)))
            ["proj"; ".vibe"; "backups"; "a.txt_20261104_093000.bak"] = Ok "foo"
  /\ exists_ (fs (env (snd r))) ["proj"; "a.txt"] = false
  /\ lookup (fs (env (snd r'))) ["proj"; "sub"; "b.txt"] = None
  /\ lookup (fs (env (snd r'))) ["proj"; "sub"] = None
  /\ alike (lookup disk ["proj"; ".vibe"; "backups"])
           (lookup (fs (env (snd r'))) ["proj"; ".vibe"; "backups"])
  /\ (exists msg, fst r'' = Return ("SYSTEM: Delete error: " ++ msg))
  /\ lookup (fs (env (snd r''))) ["proj"] = Some (Dir [])
  /\ alike (lookup disk ["etc"; "passwd"])
           (lookup (fs (env (snd r''))) ["etc"; "passwd"]).
Proof.
  cbv zeta.
  destruct (proj1 (delete_removes_target_only "a.txt" "y" [] (start ["y"])
                     eq_refl eq_refl)
              ["proj"; "a.txt"] "foo")
    as (_ & B & G & _).
  - reflexivity.
  - reflexivity.
  - reflexivity.
  - intros qb n H. vm_compute in H. discriminate H.
  - destruct (proj2 (delete_removes_target_only "sub" "yes" []
                       (start ["yes"]) eq_refl eq_refl)
                ["proj"; "sub"] [("b.txt", File "bar")] eq_refl
                ltac:(discriminate))
      as (G1 & G2 & G3 & _).
    destruct (proj2 (delete_removes_target_only "sub/.." "y" []
                       (start ["y"]) eq_refl eq_refl)
                ["proj"]
                [("a.txt", File "foo");
                 ("sub", Dir [("b.txt", File "bar")]);
                 (".vibe", Dir [("backups", Dir [])])] eq_refl
                ltac:(discriminate))
      as (_ & H2 & _ & H4).
    split; [exact B|]. split; [exact G|].
    split; [apply G1; reflexivity|].
    split; [apply (G3 eq_refl)|].
    split; [apply G2; reflexivity|].
    split; [apply (H4 eq_refl)|].
    split; [apply (H4 eq_refl)|apply H2; reflexivity].
Defined.

(** ** READ, TREE and LISTFILES *)


Section Listing.
Variable IS_WINDOWS : bool.
Variable os_shell : spawn -> node -> proc * node.

(** X13.  LISTFILES asks the operator nothing: it runs its listing
    command ([ls -1], or [dir /b] on Windows) in the agent's current
    directory at once, with a timeout of ten seconds and nothing on
    standard input.  That is the one process it starts; the agent is
    left as it was.  The answer is the output of the command when it
    exits with 0, its error output otherwise. *)
Theorem listfiles_runs_unasked (st : state) :
  let sp := mk_spawn (if IS_WINDOWS then "dir /b" else "ls -1")
                     (Some (current_cwd (self st))) true (Some 10) None in
  let r := handle_listfiles IS_WINDOWS os_shell st in
  spawned (env (snd r)) = (spawned (env st) ++ [sp])%list
  /\ asked (env (snd r)) = asked (env st)
  /\ stdin (env (snd r)) = stdin (env st)
  /\ self (snd r) = self st
  /\ fs (env (snd r)) = snd (os_shell sp (fs (env st)))
  /\ forall rc out err,
       fst (os_shell sp (fs (env st))) = Completed rc out err ->
       fst r = Return (if (rc =? 0)%Z
                       then "SYSTEM: Files in current directory:" ++ LF ++ out
                       else "SYSTEM: Error listing files: " ++ err).
Proof.
  cbv zeta.
  unfold handle_listfiles, try_except, bind, get, subprocess_run, ret.
  cbv beta iota zeta.
  destruct (os_shell _ (fs (env st))) as [[rc out err| | |msg] f];
    cbn [fst snd env self spawned asked stdin fs except_Exception
         is_Exception].
  - destruct (rc =? 0)%Z eqn:Z; cbn [fst snd env self spawned asked stdin fs];
      repeat split; intros rc' out' err' H; inversion H; subst;
      now rewrite Z.
  - repeat split. discriminate.
  - repeat split. discriminate.
  - repeat split. discriminate.
Qed.

End Listing.

(** ** RUN with a [cd] command *)

Lemma split1_cd (s : string) :
  startswith s "cd " = true -> split1 s " "%char = ["cd"; drop 3 s].
Proof.
  intros H. apply startswith_inv in H as [r ->]. reflexivity.
Qed.

(** X14.  A RUN whose command begins with [cd] and a blank never
    reaches the shell and never raises: the rest of the line, whatever it
    holds, is taken as the name of a directory.  If that directory
    exists the agent moves there; if not it answers with an error and
    changes nothing.  Either way no prompt is shown, no process is
    started, the working directory of the process and the history are
    left as they are: unlike CD, nothing is refreshed. *)
Theorem run_cd_moves_agent_only
        (os_shell : spawn -> node -> proc * node) (command : string)
        (st : state) :
  startswith (strip command) "cd " = true ->
  let target := drop 3 (strip command) in
  let new_path := resolve (joinpath (current_cwd (self st)) target) in
  let r := handle_run false os_shell command st in
  env (snd r) = env st
  /\ root_dir (self (snd r)) = root_dir (self st)
  /\ messages (self (snd r)) = messages (self st)
  /\ (is_dir (fs (env st)) new_path = true ->
      fst r = Return ("SYSTEM: Directory changed to " ++ str new_path)
      /\ current_cwd (self (snd r)) = new_path)
  /\ (is_dir (fs (env st)) new_path = false ->
      r = (Return ("SYSTEM: Error - Directory " ++ target ++ " not found."),
           st)).
Proof.
  intros C. cbv zeta. unfold handle_run. rewrite C.
  unfold run_cd. rewrite (split1_cd _ C).
  unfold bind, get, Agent.put_self, ret. cbv beta iota zeta.
  destruct (is_dir (fs (env st))
              (resolve (joinpath (current_cwd (self st))
                                 (drop 3 (strip command))))) eqn:D.
  - rewrite (CdFacts.is_dir_exists _ _ D).
    cbn [andb fst snd env self root_dir messages current_cwd with_cwd].
    repeat split; discriminate.
  - rewrite andb_false_r. cbn [fst snd].
    repeat split; discriminate.
Qed.

Lemma run_cd_moves_agent_only_witness :
  let r := handle_run false quiet_shell "cd sub && rm -rf /" (start []) in
  let r' := handle_run false quiet_shell "cd sub" (start []) in
  r = (Return "SYSTEM: Error - Directory sub && rm -rf / not found.",
       start [])
  /\ current_cwd (self (snd r')) = ["proj"; "sub"]
  /\ os_cwd (env (snd r')) = ["proj"].
Proof.
  cbv zeta.
  destruct (run_cd_moves_agent_only quiet_shell "cd sub && rm -rf /"
              (start []) eq_refl) as (_ & _ & _ & _ & F).
  destruct (run_cd_moves_agent_only quiet_shell "cd sub" (start []) eq_refl)
    as (E & _ & _ & T & _).
  split; [exact (F eq_refl)|].
  split; [exact (proj2 (T eq_refl))|]. now rewrite E.
Defined.

(** ** The directory the agent stands in plays no part in READ, WRITE
    and DELETE *)

Lemma blind_ret {A : Type} (a : A) : cwd_blind (ret a).
Proof. intros st cwd. reflexivity. Qed.

Lemma blind_bind {A B : Type} (m : M A) (k : A -> M B) :
  cwd_blind m -> (forall a, cwd_blind (k a)) -> cwd_blind (bind m k).
Proof.
  intros Hm Hk st cwd. unfold bind. rewrite Hm.
  destruct (m st) as [[a|e] st1]; cbn [fst snd]; [apply Hk|reflexivity].
Qed.

Lemma blind_try {A : Type} (m : M A) (h : exn -> option (M A)) :
  cwd_blind m -> (forall e k, h e = Some k -> cwd_blind k) ->
  cwd_blind (try_except m h).
Proof.
  intros Hm Hh st cwd. unfold try_except. rewrite Hm.
  destruct (m st) as [[a|e] st1]; cbn [fst snd]; [reflexivity|].
  destruct (h e) as [k|] eqn:E; [exact (Hh e k E st1 cwd)|reflexivity].
Qed.

Lemma blind_except {A : Type} (f : exn -> A) (e : exn) (k : M A) :
  except_Exception f e = Some k -> cwd_blind k.
Proof.
  unfold except_Exception. destruct (is_Exception e); [|discriminate].
  intros H. inversion H. apply blind_ret.
Qed.

Lemma blind_get {A : Type} (k : state -> M A) :
  (forall st cwd, k (at_cwd st cwd) = k st) ->
  (forall st, cwd_blind (k st)) -> cwd_blind (bind get k).
Proof.
  intros E H st cwd. unfold bind, get. rewrite E. apply H.
Qed.

Lemma blind_input (p : prompt) : cwd_blind (input p).
Proof.
  intros st cwd. unfold input, at_cwd. cbn [env].
  now destruct (stdin (env st)).
Qed.

Lemma blind_fs_update (op : node -> res node) (p : path) :
  cwd_blind (fs_update op p).
Proof.
  intros st cwd. unfold fs_update, at_cwd. cbn [env].
  now destruct (op (fs (env st))).
Qed.

Lemma blind_rmtree (p : path) : cwd_blind (rmtree p).
Proof.
  unfold rmtree.
  apply blind_bind; [apply blind_fs_update|intros; apply blind_fs_update].
Qed.

Lemma blind_fs_read {A : Type} (op : node -> res A) (p : path) :
  cwd_blind (fs_read op p).
Proof.
  intros st cwd. unfold fs_read, at_cwd. cbn [env].
  now destruct (op (fs (env st))).
Qed.

Lemma blind_scrape (dir : path) : cwd_blind (scrape dir).
Proof.
  intros st cwd. unfold scrape, at_cwd. cbn [env].
  now destruct (scrape_contents (fs (env st)) dir).
Qed.

Lemma blind_now : cwd_blind datetime_now.
Proof. intros st cwd. reflexivity. Qed.

(** X15.  READ, WRITE and DELETE do not look at the directory the
    agent stands in: their path is always taken from the project root.
    From two states that differ in [current_cwd] only they give the same
    answer and make the same changes, so a CD (or a RUN of [cd]) before
    them changes nothing in what they read, write or delete. *)
Theorem paths_are_relative_to_root (IS_WINDOWS : bool) (rel content : string) :
  cwd_blind (handle_read IS_WINDOWS rel)
  /\ cwd_blind (handle_write IS_WINDOWS rel content)
  /\ cwd_blind (handle_delete IS_WINDOWS rel).
Proof.
  split; [|split].
  - unfold handle_read. cbv zeta. apply blind_get; [reflexivity|].
    intros st.
    destruct (negb (startswith _ _)); [apply blind_ret|].
    destruct (negb (exists_ _ _)); [apply blind_ret|].
    apply blind_try; [|apply blind_except].
    destruct (is_dir _ _).
    + apply blind_bind; [apply blind_scrape|intros; apply blind_ret].
    + apply blind_bind; [apply blind_fs_read|intros; apply blind_ret].
  - unfold handle_write. cbv zeta. apply blind_get; [reflexivity|].
    intros st. apply blind_bind; [apply blind_input|]. intros response.
    destruct (negb (yes_or_y _)); [apply blind_ret|].
    unfold write_confirmed. apply blind_try; [|apply blind_except].
    apply blind_bind.
    { destruct (exists_ _ _); [|apply blind_ret].
      apply blind_bind; [apply blind_now|intros; apply blind_fs_update]. }
    intros _. apply blind_bind; [apply blind_fs_update|]. intros _.
    apply blind_bind; [apply blind_fs_update|intros; apply blind_ret].
  - unfold handle_delete. cbv zeta. apply blind_get; [reflexivity|].
    intros st.
    destruct (negb (exists_ _ _)); [apply blind_ret|].
    apply blind_bind; [apply blind_input|]. intros response.
    destruct (negb (yes_or_y _)); [apply blind_ret|].
    unfold delete_confirmed. apply blind_try; [|apply blind_except].
    apply blind_bind.
    { destruct (negb (is_dir _ _)); [|apply blind_ret].
      apply blind_bind; [apply blind_now|intros; apply blind_fs_update]. }
    intros _. apply blind_bind.
    { destruct (is_dir _ _); [apply blind_rmtree|apply blind_fs_update]. }
    intros; apply blind_ret.
Qed.

(** X16.  The backup of a WRITE or a DELETE always lies directly in the
    backup directory, whatever the path of the target: its name holds no
    separator and is not [..], so no path of a target, not even one that
    climbs out of the project, can place a backup elsewhere. *)
Theorem backup_lies_in_backup_dir (backups : path) (rel : string)
        (d : datetime) :
  let nm := backup_name (normalize_path false rel) (stamp d) in
  let bak := joinpath backups nm in
  bak = (backups ++ [nm])%list
  /\ parent bak = backups
  /\ name bak = nm
  /\ resolve bak = (resolve backups ++ [nm])%list
  /\ has_char "/"%char nm = false.
Proof.
  cbv zeta.
  destruct (backup_path backups (normalize_path false rel) d) as [J N].
  destruct (backup_name_plain (normalize_path false rel) (stamp d)
              (has_char_stamp d)) as [H _].
  rewrite J. split; [reflexivity|].
  split; [apply removelast_snoc|].
  split; [unfold name; apply last_last|].
  split; [|exact H].
  unfold resolve. rewrite fold_left_app. cbn [fold_left].
  apply String.eqb_neq in N. now rewrite N.
Qed.

(** ** RUN asks before it starts a process *)

Section Consent.
Variable IS_WINDOWS : bool.
Variable os_shell : spawn -> node -> proc * node.

Lemma run_execute_asked (c : string) (st : state) :
  asked (env (snd (run_execute os_shell c st))) = asked (env st).
Proof. apply (RunFacts.run_execute_effect os_shell c st). Qed.

Lemma run_confirm_consent (c : string) (st : state) :
  let st' := snd (run_confirm os_shell c false st) in
  spawned (env st') <> spawned (env st) ->
  exists line,
    answered st st' AskExecute line /\ yes_or_y (strip (lower line)) = true.
Proof.
  cbv zeta. rewrite RunFacts.run_confirm_ask.
  destruct (stdin (env st)) as [|line rest] eqn:E;
    [intros H; now elim H|].
  destruct (yes_or_y (strip (lower line))) eqn:Y;
    [|intros H; now elim H].
  intros _. exists line. split; [|exact Y]. exists 0. split.
  - rewrite run_execute_asked. cbn [consume env asked].
    now rewrite RunFacts.nth_error_app_plus.
  - now rewrite E.
Qed.

Lemma run_safety_asked (c : string) (b : bool) (st : state) :
  exists more,
    asked (env (snd (run_safety IS_WINDOWS os_shell c b st)))
    = (asked (env st) ++ more)%list.
Proof.
  destruct (is_dangerous IS_WINDOWS c) eqn:D.
  - rewrite RunFacts.run_safety_dangerous by assumption.
    destruct (stdin (env st)) as [|line rest];
      [exists [AskDangerous]; reflexivity|].
    destruct (String.eqb (strip line) "confirm");
      [|exists [AskDangerous]; reflexivity].
    rewrite RunFacts.run_confirm_asked. cbn [consume env asked].
    rewrite <- app_assoc. eauto.
  - rewrite RunFacts.run_safety_harmless by assumption.
    rewrite RunFacts.run_confirm_asked. eauto.
Qed.

Lemma run_safety_consent (c : string) (st : state) :
  let st' := snd (run_safety IS_WINDOWS os_shell c false st) in
  spawned (env st') <> spawned (env st) ->
  exists line,
    answered st st' AskExecute line /\ yes_or_y (strip (lower line)) = true.
Proof.
  cbv zeta. destruct (is_dangerous IS_WINDOWS c) eqn:D.
  - rewrite RunFacts.run_safety_dangerous by assumption.
    destruct (stdin (env st)) as [|line rest] eqn:E;
      [intros H; now elim H|].
    destruct (String.eqb (strip line) "confirm");
      [|intros H; now elim H].
    intros H.
    destruct (run_confirm_consent c (consume AskDangerous st) H)
      as (l & A & Y).
    exists l. split; [|exact Y]. now apply RunFacts.answered_consume in A.
  - rewrite RunFacts.run_safety_harmless by assumption.
    apply run_confirm_consent.
Qed.

Lemma run_server_here_consent (c : string) (st : state) :
  let st' := snd (run_server_here IS_WINDOWS os_shell c st) in
  spawned (env st') <> spawned (env st) ->
  exists line,
    answered st st' AskRunHereAnyway line
    /\ yes_or_y (strip (lower line)) = true.
Proof.
  cbv zeta. rewrite RunFacts.run_server_here_eq.
  destruct (stdin (env st)) as [|line rest] eqn:E;
    [intros H; now elim H|].
  destruct (yes_or_y (strip (lower line))) eqn:Y;
    [|intros H; now elim H].
  intros _. exists line. split; [|exact Y]. exists 0. split.
  - destruct (run_safety_asked c true (consume AskRunHereAnyway st))
      as [more A].
    rewrite A. cbn [consume env asked].
    rewrite <- app_assoc. now rewrite RunFacts.nth_error_app_plus.
  - now rewrite E.
Qed.

(** X17.  RUN starts no process without an affirmative answer of the
    operator.  If a call of [handle_run] has started a process, then
    the operator has answered [y] or [yes] (case and surrounding blanks
    apart) to the execution prompt or, for a server command, to the
    run-here prompt; or, on Windows only, has answered the new-window
    prompt of a server command with [y], [yes] or an empty line, which
    that prompt takes for a yes. *)
Theorem run_needs_consent (command : string) (st : state) :
  let st' := snd (handle_run IS_WINDOWS os_shell command st) in
  spawned (env st') <> spawned (env st) ->
  exists line,
    (answered st st' AskExecute line
     /\ yes_or_y (strip (lower line)) = true)
    \/ (answered st st' AskRunHereAnyway line
        /\ yes_or_y (strip (lower line)) = true)
    \/ (IS_WINDOWS = true
        /\ answered st st' AskLaunchInNewWindow line
        /\ mem (strip (lower line)) [""; "y"; "yes"] = true).
Proof.
  cbv zeta.
  destruct (startswith (strip command) "cd ") eqn:C.
  { unfold handle_run. rewrite C.
    rewrite (RunFacts.run_cd_effect IS_WINDOWS command st).
    intros H. now elim H. }
  rewrite (RunFacts.handle_run_not_cd IS_WINDOWS os_shell command st C).
  cbv zeta.
  destruct (is_server_cmd (prepare IS_WINDOWS command)).
  2:{ intros H.
      destruct (run_safety_consent _ st H) as (l & A & Y). eauto. }
  destruct (Bool.bool_dec IS_WINDOWS true) as [W|W].
  2:{ apply not_true_is_false in W.
      rewrite RunFacts.run_server_guard_posix by assumption. intros H.
      destruct (run_server_here_consent _ st H) as (l & A & Y). eauto. }
  rewrite RunFacts.run_server_guard_windows by assumption.
  destruct (stdin (env st)) as [|line rest] eqn:E;
    [intros H; now elim H|].
  destruct (mem (strip (lower line)) [""; "y"; "yes"]) eqn:Y.
  - intros _. exists line. right. right.
    split; [exact W|]. split; [|exact Y]. exists 0. split.
    + unfold bind, subprocess_run, ret. cbn [consume env fs spawned asked].
      destruct (os_shell _ _) as [[rc out err| | |msg] f];
        cbn [snd env asked]; now rewrite RunFacts.nth_error_app_plus.
    + now rewrite E.
  - intros H.
    destruct (run_server_here_consent _ (consume AskLaunchInNewWindow st) H)
      as (l & A & Y').
    exists l. right. left. split; [|exact Y'].
    now apply RunFacts.answered_consume in A.
Qed.

End Consent.

Lemma run_needs_consent_witness :
  let st' := snd (handle_run false quiet_shell "ls" (start ["Yes "])) in
  spawned (env st') <> spawned (env (start ["Yes "]))
  /\ exists line,
       answered (start ["Yes "]) st' AskExecute line
       /\ yes_or_y (strip (lower line)) = true.
Proof.
  cbv zeta.
  assert (H : spawned (env (snd (handle_run false quiet_shell "ls"
                                            (start ["Yes "]))))
              <> spawned (env (start ["Yes "])))
    by (vm_compute; discriminate).
  split; [exact H|].
  destruct (run_needs_consent false quiet_shell "ls" (start ["Yes "]) H)
    as (line & [A|[[A _]|(W & _)]]).
  - now exists line.
  - exfalso. destruct A as (k & A & _). vm_compute in A.
    destruct k as [|[|k]]; discriminate A.
  - discriminate W.
Defined.

(** ** CREATE *)

(** X18.  CREATE enters a directory of the project's name whenever one
    exists after the scaffolding step, whether or not that step ran.
    Here the operator declines the scaffolding command (which is neither
    a server command nor dangerous); a directory of that name being
    already there, the agent still moves into it and refreshes the
    context: the answer is the denial followed by the report of the
    automatic entry, and no process has been started. *)
Theorem create_enters_existing_directory
        (os_shell : spawn -> node -> proc * node)
        (framework project_name options line : string) (rest : list string)
        (st : state) :
  let c := prepare false
             (ProjectTemplates.get_command framework project_name options) in
  let dir := joinpath (current_cwd (self st)) project_name in
  let r := handle_create false os_shell framework project_name options st in
  is_server_cmd c = false ->
  is_dangerous false c = false ->
  stdin (env st) = line :: rest ->
  yes_or_y (strip (lower line)) = false ->
  is_dir (fs (env st)) dir = true ->
  is_dir (fs (env st)) (resolve dir) = true ->
  is_dir (fs (env st)) (root_dir (self st)) = true ->
  fst r = Return ("SYSTEM: User denied command execution." ++ LF ++ LF
                  ++ "SYSTEM: Automatically entered new project directory."
                  ++ LF
                  ++ "SYSTEM: Context refreshed." ++ LF ++ LF
                  ++ "Current Structure:" ++ LF
                  ++ _get_tree_output (fs (env st)) (root_dir (self st)))
  /\ current_cwd (self (snd r)) = resolve dir
  /\ spawned (env (snd r)) = spawned (env st)
  /\ fs (env (snd r)) = fs (env st).
Proof.
  intros c dir r S D E Y I IR IRoot.
  assert (R0 : exists entry q,
             r = (Return ("SYSTEM: User denied command execution."
                          ++ LF ++ LF
                          ++ "SYSTEM: Automatically entered new project directory."
                          ++ LF
                          ++ "SYSTEM: Context refreshed." ++ LF ++ LF
                          ++ "Current Structure:" ++ LF
                          ++ _get_tree_output (fs (env st))
                                              (root_dir (self st))),
                  mk_state
                    (with_messages (with_cwd (self st) (resolve dir))
                       (with_context (messages (self st)) entry))
                    (with_os_cwd (env (consume AskExecute st)) q))).
  { unfold r. rewrite UtilFacts.handle_create_runs.
    destruct (UtilFacts.get_command_shape framework project_name options)
      as [_ N].
    assert (C : startswith
                  (strip (ProjectTemplates.get_command
                            framework project_name options)) "cd " = false).
    { destruct (startswith (strip (ProjectTemplates.get_command
                                     framework project_name options)) "cd ")
        eqn:H; [|reflexivity].
      apply UtilFacts.startswith_strip in H.
      - apply startswith_inv in H as [t H]. rewrite H in N. discriminate.
      - destruct (ProjectTemplates.get_command framework project_name
                                               options)
          as [|a s]; [reflexivity|].
        cbn [startswith] in N. rewrite andb_true_r in N.
        apply Ascii.eqb_eq in N. subst a. reflexivity. }
    unfold bind at 1.
    rewrite (RunFacts.handle_run_not_cd false os_shell _ st C). cbv zeta.
    fold c. rewrite S.
    rewrite (RunFacts.run_safety_harmless false os_shell c false st D).
    rewrite RunFacts.run_confirm_ask, E, Y.
    unfold bind at 1. unfold get at 1. cbv beta iota zeta.
    cbn [consume self env fs].
    fold dir. rewrite (CdFacts.is_dir_exists _ _ I), I. cbn [andb].
    unfold bind at 1.
    destruct (CdFacts.handle_cd_ok false project_name
                (consume AskExecute st) IR IRoot) as (entry & q & _ & R).
    rewrite R. unfold ret. exists entry, q. reflexivity. }
  destruct R0 as (entry & q & R0). rewrite R0.
  cbn [fst snd self env current_cwd with_messages with_cwd spawned fs
       with_os_cwd consume].
  repeat split.
Qed.

Lemma create_enters_existing_directory_witness :
  let r := handle_create false quiet_shell "vite-react" "sub" ""
             (start ["n"]) in
  current_cwd (self (snd r)) = ["proj"; "sub"]
  /\ spawned (env (snd r)) = [].
Proof.
  cbv zeta.
  destruct (create_enters_existing_directory quiet_shell "vite-react" "sub"
              "" "n" [] (start ["n"])
              eq_refl eq_refl eq_refl eq_refl eq_refl eq_refl eq_refl)
    as (_ & C & S & _).
  split; [exact C|exact S].
Defined.

End HandlerFacts.

(* ================================================================== *)
(** * The command protocol: texts without blocks, blocks of one line *)
(* ================================================================== *)

Module ProtocolFacts.
Import PyStr Fs Agent Props Frame Scenario StrFacts RegexFacts.
Local Open Scope string_scope.

(** X19.  A response in which the start marker occurs nowhere holds no
    command: no handler is called, the feedback is empty, no action is
    reported, and the state is left as it is. *)
Theorem no_marker_no_action
        (IS_WINDOWS : bool) (os_shell : spawn -> node -> proc * node)
        (response_text : string) (st : state) :
  marker_free ">>>" response_text "" = true ->
  planned_calls response_text = []
  /\ process_tool_calls IS_WINDOWS os_shell response_text st
     = (Return ([], false), st).
Proof.
  intros F.
  assert (P : planned_calls response_text = []).
  { unfold planned_calls.
    unfold Regex.P_READ, Regex.P_TREE, Regex.P_LISTFILES, Regex.P_WRITE,
      Regex.P_CD, Regex.P_DELETE, Regex.P_RUN, Regex.P_INSTALL,
      Regex.P_CREATE, Regex.P_SHADCN, Regex.P_REFRESH, Regex.findall.
    rewrite !(findall_marker_free_all _ _ F). reflexivity. }
  split; [exact P|].
  unfold process_tool_calls. rewrite P. reflexivity.
Qed.

Lemma no_marker_no_action_witness :
  process_tool_calls false quiet_shell "I would run rm -rf / >> here <<<"
                     (start [])
  = (Return ([], false), start []).
Proof.
  exact (proj2 (no_marker_no_action false quiet_shell
                  "I would run rm -rf / >> here <<<" (start []) eq_refl)).
Defined.

(** ** Blocks of the verbs that take one argument *)

Lemma other_verb_no_match_at (v0 : ascii) (v' : string) (q : Regex.re)
      (sp1 body : string) :
  isspace v0 = false ->
  startswith body (String v0 v') = false ->
  all_space sp1 = true -> starts_nonspace body = true ->
  Regex.match_here
    (Regex.Cat Regex.OPEN
       (Regex.Cat Regex.ws0 (Regex.Cat (Regex.Lit (String v0 v')) q)))
    (">>>" ++ sp1 ++ body) = None.
Proof.
  intros V NW S1 SB. unfold Regex.match_here, Regex.OPEN, Regex.ws0.
  rewrite run_cat, run_lit, run_cat, run_greedy.
  apply greedy_none; [assumption|assumption|].
  intros a b E. cbv beta iota. rewrite run_cat, run_lit_eq.
  destruct b as [|c b].
  - cbn [append]. now rewrite NW.
  - assert (C : isspace c = true).
    { rewrite E, all_space_append in S1.
      apply andb_true_iff in S1 as [_ S1]. cbn [all_space] in S1.
      now apply andb_true_iff in S1 as [S1 _]. }
    cbn [append startswith]. now rewrite (space_differs _ _ V C).
Qed.

Lemma findall_other_verb_at (v0 : ascii) (v' : string) (q : Regex.re)
      (pre sp1 body : string) :
  isspace v0 = false ->
  startswith body (String v0 v') = false ->
  all_space sp1 = true -> starts_nonspace body = true ->
  marker_free ">>>" pre (">>>" ++ sp1 ++ body) = true ->
  marker_free ">>>" (">>" ++ sp1 ++ body) "" = true ->
  Regex.findall
    (Regex.Cat Regex.OPEN
       (Regex.Cat Regex.ws0 (Regex.Cat (Regex.Lit (String v0 v')) q)))
    (pre ++ ">>>" ++ sp1 ++ body) = [].
Proof.
  intros V NW S1 SB M1 M2. unfold Regex.findall.
  rewrite findall_marker_free by assumption.
  pose proof (other_verb_no_match_at v0 v' q sp1 body V NW S1 SB) as N.
  cbn [append] in N, M2 |- *.
  rewrite (findall_no_match _ _ _ N).
  now apply findall_marker_free_all.
Qed.

Lemma arg_tail (p a b : string) :
  p = a ++ b -> b <> "" -> ends_nonspace p = true ->
  exists w b',
    b = w ++ b' /\ all_space w = true
    /\ starts_nonspace b' = true /\ b' <> "".
Proof.
  intros E Nb PE. subst p.
  apply (ends_nonspace_suffix a b Nb) in PE.
  destruct (span_space b) as (w & b' & Eb & Aw & Sb).
  exists w, b'. subst b. repeat split; auto.
  intros ->. rewrite append_nil_r in PE, Nb.
  rewrite (all_space_not_ends w Nb Aw) in PE. discriminate.
Qed.

Lemma marker_free_at (m x y tail : string) :
  marker_free m (x ++ y) tail = true -> y <> "" ->
  startswith (y ++ tail) m = false.
Proof.
  intros H N. apply marker_free_suffix in H.
  destruct y as [|c y]; [congruence|]. cbn [marker_free] in H.
  apply andb_true_iff in H as [H _]. now apply negb_true_iff in H.
Qed.

(** The pattern of a verb with one argument on one block: the group is
    the argument. *)
Lemma match_line_block (verb sp1 sp2 a sp3 post : string) :
  verb <> "" -> starts_nonspace verb = true ->
  all_space sp1 = true -> all_space sp2 = true -> sp2 <> "" ->
  a <> "" -> starts_nonspace a = true -> ends_nonspace a = true ->
  all_space sp3 = true ->
  marker_free "<<<" (a ++ sp3) ("<<<" ++ post) = true ->
  Regex.match_here
    (Regex.Cat Regex.OPEN
       (Regex.Cat Regex.ws0
          (Regex.Cat (Regex.Lit verb)
             (Regex.Cat Regex.ws1
                (Regex.Cat Regex.arg (Regex.Cat Regex.ws0 Regex.CLOSE))))))
    (">>>" ++ sp1 ++ verb ++ sp2 ++ a ++ sp3 ++ "<<<" ++ post)
  = Some ([a], post).
Proof.
  intros NV SV S1 S2 N2 NA SA EA S3 MF.
  unfold Regex.match_here, Regex.OPEN, Regex.CLOSE, Regex.ws0, Regex.ws1,
    Regex.arg.
  rewrite run_cat, run_lit, run_cat, run_greedy.
  apply greedy_whole; [assumption| |lia|].
  { now apply starts_nonspace_append. }
  cbv beta iota. rewrite run_cat, run_lit, run_cat, run_greedy.
  apply greedy_whole; [assumption| |destruct sp2; [congruence|simpl; lia]|].
  { now apply starts_nonspace_append. }
  cbv beta iota. rewrite run_cat, run_lazy.
  apply lazy_whole.
  - destruct a; [congruence|simpl; lia].
  - intros a1 b E Nb La. cbv beta iota.
    destruct (arg_tail a a1 b E Nb EA) as (w & b' & Eb & Aw & Sb & Nb').
    rewrite Eb, (append_assoc w b').
    rewrite run_cat, run_greedy.
    apply (greedy_none w (b' ++ sp3 ++ "<<<" ++ post)).
    + exact Aw.
    + now apply starts_nonspace_append.
    + intros x y E'. cbv beta iota. rewrite run_lit_eq.
      assert (Z : startswith ((y ++ b' ++ sp3) ++ "<<<" ++ post) "<<<"
                  = false).
      { apply (marker_free_at "<<<" (a1 ++ x)).
        - replace ((a1 ++ x) ++ y ++ b' ++ sp3) with (a ++ sp3); [exact MF|].
          rewrite E, Eb, E'. now rewrite !append_assoc.
        - intros Z. destruct y; [|discriminate].
          destruct b'; [congruence|discriminate]. }
      rewrite !append_assoc in Z. now rewrite Z.
  - cbv beta iota. rewrite run_cat, run_greedy.
    apply greedy_whole; [assumption|reflexivity|lia|].
    cbv beta iota. rewrite run_lit. reflexivity.
Qed.

Lemma findall_line_block (verb pre sp1 sp2 a sp3 post : string) :
  let tail := sp1 ++ verb ++ sp2 ++ a ++ sp3 ++ "<<<" ++ post in
  verb <> "" -> starts_nonspace verb = true ->
  all_space sp1 = true -> all_space sp2 = true -> sp2 <> "" ->
  a <> "" -> starts_nonspace a = true -> ends_nonspace a = true ->
  all_space sp3 = true ->
  marker_free "<<<" (a ++ sp3) ("<<<" ++ post) = true ->
  marker_free ">>>" pre (">>>" ++ tail) = true ->
  marker_free ">>>" (">>" ++ tail) "" = true ->
  Regex.findall
    (Regex.Cat Regex.OPEN
       (Regex.Cat Regex.ws0
          (Regex.Cat (Regex.Lit verb)
             (Regex.Cat Regex.ws1
                (Regex.Cat Regex.arg (Regex.Cat Regex.ws0 Regex.CLOSE))))))
    (pre ++ ">>>" ++ tail)
  = [[a]].
Proof.
  intros tail NV SV S1 S2 N2 NA SA EA S3 MF M1 M2.
  pose proof (match_line_block verb sp1 sp2 a sp3 post
                NV SV S1 S2 N2 NA SA EA S3 MF) as H.
  assert (E : tail = (sp1 ++ verb ++ sp2 ++ a ++ sp3 ++ "<<<") ++ post)
    by (unfold tail; rewrite !append_assoc; reflexivity).
  change (sp1 ++ verb ++ sp2 ++ a ++ sp3 ++ "<<<" ++ post) with tail in H.
  clearbody tail. subst tail.
  set (x := sp1 ++ verb ++ sp2 ++ a ++ sp3 ++ "<<<") in *.
  unfold Regex.findall.
  rewrite findall_marker_free by assumption.
  change (">>>" ++ x ++ post) with (String ">" ((">>" ++ x) ++ post)) in *.
  rewrite (findall_at_match _ _ _ _ _ H). f_equal.
  apply findall_marker_free_all.
  change (">>" ++ x ++ post) with ((">>" ++ x) ++ post) in M2.
  exact (marker_free_suffix _ _ _ _ M2).
Qed.

(** X20.  A response that holds one block of READ, CD, DELETE, RUN or
    SHADCN (the start marker, optional blanks, the verb, blanks, the
    argument, optional blanks, the end marker; the start marker begins
    nowhere else in the text, and the end marker nowhere in the
    argument) plans exactly one call, of that verb, with the argument as
    it stands between the blanks: newlines and blanks inside it are
    kept, and no other pattern takes the block for its own. *)
Theorem single_line_block (verb : string) (mk : string -> call)
        (pre sp1 sp2 a sp3 post : string) :
  In (verb, mk) [("READ", CallRead); ("CD", CallCd); ("DELETE", CallDelete);
                 ("RUN", CallRun); ("SHADCN", CallShadcn)] ->
  let tail := sp1 ++ verb ++ sp2 ++ a ++ sp3 ++ "<<<" ++ post in
  all_space sp1 = true -> all_space sp2 = true -> sp2 <> "" ->
  a <> "" -> starts_nonspace a = true -> ends_nonspace a = true ->
  all_space sp3 = true ->
  marker_free "<<<" (a ++ sp3) ("<<<" ++ post) = true ->
  marker_free ">>>" pre (">>>" ++ tail) = true ->
  marker_free ">>>" (">>" ++ tail) "" = true ->
  planned_calls (pre ++ ">>>" ++ tail) = [mk a].
Proof.
  intros I tail S1 S2 N2 NA SA EA S3 MF M1 M2.
  assert (ST : strip a = a) by (now apply strip_trimmed).
  unfold planned_calls.
  unfold Regex.P_READ, Regex.P_TREE, Regex.P_LISTFILES, Regex.P_WRITE,
    Regex.P_CD, Regex.P_DELETE, Regex.P_RUN, Regex.P_INSTALL,
    Regex.P_CREATE, Regex.P_SHADCN, Regex.P_REFRESH.
  cbn [In] in I.
  unfold tail in *. clear tail.
  repeat (destruct I as [I|I];
          [inversion I; subst verb mk; clear I;
           rewrite (findall_line_block _ pre sp1 sp2 a sp3 post)
             by (assumption || reflexivity || discriminate);
           rewrite !findall_other_verb_at
             by (assumption || reflexivity);
           cbn [map app group nth]; now rewrite ST|]).
  contradiction.
Qed.

Lemma single_line_block_witness :
  planned_calls ("Let me look. >>> RUN npm test -- --watch=false <<< Done.")
  = [CallRun "npm test -- --watch=false"].
Proof.
  exact (single_line_block "RUN" CallRun "Let me look. " " " " "
           "npm test -- --watch=false" " " " Done."
           ltac:(cbn [In]; tauto)
           eq_refl eq_refl ltac:(discriminate) ltac:(discriminate)
           eq_refl eq_refl eq_refl eq_refl eq_refl eq_refl).
Defined.

End ProtocolFacts.

(* ================================================================== *)
(** * The scan of the repository *)
(* ================================================================== *)

Module ScrapeFacts.
Import PyStr Fs FileReader Props StrFacts.
Local Open Scope string_scope.

Lemma find_entry_in (x : string) (es : list (string * node)) (n : node) :
  find_entry x es = Some n -> In (x, n) es.
Proof.
  induction es as [|[y m] es IH]; [discriminate|]. cbn [find_entry].
  destruct (String.eqb x y) eqn:E.
  - intros H. inversion H; subst. apply String.eqb_eq in E. subst. now left.
  - intros H. right. auto.
Qed.

(** [rglob] yields every node below the directory. *)
Lemma lookup_in_rglob (rel : path) :
  forall (es : list (string * node)) (base : path) (n : node),
    rel <> [] -> lookup (Dir es) rel = Some n ->
    In ((base ++ rel)%list, n) (rglob (Dir es) base).
Proof.
  induction rel as [|x rel IH]; intros es base n N L; [congruence|].
  cbn [lookup] in L.
  destruct (find_entry x es) as [c|] eqn:F; [|discriminate].
  apply find_entry_in in F.
  destruct rel as [|y rel].
  - cbn [lookup] in L. inversion L; subst. cbn [rglob].
    apply in_or_app. left. apply in_map_iff. now exists (x, n).
  - destruct c as [c0|es']; [discriminate|]. cbn [rglob].
    apply in_or_app. right. apply in_flat_map.
    exists (x, Dir es'). split; [exact F|].
    replace (base ++ x :: y :: rel)%list
      with ((base ++ [x]) ++ y :: rel)%list
      by (now rewrite <- app_assoc).
    apply IH; [discriminate|exact L].
Qed.

Lemma concat_cons (s : string) (ls : list string) :
  String.concat "" (s :: ls) = s ++ String.concat "" ls.
Proof.
  destruct ls; cbn [String.concat]; [now rewrite append_nil_r|reflexivity].
Qed.

Lemma concat_sub {A : Type} (g : A -> string) (x : A) (l : list A) :
  In x l -> Sub (g x) (String.concat "" (map g l)).
Proof.
  induction l as [|y l IH]; [contradiction|].
  cbn [map]. rewrite concat_cons. intros [->|I].
  - exists "", (String.concat "" (map g l)). reflexivity.
  - destruct (IH I) as (pre & post & E). exists (g y ++ pre), post.
    now rewrite E, append_assoc.
Qed.

(** X21.  [scrape_contents] gives the text of every regular file below
    the directory whose own name is not on the skip lists: its section
    (the path, a fence tagged with the extension, the text, the closing
    fence) occurs in the result.  Only the name of the file itself is
    tested, not the directories above it, so the files inside a skipped
    directory such as [node_modules] are given as well. *)
Theorem scrape_gives_every_file
        (f : node) (root q rel : path) (es : list (string * node))
        (c : string) :
  stat f root = Ok (q, Dir es) ->
  lookup (Dir es) rel = Some (File c) ->
  is_ignored (name rel) (File c) = false ->
  let ext := match suffix_of (name rel) with
             | "" => "text"
             | String _ e => e
             end in
  exists text,
    scrape_contents f root = Some text
    /\ Sub ("### File: `" ++ join "/" rel ++ "`" ++ LF
            ++ "```" ++ ext ++ LF ++ universal_newlines c ++ LF ++ "```"
            ++ LF ++ LF) text.
Proof.
  intros S L I ext.
  assert (N : rel <> []) by (intros ->; discriminate).
  unfold scrape_contents. rewrite S. eexists. split; [reflexivity|].
  pose proof (lookup_in_rglob rel es [] (File c) N L) as R.
  cbn [app] in R.
  pose proof (concat_sub (fun e => file_section (fst e) (snd e))
                (rel, File c) _ R) as C.
  cbn [fst snd file_section] in C. rewrite I in C. fold ext in C.
  repeat (apply UtilFacts.Sub_append_r). exact C.
Qed.


Lemma scrape_gives_every_file_witness :
  let disk := Dir [("proj",
                    Dir [("node_modules",
                          Dir [("left-pad",
                                Dir [("index.js", File "module.exports = 1;")])])])] in
  exists text,
    scrape_contents disk ["proj"] = Some text
    /\ Sub ("### File: `node_modules/left-pad/index.js`" ++ LF
            ++ "```js" ++ LF ++ "module.exports = 1;" ++ LF ++ "```"
            ++ LF ++ LF) text.
Proof.
  intros disk.
  exact (scrape_gives_every_file disk ["proj"] ["proj"]
           ["node_modules"; "left-pad"; "index.js"] _ "module.exports = 1;"
           eq_refl eq_refl eq_refl).
Defined.

End ScrapeFacts.
